(** * Batch / retry engine of the DocumentAI Node.js SDK

    A shallow embedding of
      - src/domain/entities/documents.js          (class Document),
      - src/domain/value-objects/file_path.js     (class FilePath, kept in
        src/unnamed/part_001; the part Document relies on),
      - src/domain/services/batch_processing.service.js
        (class BatchProcessingService, and the two versions of
        DocumentAIService.getProcessingStats that the file carries),
      - src/infrastructure/repositories/document_ai.repository.js
        (class DocumentAIRepository: its retry loop and error messages),
    together with the properties of the engine that the specification states.

    Conventions of the embedding.
      - JavaScript integers are [Z]; a [Number] that is the result of a
        division or of [Math.random] is an exact rational [Q] (IEEE rounding
        is not modelled), with [NaN] and the infinities kept apart.
      - An exception is a [Throw] completion carrying the error message.
      - Mutable objects are passed explicitly: every method takes the state
        of [this] and returns the new state next to its completion.  The
        lists of a service are written with the current values of the
        documents they refer to.  The documents themselves are objects that
        the caller, and any other service they were added to, hold as well:
        between two calls of a service the documents in its lists may have
        had their methods called ([touched]), and the states a service
        goes through ([reachable]) include those steps.
      - [console.log] calls are not modelled. *)

From Stdlib Require Import ZArith QArith Qminmax Qpower List String Ascii Bool Lia.
From Stdlib Require Import DecimalString Permutation.
Import ListNotations.

(* ===================================================================== *)
(** ** JavaScript values and builtins used by the sources                *)
(* ===================================================================== *)

Module Js.

Open Scope Z_scope.

(** Completion of a call: a returned value or a thrown [Error] (its
    [message]). *)
Inductive Completion (A : Type) : Type :=
| Return (a : A)
| Throw (message : string).

Arguments Return {A} a.
Arguments Throw {A} message.

(** A JavaScript [Number] outside the integers. *)
Inductive Number : Type :=
| NaN
| Infinity (positive : bool)
| Num (q : Q).

(** [a / b] on finite operands. *)
Definition div (a b : Q) : Number :=
  if Qeq_bool b 0 then
    (if Qeq_bool a 0 then NaN else Infinity (Qle_bool 0 a))
  else Num (a / b)%Q.

(** [x * k] for a finite, positive constant [k]. *)
Definition mulConst (x : Number) (k : Q) : Number :=
  match x with
  | NaN => NaN
  | Infinity p => Infinity p
  | Num q => Num (q * k)%Q
  end.

(** [`${n}`] for an integer [n]. *)
Definition showZ (n : Z) : string := NilZero.string_of_int (Z.to_int n).

(** [Math.ceil(a / b)] for integers [a], [b] with [b <> 0]. *)
Definition ceilDiv (a b : Z) : Z := - ((- a) / b).

(** [hay.includes(needle)]. *)
Fixpoint includes (needle hay : string) : bool :=
  if String.prefix needle hay then true
  else match hay with
       | EmptyString => false
       | String _ rest => includes needle rest
       end.

(** [array.includes(x)] on an array of strings. *)
Definition arrayIncludes (x : string) (xs : list string) : bool :=
  existsb (String.eqb x) xs.

(** [errors.join(', ')]. *)
Definition join (sep : string) (xs : list string) : string :=
  String.concat sep xs.

(** *** [parseInt(string)] without a radix (ECMAScript 19.2.5), on strings of
    ASCII characters.  [None] of an environment variable is [undefined];
    the result [None] is [NaN].  Values are exact integers (a JavaScript
    engine rounds beyond 2^53). *)

Definition isWhiteSpace (c : ascii) : bool :=
  let n := nat_of_ascii c in
  ((n =? 9) || (n =? 10) || (n =? 11) || (n =? 12) || (n =? 13) || (n =? 32))%nat.

Fixpoint trimStart (s : string) : string :=
  match s with
  | String c rest => if isWhiteSpace c then trimStart rest else s
  | EmptyString => s
  end.

Definition digitValue (c : ascii) : option Z :=
  let n := Z.of_nat (nat_of_ascii c) in
  if (48 <=? n) && (n <=? 57) then Some (n - 48)
  else if (97 <=? n) && (n <=? 122) then Some (n - 87)
  else if (65 <=? n) && (n <=? 90) then Some (n - 55)
  else None.

(** The value of the longest prefix of radix-[radix] digits; [acc] is [None]
    until a digit has been read. *)
Fixpoint digitsPrefix (radix : Z) (s : string) (acc : option Z) : option Z :=
  match s with
  | EmptyString => acc
  | String c rest =>
      match digitValue c with
      | Some d =>
          if d <? radix
          then digitsPrefix radix rest
                 (Some (match acc with Some a => a * radix + d | None => d end))
          else acc
      | None => acc
      end
  end.

Definition parseInt (v : option string) : option Z :=
  match v with
  | None => None
  | Some s =>
      let s1 := trimStart s in
      let '(sign, s2) :=
        match s1 with
        | String "-"%char rest => (-1, rest)
        | String "+"%char rest => (1, rest)
        | _ => (1, s1)
        end in
      let '(radix, s3) :=
        match s2 with
        | String "0"%char (String "x"%char rest) => (16, rest)
        | String "0"%char (String "X"%char rest) => (16, rest)
        | _ => (10, s2)
        end in
      option_map (Z.mul sign) (digitsPrefix radix s3 None)
  end.

(** [parseInt(v) || dflt]: [NaN] and [0] are falsy. *)
Definition parseIntOr (v : option string) (dflt : Z) : Z :=
  match parseInt v with
  | Some n => if n =? 0 then dflt else n
  | None => dflt
  end.

(** [v || dflt] on an optional string: [undefined] and [''] are falsy. *)
Definition stringOr (v : option string) (dflt : string) : string :=
  match v with
  | Some EmptyString => dflt
  | Some s => s
  | None => dflt
  end.

(** [array.slice(start, end)] with JavaScript's relative indices. *)
Definition relativeIndex (len i : Z) : Z :=
  if i <? 0 then Z.max (len + i) 0 else Z.min i len.

Definition slice {A : Type} (xs : list A) (start stop : Z) : list A :=
  let len := Z.of_nat (List.length xs) in
  let k := relativeIndex len start in
  let final := relativeIndex len stop in
  firstn (Z.to_nat (Z.max (final - k) 0)) (skipn (Z.to_nat k) xs).

(** [array.splice(0, deleteCount)]: the removed elements and what is left. *)
Definition splice0 {A : Type} (xs : list A) (deleteCount : Z) : list A * list A :=
  let n := Z.to_nat (Z.min (Z.max deleteCount 0) (Z.of_nat (List.length xs))) in
  (firstn n xs, skipn n xs).

End Js.

Import Js.

(* ===================================================================== *)
(** ** class FilePath (value object)                                     *)
(* ===================================================================== *)

Module FilePath.

Open Scope string_scope.
Open Scope Z_scope.

(** A FilePath together with what the file system and the URL parser answer
    for it: [isUrl] is [isValidUrl(value)], [validateUrlError] the message
    thrown by [validateUrl(value)] if it throws, [existsSync] and
    [accessSyncOk] the answers of [fs.existsSync] and [fs.accessSync],
    [statSize] the size reported by [fs.statSync] ([None] when it throws) and
    [extension] the lower-cased [path.extname]. *)
Record t : Type := {
  value : string;
  isUrl : bool;
  validateUrlError : option string;
  existsSync : bool;
  accessSyncOk : bool;
  statSize : option Z;
  extension : string
}.

Definition exists_ (p : t) : bool :=
  if isUrl p then true else existsSync p.

Definition isReadable (p : t) : bool :=
  if isUrl p then true else accessSyncOk p.

Definition getExtension (p : t) : string := extension p.

Definition getSize (p : t) : Completion Z :=
  if isUrl p then Throw "Cannot get file size for URL without downloading"
  else match statSize p with
       | Some n => Return n
       | None => Throw "Cannot get file size"
       end.

Definition supportedExtensions : list string :=
  [".pdf";
   ".jpg"; ".jpeg"; ".png"; ".tiff"; ".tif"; ".bmp"; ".gif"; ".webp";
   ".ppm"; ".pgm"; ".pbm"; ".sr"; ".ras"; ".jp2"; ".j2k"; ".jpx";
   ".jpf"; ".jpm"; ".mj2"; ".tga"; ".exr"; ".hdr"; ".pic"].

Definition isSupportedType (p : t) : bool :=
  arrayIncludes (getExtension p) supportedExtensions.

(** [isWithinSizeLimit()] with its default [maxSize] of 50MB. *)
Definition isWithinSizeLimit (p : t) : bool :=
  if isUrl p then true
  else match getSize p with
       | Return size => size <=? 50 * 1024 * 1024
       | Throw _ => false
       end.

Definition isUrlPath (p : t) : bool := isUrl p.
Definition isLocalPath (p : t) : bool := negb (isUrl p).

Record Validation : Type := {
  isValid : bool;
  errors : list string
}.

Definition validateForProcessing (p : t) : Validation :=
  let errs :=
    ((if isUrl p
      then match validateUrlError p with
           | Some message => [message]
           | None => []
           end
      else (if negb (exists_ p) then ["File does not exist"] else [])
           ++ (if negb (isReadable p) then ["File is not readable"] else [])
           ++ (if negb (isWithinSizeLimit p)
               then ["File size exceeds maximum allowed limit"] else []))
     ++ (if negb (isSupportedType p)
         then [("Unsupported file type: " ++ getExtension p)%string]
         else []))%list in
  {| isValid := (List.length errs =? 0)%nat; errors := errs |}.

(** [getMimeType()]: the table of [mimeTypes] in source order.  An extension
    is [''] or starts with a dot, so that no inherited property of the
    object literal is ever hit. *)
Definition mimeTypes : list (string * string) :=
  [(".pdf", "application/pdf");
   (".jpg", "image/jpeg"); (".jpeg", "image/jpeg"); (".png", "image/png");
   (".tiff", "image/tiff"); (".tif", "image/tiff"); (".bmp", "image/bmp");
   (".gif", "image/gif"); (".webp", "image/webp");
   (".ppm", "image/x-portable-pixmap"); (".pgm", "image/x-portable-graymap");
   (".pbm", "image/x-portable-bitmap"); (".sr", "image/x-sun-raster");
   (".ras", "image/x-cmu-raster"); (".jp2", "image/jp2"); (".j2k", "image/jp2");
   (".jpx", "image/jp2"); (".jpf", "image/jp2"); (".jpm", "image/jpm");
   (".mj2", "image/mj2"); (".tga", "image/x-tga"); (".exr", "image/x-exr");
   (".hdr", "image/vnd.radiance"); (".pic", "image/x-pict")].

(** [table[key]] on an object literal with distinct keys. *)
Fixpoint property (key : string) (table : list (string * string))
  : option string :=
  match table with
  | [] => None
  | (k, v) :: rest => if String.eqb key k then Some v else property key rest
  end.

Definition getMimeType (p : t) : string :=
  stringOr (property (getExtension p) mimeTypes) "application/octet-stream".

(** What [new URL(urlString)] yields: the parts [validateUrl] reads
    ([extname] is [path.extname(url.pathname).toLowerCase()]), or the message
    of the TypeError it throws. *)
Record Url : Type := {
  protocol : string;
  pathname : string;
  extname : string
}.

Inductive UrlParse : Type :=
| Parsed (url : Url)
| Unparsable (message : string).

Definition urlExtensions : list string :=
  [".pdf"; ".jpg"; ".jpeg"; ".png"; ".tiff"; ".tif"; ".bmp"; ".gif"; ".webp"].

(** The [try] block of [validateUrl]. *)
Definition validateUrlBody (parse : UrlParse) : Completion unit :=
  match parse with
  | Unparsable message => Throw message
  | Parsed url =>
      if negb (arrayIncludes (protocol url) ["http:"; "https:"]) then
        Throw ("Unsupported protocol: " ++ protocol url
               ++ ". Only HTTP and HTTPS are supported.")
      else if negb (includes "." (pathname url)) then
        Throw "URL must point to a file with a valid extension"
      else if negb (arrayIncludes (extname url) urlExtensions) then
        Throw ("Unsupported file extension in URL: " ++ extname url)
      else Return tt
  end.

(** [validateUrl(urlString)], with [parse] what [new URL(urlString)] does. *)
Definition validateUrl (parse : UrlParse) : Completion unit :=
  match validateUrlBody parse with
  | Return tt => Return tt
  | Throw message =>
      if includes "Unsupported protocol" message
         || includes "Unsupported file extension" message
      then Throw message
      else Throw "Invalid URL format"
  end.

End FilePath.

(* ===================================================================== *)
(** ** class Document (entity)                                           *)
(* ===================================================================== *)

Module Document.

Open Scope string_scope.
Open Scope Z_scope.

(** [processingStatus]: 'pending', 'processing', 'completed', 'failed'. *)
Inductive Status : Type := pending | processing | completed | failed.

Definition Status_eqb (a b : Status) : bool :=
  match a, b with
  | pending, pending | processing, processing
  | completed, completed | failed, failed => true
  | _, _ => false
  end.

(** [size] is [None] when the constructor received [undefined];
    [lastProcessingAttempt] is the time of the Date in milliseconds, [None]
    for [null].  [createdAt] is read by no method modelled here. *)
Record t : Type := {
  id : string;
  filePath : FilePath.t;
  mimeType : string;
  size : option Z;
  batchSize : Z;
  maxWorkers : Z;
  maxRetries : Z;
  maxRetryWaitTime : Z;
  retryLoggingStyle : string;
  processingAttempts : Z;
  lastProcessingAttempt : option Z;
  processingStatus : Status
}.

Record ProcessingCheck : Type := {
  canProcess : bool;
  reason : string;
  code : string
}.

Definition supportedTypes : list string :=
  ["application/pdf";
   "image/jpeg"; "image/png"; "image/tiff"; "image/bmp"; "image/gif";
   "image/webp";
   "image/x-portable-pixmap"; "image/x-portable-graymap";
   "image/x-portable-bitmap"; "image/x-sun-raster"; "image/x-cmu-raster";
   "image/jp2"; "image/jpm"; "image/mj2"; "image/x-tga"; "image/x-exr";
   "image/vnd.radiance"; "image/x-pict"].

Definition maxFileSize : Z := 50 * 1024 * 1024.

Definition refuse (why what : string) : ProcessingCheck :=
  {| canProcess := false; reason := why; code := what |}.

(** [this.size && this.size > bound]. *)
Definition sizeAbove (d : t) (bound : Z) : bool :=
  match size d with
  | Some n => negb (n =? 0) && (bound <? n)
  | None => false
  end.

(** [canBeProcessed()], with [now] the value of [Date.now()]. *)
Definition canBeProcessed (now : Z) (d : t) : ProcessingCheck :=
  let p := filePath d in
  if FilePath.isLocalPath p && negb (FilePath.exists_ p) then
    refuse "File does not exist or is not accessible" "FILE_NOT_FOUND"
  else if FilePath.isLocalPath p && sizeAbove d maxFileSize then
    refuse ("File size " ++ match size d with Some n => showZ n | None => "" end
            ++ " bytes exceeds maximum allowed size of " ++ showZ maxFileSize
            ++ " bytes") "FILE_TOO_LARGE"
  else if negb (arrayIncludes (mimeType d) supportedTypes) then
    refuse ("Unsupported file type: " ++ mimeType d) "UNSUPPORTED_FILE_TYPE"
  else if Status_eqb (processingStatus d) processing then
    refuse "Document is currently being processed" "ALREADY_PROCESSING"
  else if Status_eqb (processingStatus d) completed then
    refuse "Document has already been processed successfully" "ALREADY_COMPLETED"
  else if maxRetries d <=? processingAttempts d then
    refuse ("Maximum retry attempts (" ++ showZ (maxRetries d) ++ ") exceeded")
           "MAX_RETRIES_EXCEEDED"
  else
    let rateLimited :=
      match lastProcessingAttempt d with
      | Some last =>
          let timeSinceLastAttempt := now - last in
          let minWaitTime := maxRetryWaitTime d * 1000 in
          if timeSinceLastAttempt <? minWaitTime
          then Some (ceilDiv (minWaitTime - timeSinceLastAttempt) 1000)
          else None
      | None => None
      end in
    match rateLimited with
    | Some seconds =>
        refuse ("Rate limit: must wait " ++ showZ seconds
                ++ " more seconds before retry") "RATE_LIMITED"
    | None =>
        if batchSize d <=? 0 then
          refuse "Batch size must be greater than 0" "INVALID_BATCH_SIZE"
        else if maxWorkers d <=? 0 then
          refuse "Maximum workers must be greater than 0" "INVALID_MAX_WORKERS"
        else
          {| canProcess := true; reason := "Document can be processed";
             code := "READY_TO_PROCESS" |}
    end.

(** [markAsProcessing()], with [now] the time of [new Date()]. *)
Definition markAsProcessing (now : Z) (d : t) : t :=
  {| id := id d; filePath := filePath d; mimeType := mimeType d; size := size d;
     batchSize := batchSize d; maxWorkers := maxWorkers d;
     maxRetries := maxRetries d; maxRetryWaitTime := maxRetryWaitTime d;
     retryLoggingStyle := retryLoggingStyle d;
     processingAttempts := processingAttempts d + 1;
     lastProcessingAttempt := Some now;
     processingStatus := processing |}.

Definition setStatus (st : Status) (d : t) : t :=
  {| id := id d; filePath := filePath d; mimeType := mimeType d; size := size d;
     batchSize := batchSize d; maxWorkers := maxWorkers d;
     maxRetries := maxRetries d; maxRetryWaitTime := maxRetryWaitTime d;
     retryLoggingStyle := retryLoggingStyle d;
     processingAttempts := processingAttempts d;
     lastProcessingAttempt := lastProcessingAttempt d;
     processingStatus := st |}.

Definition markAsCompleted (d : t) : t := setStatus completed d.

Definition markAsFailed (d : t) : t := setStatus failed d.

Definition resetProcessingState (d : t) : t :=
  {| id := id d; filePath := filePath d; mimeType := mimeType d; size := size d;
     batchSize := batchSize d; maxWorkers := maxWorkers d;
     maxRetries := maxRetries d; maxRetryWaitTime := maxRetryWaitTime d;
     retryLoggingStyle := retryLoggingStyle d;
     processingAttempts := 0;
     lastProcessingAttempt := None;
     processingStatus := pending |}.

Record Validation : Type := {
  isValid : bool;
  errors : list string
}.

(** [validate()].  The test [!this.filePath] never fires: the constructor
    always stores a FilePath object. *)
Definition validate (d : t) : Validation :=
  let filePathValidation := FilePath.validateForProcessing (filePath d) in
  let errs :=
    ((if String.eqb (id d) "" then ["Document ID is required"] else [])
    ++ (if String.eqb (mimeType d) "" then ["MIME type is required"] else [])
    ++ (match size d with
        | Some n => if negb (n =? 0) && (n <? 0)
                    then ["File size cannot be negative"] else []
        | None => []
        end)
    ++ (if batchSize d <=? 0 then ["Batch size must be greater than 0"] else [])
    ++ (if maxWorkers d <=? 0
        then ["Maximum workers must be greater than 0"] else [])
    ++ (if maxRetries d <? 0
        then ["Maximum retries cannot be negative"] else [])
    ++ (if maxRetryWaitTime d <? 0
        then ["Maximum retry wait time cannot be negative"] else [])
    ++ (if negb (FilePath.isValid filePathValidation)
        then FilePath.errors filePathValidation else []))%list in
  {| isValid := (List.length errs =? 0)%nat; errors := errs |}.

End Document.

(* ===================================================================== *)
(** ** class BatchProcessingService (domain service)                     *)
(* ===================================================================== *)

Module BatchProcessingService.

Open Scope string_scope.
Open Scope Z_scope.

(** The variables of [process.env] the constructor reads. *)
Record ProcessEnv : Type := {
  BATCH_SIZE : option string;
  MAX_WORKERS : option string;
  MAX_RETRIES : option string;
  MAX_RETRY_WAIT_TIME : option string;
  RETRY_LOGGING_STYLE : option string
}.

Record t : Type := {
  batchSize : Z;
  maxWorkers : Z;
  maxRetries : Z;
  maxRetryWaitTime : Z;
  retryLoggingStyle : string;
  activeWorkers : Z;
  processingQueue : list Document.t;
  completedDocuments : list Document.t;
  failedDocuments : list Document.t
}.

(** [new BatchProcessingService()].  The body has no [throw]. *)
Definition constructor (env : ProcessEnv) : Completion t :=
  Return
    {| batchSize := parseIntOr (BATCH_SIZE env) 4;
       maxWorkers := parseIntOr (MAX_WORKERS env) 2;
       maxRetries := parseIntOr (MAX_RETRIES env) 80;
       maxRetryWaitTime := parseIntOr (MAX_RETRY_WAIT_TIME env) 30;
       retryLoggingStyle := stringOr (RETRY_LOGGING_STYLE env) "log_msg";
       activeWorkers := 0;
       processingQueue := [];
       completedDocuments := [];
       failedDocuments := [] |}.

(** Assignments to the mutable fields. *)
Definition setQueue (q : list Document.t) (s : t) : t :=
  {| batchSize := batchSize s; maxWorkers := maxWorkers s;
     maxRetries := maxRetries s; maxRetryWaitTime := maxRetryWaitTime s;
     retryLoggingStyle := retryLoggingStyle s;
     activeWorkers := activeWorkers s;
     processingQueue := q;
     completedDocuments := completedDocuments s;
     failedDocuments := failedDocuments s |}.

Definition pushCompleted (d : Document.t) (s : t) : t :=
  {| batchSize := batchSize s; maxWorkers := maxWorkers s;
     maxRetries := maxRetries s; maxRetryWaitTime := maxRetryWaitTime s;
     retryLoggingStyle := retryLoggingStyle s;
     activeWorkers := activeWorkers s;
     processingQueue := processingQueue s;
     completedDocuments := (completedDocuments s ++ [d])%list;
     failedDocuments := failedDocuments s |}.

Definition pushFailed (d : Document.t) (s : t) : t :=
  {| batchSize := batchSize s; maxWorkers := maxWorkers s;
     maxRetries := maxRetries s; maxRetryWaitTime := maxRetryWaitTime s;
     retryLoggingStyle := retryLoggingStyle s;
     activeWorkers := activeWorkers s;
     processingQueue := processingQueue s;
     completedDocuments := completedDocuments s;
     failedDocuments := (failedDocuments s ++ [d])%list |}.

(** *** Admission: [canAddToBatch], [addToBatch] *)

(** The object returned by [canAddToBatch] (its [batchInfo], present on
    acceptance only, repeats the queue length and [batchSize]). *)
Module Decision.
Record t : Type := {
  canAdd : bool;
  reason : string;
  code : string
}.
End Decision.

Definition idInQueue (s : t) (document : Document.t) : bool :=
  existsb (fun doc => String.eqb (Document.id doc) (Document.id document))
          (processingQueue s).

(** [canAddToBatch(document)], with [now] the value of [Date.now()] read by
    [document.canBeProcessed()]. *)
Definition canAddToBatch (s : t) (now : Z) (document : Document.t) : Decision.t :=
  let validation := Document.validate document in
  if negb (Document.isValid validation) then
    {| Decision.canAdd := false;
       Decision.reason := "Document validation failed: "
                          ++ join ", " (Document.errors validation);
       Decision.code := "VALIDATION_FAILED" |}
  else
    let processingCheck := Document.canBeProcessed now document in
    if negb (Document.canProcess processingCheck) then
      {| Decision.canAdd := false;
         Decision.reason := Document.reason processingCheck;
         Decision.code := Document.code processingCheck |}
    else if batchSize s <=? Z.of_nat (List.length (processingQueue s)) then
      {| Decision.canAdd := false;
         Decision.reason := "Batch is full (" ++ showZ (batchSize s)
                            ++ " documents)";
         Decision.code := "BATCH_FULL" |}
    else if idInQueue s document then
      {| Decision.canAdd := false;
         Decision.reason := "Document is already in processing queue";
         Decision.code := "ALREADY_IN_QUEUE" |}
    else
      {| Decision.canAdd := true;
         Decision.reason := "Document can be added to batch";
         Decision.code := "READY_TO_ADD" |}.

(** [calculateEstimatedWaitTime()]; [maxWorkers] is not 0 in a constructed
    service. *)
Definition calculateEstimatedWaitTime (s : t) : Z :=
  let documentsInQueue := Z.of_nat (List.length (processingQueue s)) in
  let estimatedTimePerDocument := 5 in
  let workers := maxWorkers s in
  ceilDiv (documentsInQueue * estimatedTimePerDocument) workers.

Module AddResult.
Record t : Type := {
  success : bool;
  documentId : string;
  queuePosition : Z;
  estimatedWaitTime : Z
}.
End AddResult.

(** [addToBatch(document)]: the completion and the state of the service
    after the call. *)
Definition addToBatch (s : t) (now : Z) (document : Document.t)
  : Completion AddResult.t * t :=
  let canAdd := canAddToBatch s now document in
  if negb (Decision.canAdd canAdd) then
    (Throw ("Cannot add document to batch: " ++ Decision.reason canAdd), s)
  else
    let s' := setQueue (processingQueue s ++ [document])%list s in
    (Return {| AddResult.success := true;
               AddResult.documentId := Document.id document;
               AddResult.queuePosition :=
                 Z.of_nat (List.length (processingQueue s'));
               AddResult.estimatedWaitTime := calculateEstimatedWaitTime s' |},
     s').

(** *** Retry policy: [processDocument], [shouldRetry],
    [calculateRetryWaitTime] *)

(** What [extractionFunction] may throw: an [Error] with its message, or a
    value whose [message] is not a string, on which the [catch] block of
    [processDocument] itself throws a TypeError (with message [typeError]). *)
Inductive Thrown : Type :=
| ErrorObject (message : string)
| NotAnError (typeError : string).

Inductive Response : Type :=
| Resolved (result : string)
| Rejected (e : Thrown).

(** The surroundings of a [processBatch] call.  [extractionFunction d n] is
    how the [n]-th call [extractionFunction(d)] settles; [random d n] is the
    draw of [Math.random()] after attempt [n] on [d]; [dispatchedAt d] is the
    time at which [d] is marked as processing and [settledAt d] the time at
    which [processDocument(d)] settles.  The extraction function is taken not
    to touch the service or the document. *)
Record World : Type := {
  extractionFunction : Document.t -> Z -> Response;
  random : Document.t -> Z -> Q;
  dispatchedAt : Document.t -> Z;
  settledAt : Document.t -> Z
}.

Module Outcome.
(** The object [processDocument] resolves to; a field the object literal
    does not have is [None]. *)
Record t : Type := {
  success : bool;
  result : option string;
  error : option string;
  attempts : option Z
}.
End Outcome.

(** [shouldRetry(error, attempt)] on [error.message]. *)
Definition shouldRetry (s : t) (message : string) (attempt : Z) : bool :=
  if includes "VALIDATION_FAILED" message
     || includes "UNSUPPORTED_FILE_TYPE" message
     || includes "FILE_TOO_LARGE" message then false
  else if includes "Invalid API key" message
          || includes "401" message then false
  else attempt <? maxRetries s.

(** [calculateRetryWaitTime(attempt)] in milliseconds, with [rnd] the value
    of [Math.random()]. *)
Definition calculateRetryWaitTime (s : t) (attempt : Z) (rnd : Q) : Q :=
  let baseWaitTime := Z.min (maxRetryWaitTime s) 30 in
  let exponentialWait := (Qpower 2 (attempt - 1) * 1000)%Q in
  let jitter := (rnd * 1000)%Q in
  Qmin (exponentialWait + jitter)%Q (inject_Z baseWaitTime * 1000)%Q.

(** What [processDocument] does to the outside, in order. *)
Inductive Event : Type :=
| Extract (attempt : Z)
| Sleep (ms : Q).

Definition isExtract (e : Event) : bool :=
  match e with Extract _ => true | Sleep _ => false end.

Definition invocations (trace : list Event) : nat :=
  List.length (filter isExtract trace).

(** The values [attempt] takes in
    [for (let attempt = 1; attempt <= this.maxRetries; attempt++)]. *)
Definition attemptRange (maxRetries : Z) : list Z :=
  map Z.of_nat (seq 1 (Z.to_nat maxRetries)).

(** The [return] after the loop: [lastError?.message || 'Max retries
    exceeded'] (an empty message is falsy). *)
Definition afterLoop (s : t) (lastError : option string) : Outcome.t :=
  {| Outcome.success := false;
     Outcome.result := None;
     Outcome.error :=
       Some (match lastError with
             | Some "" => "Max retries exceeded"
             | Some message => message
             | None => "Max retries exceeded"
             end);
     Outcome.attempts := Some (maxRetries s) |}.

(** The loop of [processDocument] over the attempts still to come. *)
Fixpoint attemptLoop (s : t) (w : World) (document : Document.t)
    (upcoming : list Z) (lastError : option string)
  : Completion Outcome.t * list Event :=
  match upcoming with
  | [] => (Return (afterLoop s lastError), [])
  | attempt :: later =>
      match extractionFunction w document attempt with
      | Resolved result =>
          (Return {| Outcome.success := true;
                     Outcome.result := Some result;
                     Outcome.error := None;
                     Outcome.attempts := None |},
           [Extract attempt])
      | Rejected (NotAnError typeError) =>
          (Throw typeError, [Extract attempt])
      | Rejected (ErrorObject message) =>
          if negb (shouldRetry s message attempt) then
            (Return (afterLoop s (Some message)), [Extract attempt])
          else
            let slept :=
              if attempt <? maxRetries s
              then [Sleep (calculateRetryWaitTime s attempt
                             (random w document attempt))]
              else [] in
            let '(outcome, trace) :=
              attemptLoop s w document later (Some message) in
            (outcome, (Extract attempt :: slept ++ trace)%list)
      end
  end.

(** [processDocument(document, extractionFunction)]: its completion and the
    calls it made. *)
Definition processDocument (s : t) (w : World) (document : Document.t)
  : Completion Outcome.t * list Event :=
  attemptLoop s w document (attemptRange (maxRetries s)) None.

(** *** Wave scheduler: [chunkArray], [processBatch] *)

(** The loop of [chunkArray] from index [i] on.  [None] stands for a loop
    that has not ended within [fuel] iterations. *)
Fixpoint chunkLoop {A : Type} (fuel : nat) (array : list A) (chunkSize i : Z)
  : option (list (list A)) :=
  match fuel with
  | O => None
  | S fuel' =>
      if i <? Z.of_nat (List.length array) then
        match chunkLoop fuel' array chunkSize (i + chunkSize) with
        | Some chunks => Some (slice array i (i + chunkSize) :: chunks)
        | None => None
        end
      else Some []
  end.

(** [chunkArray(array, chunkSize)].  With [chunkSize >= 1] the loop ends
    within [length array] iterations; with [chunkSize <= 0] and a non-empty
    array it never ends (see [chunkLoop_diverges]). *)
Definition chunkArray {A : Type} (array : list A) (chunkSize : Z)
  : option (list (list A)) :=
  chunkLoop (S (List.length array)) array chunkSize 0.

Module ErrorEntry.
Record t : Type := {
  documentId : string;
  error : option string
}.
End ErrorEntry.

Module Summary.
(** The object [processBatch] resolves to: with [message] and without
    [errors] on an empty queue, the other way round otherwise. *)
Record t : Type := {
  processed : Z;
  completed : Z;
  failed : Z;
  message : option string;
  errors : option (list ErrorEntry.t)
}.

Definition countCompleted (r : t) : t :=
  {| processed := processed r; completed := completed r + 1;
     failed := failed r; message := message r; errors := errors r |}.

Definition countFailed (e : ErrorEntry.t) (r : t) : t :=
  {| processed := processed r; completed := completed r;
     failed := failed r + 1; message := message r;
     errors := option_map (fun es => (es ++ [e])%list) (errors r) |}.
End Summary.

(** The rest of the callback of [chunk.map] once [processDocument(document)]
    has settled; [document] was marked as processing at dispatch. *)
Definition settle (w : World) (acc : Summary.t * t) (document : Document.t)
  : Summary.t * t :=
  let '(results, s) := acc in
  let fail (error : option string) :=
    (Summary.countFailed
       {| ErrorEntry.documentId := Document.id document;
          ErrorEntry.error := error |} results,
     pushFailed (Document.markAsFailed document) s) in
  match fst (processDocument s w document) with
  | Return result =>
      if Outcome.success result then
        (Summary.countCompleted results,
         pushCompleted (Document.markAsCompleted document) s)
      else fail (Outcome.error result)
  | Throw message => fail (Some message)
  end.

(** Documents in the order in which their processing settles. *)
Fixpoint insertBySettling (w : World) (d : Document.t) (ds : list Document.t)
  : list Document.t :=
  match ds with
  | [] => [d]
  | d' :: rest =>
      if settledAt w d' <? settledAt w d
      then d' :: insertBySettling w d rest
      else d :: ds
  end.

Definition settlingOrder (w : World) (ds : list Document.t) : list Document.t :=
  fold_right (insertBySettling w) [] ds.

(** One iteration of [for (const chunk of chunks)]: every document of the
    chunk is marked as processing and its extraction started; the callbacks
    then finish one at a time, in the order in which the extractions settle,
    and [Promise.all] waits for all of them. *)
Definition processChunk (w : World) (acc : Summary.t * t)
    (chunk : list Document.t) : Summary.t * t :=
  let dispatched :=
    map (fun d => Document.markAsProcessing (dispatchedAt w d) d) chunk in
  fold_left (settle w) (settlingOrder w dispatched) acc.

(** [processBatch(extractionFunction)]: the summary and the state of the
    service when the promise resolves; [None] when [chunkArray] does not
    return. *)
Definition processBatch (s : t) (w : World) : option (Summary.t * t) :=
  if (List.length (processingQueue s) =? 0)%nat then
    Some ({| Summary.processed := 0;
             Summary.completed := 0;
             Summary.failed := 0;
             Summary.message := Some "No documents in queue to process";
             Summary.errors := None |}, s)
  else
    let '(batchToProcess, remaining) :=
      splice0 (processingQueue s) (batchSize s) in
    let s1 := setQueue remaining s in
    let results :=
      {| Summary.processed := Z.of_nat (List.length batchToProcess);
         Summary.completed := 0;
         Summary.failed := 0;
         Summary.message := None;
         Summary.errors := Some [] |} in
    match chunkArray batchToProcess (maxWorkers s) with
    | Some chunks => Some (fold_left (processChunk w) chunks (results, s1))
    | None => None
    end.

(** *** [clearResults], [reset] *)

Definition clearResults (s : t) : t :=
  {| batchSize := batchSize s; maxWorkers := maxWorkers s;
     maxRetries := maxRetries s; maxRetryWaitTime := maxRetryWaitTime s;
     retryLoggingStyle := retryLoggingStyle s;
     activeWorkers := activeWorkers s;
     processingQueue := processingQueue s;
     completedDocuments := [];
     failedDocuments := [] |}.

Definition reset (s : t) : t :=
  {| batchSize := batchSize s; maxWorkers := maxWorkers s;
     maxRetries := maxRetries s; maxRetryWaitTime := maxRetryWaitTime s;
     retryLoggingStyle := retryLoggingStyle s;
     activeWorkers := 0;
     processingQueue := [];
     completedDocuments := [];
     failedDocuments := [] |}.

(** *** Documents are shared objects *)

(** [this.processingQueue.push(document)] stores the caller's object, and
    [completedDocuments] and [failedDocuments] get that same object.  Whoever
    else holds it (the caller, another service it was added to and which
    dispatches it) can call the methods of [Document] that assign to its
    state: [called d d'] is one such call. *)
Inductive called : Document.t -> Document.t -> Prop :=
| called_markAsProcessing : forall now d,
    called d (Document.markAsProcessing now d)
| called_markAsCompleted : forall d,
    called d (Document.markAsCompleted d)
| called_markAsFailed : forall d,
    called d (Document.markAsFailed d)
| called_resetProcessingState : forall d,
    called d (Document.resetProcessingState d).

Definition setCompleted (ds : list Document.t) (s : t) : t :=
  {| batchSize := batchSize s; maxWorkers := maxWorkers s;
     maxRetries := maxRetries s; maxRetryWaitTime := maxRetryWaitTime s;
     retryLoggingStyle := retryLoggingStyle s;
     activeWorkers := activeWorkers s;
     processingQueue := processingQueue s;
     completedDocuments := ds;
     failedDocuments := failedDocuments s |}.

Definition setFailed (ds : list Document.t) (s : t) : t :=
  {| batchSize := batchSize s; maxWorkers := maxWorkers s;
     maxRetries := maxRetries s; maxRetryWaitTime := maxRetryWaitTime s;
     retryLoggingStyle := retryLoggingStyle s;
     activeWorkers := activeWorkers s;
     processingQueue := processingQueue s;
     completedDocuments := completedDocuments s;
     failedDocuments := ds |}.

(** What a service sees of such a call: one document of one of its lists
    has changed under it. *)
Inductive touched : t -> t -> Prop :=
| touched_queue : forall s before d after d',
    processingQueue s = (before ++ d :: after)%list -> called d d' ->
    touched s (setQueue (before ++ d' :: after)%list s)
| touched_completed : forall s before d after d',
    completedDocuments s = (before ++ d :: after)%list -> called d d' ->
    touched s (setCompleted (before ++ d' :: after)%list s)
| touched_failed : forall s before d after d',
    failedDocuments s = (before ++ d :: after)%list -> called d d' ->
    touched s (setFailed (before ++ d' :: after)%list s).

(** The states a service goes through: constructed, then driven by its
    public methods, its documents being touched by their other holders in
    between. *)
Inductive reachable : t -> Prop :=
| reachable_new : forall env s,
    constructor env = Return s -> reachable s
| reachable_addToBatch : forall s now document r s',
    reachable s -> addToBatch s now document = (r, s') -> reachable s'
| reachable_processBatch : forall s w r s',
    reachable s -> processBatch s w = Some (r, s') -> reachable s'
| reachable_clearResults : forall s,
    reachable s -> reachable (clearResults s)
| reachable_reset : forall s,
    reachable s -> reachable (reset s)
| reachable_touched : forall s s',
    reachable s -> touched s s' -> reachable s'.

(** *** [getBatchStats] *)

Module BatchStats.
Record Configuration : Type := {
  batchSize : Z;
  maxWorkers : Z;
  maxRetries : Z;
  maxRetryWaitTime : Z;
  retryLoggingStyle : string
}.
Record Queue : Type := {
  size : Z;
  maxSize : Z;
  availableSlots : Z
}.
Record Processing : Type := {
  activeWorkers : Z;
  processingMaxWorkers : Z
}.
Record Results : Type := {
  completed : Z;
  failed : Z;
  total : Z
}.
Record t : Type := {
  configuration : Configuration;
  queue : Queue;
  processing : Processing;
  results : Results
}.
End BatchStats.

Definition getBatchStats (s : t) : BatchStats.t :=
  let queueLength := Z.of_nat (List.length (processingQueue s)) in
  let completedLength := Z.of_nat (List.length (completedDocuments s)) in
  let failedLength := Z.of_nat (List.length (failedDocuments s)) in
  {| BatchStats.configuration :=
       {| BatchStats.batchSize := batchSize s;
          BatchStats.maxWorkers := maxWorkers s;
          BatchStats.maxRetries := maxRetries s;
          BatchStats.maxRetryWaitTime := maxRetryWaitTime s;
          BatchStats.retryLoggingStyle := retryLoggingStyle s |};
     BatchStats.queue :=
       {| BatchStats.size := queueLength;
          BatchStats.maxSize := batchSize s;
          BatchStats.availableSlots := Z.max 0 (batchSize s - queueLength) |};
     BatchStats.processing :=
       {| BatchStats.activeWorkers := activeWorkers s;
          BatchStats.processingMaxWorkers := maxWorkers s |};
     BatchStats.results :=
       {| BatchStats.completed := completedLength;
          BatchStats.failed := failedLength;
          BatchStats.total := completedLength + failedLength |} |}.

End BatchProcessingService.

(* ===================================================================== *)
(** ** DocumentAIService.getProcessingStats                              *)
(* ===================================================================== *)

(** The service keeps two Maps keyed by document id, [results] and [errors];
    the statistics read their sizes.  Of the returned object the counters and
    [successRate] are modelled. *)
Module Stats.
Record t : Type := {
  totalProcessed : Z;
  successful : Z;
  failed : Z;
  successRate : Js.Number
}.
End Stats.

Module DocumentAIService.

Open Scope Z_scope.

Record t : Type := {
  results : list (string * string);
  errors : list (string * string)
}.

(** The version of lines 583-600: no test on the total. *)
Definition getProcessingStats (s : t) : Stats.t :=
  let results_length := Z.of_nat (List.length (results s)) in
  let errors_length := Z.of_nat (List.length (errors s)) in
  {| Stats.totalProcessed := results_length + errors_length;
     Stats.successful := results_length;
     Stats.failed := errors_length;
     Stats.successRate :=
       Js.mulConst
         (Js.div (inject_Z results_length)
                 (inject_Z (results_length + errors_length))) 100 |}.

End DocumentAIService.

Module DocumentAIServiceGuarded.

Open Scope Z_scope.

Record t : Type := {
  results : list (string * string);
  errors : list (string * string)
}.

(** The version of lines 915-940: [totalProcessed > 0 ? ... : 0]. *)
Definition getProcessingStats (s : t) : Stats.t :=
  let totalProcessed := Z.of_nat (List.length (results s))
                        + Z.of_nat (List.length (errors s)) in
  let successful := Z.of_nat (List.length (results s)) in
  let failed := Z.of_nat (List.length (errors s)) in
  let successRate :=
    if 0 <? totalProcessed
    then Js.mulConst (Js.div (inject_Z successful) (inject_Z totalProcessed)) 100
    else Js.Num 0 in
  {| Stats.totalProcessed := totalProcessed;
     Stats.successful := successful;
     Stats.failed := failed;
     Stats.successRate := successRate |}.

End DocumentAIServiceGuarded.

(* ===================================================================== *)
(** ** class DocumentAIRepository: retries and error messages            *)
(* ===================================================================== *)

Module DocumentAIRepository.

Open Scope string_scope.
Open Scope Z_scope.

(** An error of the HTTP client: [response] is there when the server
    answered, with its [status] and [data] ([None] when the body is
    [undefined], else [data.message], [None] when that is [undefined]);
    [code] is the code of a network or file-system error. *)
Record ErrorResponse : Type := {
  status : Z;
  data : option (option string)
}.

Record RequestError : Type := {
  response : option ErrorResponse;
  code : option string;
  message : string
}.

(** The limits in [this.config]. *)
Record Config : Type := {
  maxRetries : Z;
  retryDelay : Z
}.

(** [shouldNotRetry(error)]. *)
Definition shouldNotRetry (error : RequestError) : bool :=
  match response error with
  | Some r =>
      if status r =? 401 then true
      else if status r =? 400 then true
      else if (400 <=? status r) && (status r <? 500) then true
      else false
  | None => false
  end.

(** [data.message || dflt]; reading [message] of an [undefined] body throws
    a TypeError. *)
Definition messageOr (data : option (option string)) (dflt : string)
  : Completion string :=
  match data with
  | None => Throw "Cannot read properties of undefined (reading 'message')"
  | Some m => Return (stringOr m dflt)
  end.

(** [handleError(error, document)] of lines 193-228: the message of the
    Error it returns. *)
Definition handleError (error : RequestError) (document : Document.t)
  : Completion string :=
  match response error with
  | Some r =>
      if status r =? 401 then
        Return "Invalid API key. Please check your credentials."
      else if status r =? 400 then
        match messageOr (data r) "Check your schema and file format." with
        | Return m => Return ("Invalid request: " ++ m)
        | Throw e => Throw e
        end
      else if status r =? 413 then
        Return "File too large. Maximum file size is 50MB."
      else if status r =? 429 then
        Return "Rate limit exceeded. Please try again later."
      else if status r =? 500 then
        Return "Internal server error. Please try again later."
      else
        match messageOr (data r) "Unknown error occurred." with
        | Return m => Return ("API Error (" ++ showZ (status r) ++ "): " ++ m)
        | Throw e => Throw e
        end
  | None =>
      match code error with
      | Some "ENOENT" =>
          Return ("File not found: " ++ FilePath.value (Document.filePath document))
      | Some "ECONNABORTED" => Return "Request timeout. Please try again."
      | Some "ENOTFOUND" =>
          Return "Network error. Please check your internet connection."
      | _ => Return ("Extraction failed: " ++ message error)
      end
  end.

(** How one [httpClient.post] settles. *)
Inductive Posted : Type :=
| Answered (body : string)
| Failed (error : RequestError).

(** What [makeRequestWithRetry] does to the outside, in order. *)
Inductive Event : Type :=
| Post (attempt : Z)
| Sleep (ms : Z).

Definition isPost (e : Event) : bool :=
  match e with Post _ => true | Sleep _ => false end.

Definition requests (trace : list Event) : nat :=
  List.length (filter isPost trace).

(** How [makeRequestWithRetry] settles: with the response, or throwing an
    error of the client, or throwing [lastError] while it is still
    [undefined]. *)
Inductive Settled : Type :=
| Responded (body : string)
| Threw (error : RequestError)
| ThrewUndefined.

(** The loop of [makeRequestWithRetry] over the attempts still to come;
    [post n] is how the [n]-th request settles. *)
Fixpoint requestLoop (c : Config) (post : Z -> Posted) (upcoming : list Z)
    (lastError : option RequestError) : Settled * list Event :=
  match upcoming with
  | [] => (match lastError with
           | Some error => Threw error
           | None => ThrewUndefined
           end, [])
  | attempt :: later =>
      match post attempt with
      | Answered body => (Responded body, [Post attempt])
      | Failed error =>
          if shouldNotRetry error then (Threw error, [Post attempt])
          else
            let slept :=
              if attempt <? maxRetries c
              then [Sleep (retryDelay c * 2 ^ (attempt - 1))]
              else [] in
            let '(settled, trace) := requestLoop c post later (Some error) in
            (settled, (Post attempt :: slept ++ trace)%list)
      end
  end.

Definition makeRequestWithRetry (c : Config) (post : Z -> Posted)
  : Settled * list Event :=
  requestLoop c post (BatchProcessingService.attemptRange (maxRetries c)) None.

End DocumentAIRepository.

(* ===================================================================== *)
(** * Vocabulary of the properties, and sample data                      *)
(* ===================================================================== *)

Module BPS := BatchProcessingService.
Module Doc := Document.
Module Repo := DocumentAIRepository.

Open Scope string_scope.
Open Scope Z_scope.

(** ** Classification of error messages, as [shouldRetry] reads them *)

Definition validationFailure (message : string) : bool :=
  includes "VALIDATION_FAILED" message
  || includes "UNSUPPORTED_FILE_TYPE" message
  || includes "FILE_TOO_LARGE" message.

(** The errors of the second test of [shouldRetry] ('Don't retry on
    authentication errors'). *)
Definition unauthorized (message : string) : bool :=
  includes "Invalid API key" message || includes "401" message.

Definition nonRetryable (message : string) : bool :=
  validationFailure message || unauthorized message.

(** The attempt settles with an [Error] that [shouldRetry] does not rule
    out. *)
Definition retryableFailure (r : BPS.Response) : Prop :=
  exists message,
    r = BPS.Rejected (BPS.ErrorObject message) /\ nonRetryable message = false.

(** The messages the repository's [handleError] gives to a 401 response and
    to an unreachable host. *)
Definition message401 : string :=
  "Invalid API key. Please check your credentials.".

Definition messageNetwork : string :=
  "Network error. Please check your internet connection.".


(** The object [processDocument] returns on success. *)
Definition successOutcome (result : string) : BPS.Outcome.t :=
  {| BPS.Outcome.success := true;
     BPS.Outcome.result := Some result;
     BPS.Outcome.error := None;
     BPS.Outcome.attempts := None |}.

(** How the attempt that ends the loop, attempt [n] settling as [r], fixes
    the completion of [processDocument]. *)
Definition decisive (s : BPS.t) (n : Z) (r : BPS.Response)
    (c : Completion BPS.Outcome.t) : Prop :=
  match r with
  | BPS.Resolved result => c = Return (successOutcome result)
  | BPS.Rejected (BPS.NotAnError typeError) => c = Throw typeError
  | BPS.Rejected (BPS.ErrorObject message) =>
      c = Return (BPS.afterLoop s (Some message))
      /\ (nonRetryable message = true \/ n = BPS.maxRetries s)
  end.

(** ** The local validity check of the admission gate *)

(** [document.validate()] and [document.canBeProcessed()] both pass. *)
Definition admissible (now : Z) (d : Doc.t) : bool :=
  Doc.isValid (Doc.validate d) && Doc.canProcess (Doc.canBeProcessed now d).

Definition queueFull (s : BPS.t) : bool :=
  BPS.batchSize s <=? Z.of_nat (List.length (BPS.processingQueue s)).

(** A caller adding documents one after the other, each at its own time. *)
Fixpoint addAll (s : BPS.t) (items : list (Z * Doc.t))
  : list (Completion BPS.AddResult.t) * BPS.t :=
  match items with
  | [] => ([], s)
  | (now, d) :: rest =>
      let '(c, s1) := BPS.addToBatch s now d in
      let '(cs, s2) := addAll s1 rest in
      (c :: cs, s2)
  end.

Definition returned {A : Type} (c : Completion A) : bool :=
  match c with Return _ => true | Throw _ => false end.

(** ** Bookkeeping of the scheduler *)

(** The limits read from the environment; no method assigns them. *)
Definition sameConfig (s s' : BPS.t) : Prop :=
  BPS.batchSize s' = BPS.batchSize s
  /\ BPS.maxWorkers s' = BPS.maxWorkers s
  /\ BPS.maxRetries s' = BPS.maxRetries s
  /\ BPS.maxRetryWaitTime s' = BPS.maxRetryWaitTime s
  /\ BPS.retryLoggingStyle s' = BPS.retryLoggingStyle s.

(** The [errors] list is there and has one entry per counted failure. *)
Definition errorsMatch (r : BPS.Summary.t) : Prop :=
  exists es, BPS.Summary.errors r = Some es
             /\ Z.of_nat (List.length es) = BPS.Summary.failed r.

(** [processDocument(document)] resolves to an object whose [success] is
    true. *)
Definition succeeds (s : BPS.t) (w : BPS.World) (d : Doc.t) : bool :=
  match fst (BPS.processDocument s w d) with
  | Return outcome => BPS.Outcome.success outcome
  | Throw _ => false
  end.

(** The [error] of the entry [processBatch] records when it does not. *)
Definition recordedError (s : BPS.t) (w : BPS.World) (d : Doc.t)
  : option string :=
  match fst (BPS.processDocument s w d) with
  | Return outcome => BPS.Outcome.error outcome
  | Throw message => Some message
  end.

(** From [before] to [after], [n] documents have been settled: the limits,
    the queue, [processed] and [message] are as they were, the two counters
    went up by [n] in total, the [errors] list follows the failure counter,
    and the two result lists grew by what was counted. *)
Definition progress (n : Z) (before after : BPS.Summary.t * BPS.t) : Prop :=
  let '(r, s) := before in
  let '(r', s') := after in
  sameConfig s s'
  /\ BPS.processingQueue s' = BPS.processingQueue s
  /\ BPS.Summary.processed r' = BPS.Summary.processed r
  /\ BPS.Summary.message r' = BPS.Summary.message r
  /\ BPS.Summary.completed r <= BPS.Summary.completed r'
  /\ BPS.Summary.failed r <= BPS.Summary.failed r'
  /\ BPS.Summary.completed r' + BPS.Summary.failed r'
     = BPS.Summary.completed r + BPS.Summary.failed r + n
  /\ (errorsMatch r -> errorsMatch r')
  /\ Z.of_nat (List.length (BPS.completedDocuments s'))
     = Z.of_nat (List.length (BPS.completedDocuments s))
       + (BPS.Summary.completed r' - BPS.Summary.completed r)
  /\ Z.of_nat (List.length (BPS.failedDocuments s'))
     = Z.of_nat (List.length (BPS.failedDocuments s))
       + (BPS.Summary.failed r' - BPS.Summary.failed r)
  /\ incl (BPS.completedDocuments s) (BPS.completedDocuments s')
  /\ incl (BPS.failedDocuments s) (BPS.failedDocuments s').

(** [document.markAsProcessing()] at the time the world dispatches it. *)
Definition dispatch (w : BPS.World) (d : Doc.t) : Doc.t :=
  Doc.markAsProcessing (BPS.dispatchedAt w d) d.

(** The state and the summary with which [processBatch] enters its loop over
    the chunks, and the batch it has withdrawn. *)
Definition withdrawn (s : BPS.t) : list Doc.t :=
  fst (splice0 (BPS.processingQueue s) (BPS.batchSize s)).

Definition afterWithdrawal (s : BPS.t) : BPS.Summary.t * BPS.t :=
  ({| BPS.Summary.processed := Z.of_nat (List.length (withdrawn s));
      BPS.Summary.completed := 0;
      BPS.Summary.failed := 0;
      BPS.Summary.message := None;
      BPS.Summary.errors := Some [] |},
   BPS.setQueue (snd (splice0 (BPS.processingQueue s) (BPS.batchSize s))) s).

(** Where [processBatch] leaves a dispatched document. *)
Definition filed (s : BPS.t) (w : BPS.World) (d : Doc.t) (s' : BPS.t) : Prop :=
  if succeeds s w d
  then In (Doc.markAsCompleted d) (BPS.completedDocuments s')
  else In (Doc.markAsFailed d) (BPS.failedDocuments s').

(** ** Invariants of a service *)

Definition configInvariant (s : BPS.t) : Prop :=
  BPS.batchSize s <> 0 /\ BPS.maxWorkers s <> 0
  /\ BPS.maxRetries s <> 0 /\ BPS.maxRetryWaitTime s <> 0.

Definition awaitsProcessing (d : Doc.t) : Prop :=
  Doc.processingStatus d = Doc.pending \/ Doc.processingStatus d = Doc.failed.

Definition queueInvariant (s : BPS.t) : Prop :=
  Z.of_nat (List.length (BPS.processingQueue s)) <= Z.max 0 (BPS.batchSize s)
  /\ NoDup (map Doc.id (BPS.processingQueue s)).

(** [d'] is [d] but for its processing state: status, attempts and time of
    the last attempt, which is what [resetProcessingState] clears. *)
Definition sameButState (d d' : Doc.t) : Prop :=
  Doc.resetProcessingState d' = Doc.resetProcessingState d.

(** ** Codes *)

(** The codes [canBeProcessed] can give. *)
Definition processingCodes : list string :=
  ["FILE_NOT_FOUND"; "FILE_TOO_LARGE"; "UNSUPPORTED_FILE_TYPE";
   "ALREADY_PROCESSING"; "ALREADY_COMPLETED"; "MAX_RETRIES_EXCEEDED";
   "RATE_LIMITED"; "INVALID_BATCH_SIZE"; "INVALID_MAX_WORKERS";
   "READY_TO_PROCESS"].

(** The codes with which [canAddToBatch] can come back. *)
Definition admissionCodes : list string :=
  ["VALIDATION_FAILED"; "FILE_TOO_LARGE"; "UNSUPPORTED_FILE_TYPE";
   "ALREADY_PROCESSING"; "ALREADY_COMPLETED"; "MAX_RETRIES_EXCEEDED";
   "RATE_LIMITED"; "BATCH_FULL"; "ALREADY_IN_QUEUE"; "READY_TO_ADD"].

(** The codes of [canBeProcessed] that tell of the processing state of the
    document, not of its file or its limits. *)
Definition stateCodes : list string :=
  ["ALREADY_PROCESSING"; "ALREADY_COMPLETED"; "MAX_RETRIES_EXCEEDED";
   "RATE_LIMITED"].

(** ** Growth of the result lists *)

(** From [s] to [s'] the result lists were only appended to, with completed
    documents on one side and failed ones on the other. *)
Definition appended (s s' : BPS.t) : Prop :=
  exists done lost,
    BPS.completedDocuments s' = (BPS.completedDocuments s ++ done)%list
    /\ BPS.failedDocuments s' = (BPS.failedDocuments s ++ lost)%list
    /\ Forall (fun d => Doc.processingStatus d = Doc.completed) done
    /\ Forall (fun d => Doc.processingStatus d = Doc.failed) lost.

(** From [s] to [s'] the documents with the ids [ids], each once, were
    appended to one or the other of the result lists. *)
Definition filedOnce (ids : list string) (s s' : BPS.t) : Prop :=
  exists done lost,
    BPS.completedDocuments s' = (BPS.completedDocuments s ++ done)%list
    /\ BPS.failedDocuments s' = (BPS.failedDocuments s ++ lost)%list
    /\ Permutation (map Doc.id (done ++ lost)) ids.

(** ** Traces *)

(** The number of sleeps in a trace of [processDocument], and the bound
    [cap * 1000] on each of them. *)
Definition sleeps (trace : list BPS.Event) : nat :=
  List.length (filter (fun e => negb (BPS.isExtract e)) trace).

Definition sleepWithin (bound : Q) (e : BPS.Event) : Prop :=
  match e with
  | BPS.Sleep ms => (ms <= bound)%Q
  | BPS.Extract _ => True
  end.

(** [n] calls, numbered from 1, with a pause after each of them but the
    last: [call 1; pause 1; call 2; ...; pause (n-1); call n]. *)
Definition alternating {E : Type} (call pause : Z -> E) (n : Z) : list E :=
  (flat_map (fun k => [call k; pause k]) (BPS.attemptRange (n - 1))
   ++ [call n])%list.

(** The sleep of [processDocument] after attempt [k] on [d]. *)
Definition backoff (s : BPS.t) (w : BPS.World) (d : Doc.t) (k : Z) : BPS.Event :=
  BPS.Sleep (BPS.calculateRetryWaitTime s k (BPS.random w d k)).

(** The sleep of [makeRequestWithRetry] after request [k]. *)
Definition requestDelay (c : DocumentAIRepository.Config) (k : Z)
  : DocumentAIRepository.Event :=
  DocumentAIRepository.Sleep (DocumentAIRepository.retryDelay c * 2 ^ (k - 1)).

(** The delays [makeRequestWithRetry] sleeps for, in order. *)
Definition delays (trace : list DocumentAIRepository.Event) : list Z :=
  flat_map (fun e => match e with
                     | DocumentAIRepository.Sleep ms => [ms]
                     | DocumentAIRepository.Post _ => []
                     end) trace.

(** The request settles with an error the repository retries on. *)
Definition retriedFailure (p : DocumentAIRepository.Posted) : Prop :=
  exists error,
    p = DocumentAIRepository.Failed error
    /\ DocumentAIRepository.shouldNotRetry error = false.

(** ** Sample data of the repository *)

Definition httpError (status : Z) : DocumentAIRepository.RequestError :=
  {| DocumentAIRepository.response :=
       Some {| DocumentAIRepository.status := status;
               DocumentAIRepository.data := Some None |};
     DocumentAIRepository.code := None;
     DocumentAIRepository.message :=
       "Request failed with status code " ++ showZ status |}.

Definition repositoryConfig (maxRetries retryDelay : Z)
  : DocumentAIRepository.Config :=
  {| DocumentAIRepository.maxRetries := maxRetries;
     DocumentAIRepository.retryDelay := retryDelay |}.

(** ** Sample data *)

Definition env_unset : BPS.ProcessEnv :=
  {| BPS.BATCH_SIZE := None; BPS.MAX_WORKERS := None;
     BPS.MAX_RETRIES := None; BPS.MAX_RETRY_WAIT_TIME := None;
     BPS.RETRY_LOGGING_STYLE := None |}.

Definition env_negative : BPS.ProcessEnv :=
  {| BPS.BATCH_SIZE := Some "-3"; BPS.MAX_WORKERS := Some "-1";
     BPS.MAX_RETRIES := None; BPS.MAX_RETRY_WAIT_TIME := None;
     BPS.RETRY_LOGGING_STYLE := None |}.

(** A service with the given limits and nothing queued or recorded. *)
Definition service (batchSize maxWorkers maxRetries maxRetryWaitTime : Z)
  : BPS.t :=
  {| BPS.batchSize := batchSize; BPS.maxWorkers := maxWorkers;
     BPS.maxRetries := maxRetries; BPS.maxRetryWaitTime := maxRetryWaitTime;
     BPS.retryLoggingStyle := "log_msg";
     BPS.activeWorkers := 0; BPS.processingQueue := [];
     BPS.completedDocuments := []; BPS.failedDocuments := [] |}.

(** The environment that yields [service 4 2 3 30]. *)
Definition env_three_retries : BPS.ProcessEnv :=
  {| BPS.BATCH_SIZE := None; BPS.MAX_WORKERS := None;
     BPS.MAX_RETRIES := Some "3"; BPS.MAX_RETRY_WAIT_TIME := None;
     BPS.RETRY_LOGGING_STYLE := None |}.

(** That service with [queue] waiting. *)
Definition serviceHolding (queue : list Doc.t) : BPS.t :=
  BPS.setQueue queue (service 4 2 3 30).

(** A PDF behind a URL, as [new Document(id, url)] builds it under the
    default environment. *)
Definition urlPdf (name : string) : FilePath.t :=
  {| FilePath.value := "https://example.com/" ++ name ++ ".pdf";
     FilePath.isUrl := true;
     FilePath.validateUrlError := None;
     FilePath.existsSync := false;
     FilePath.accessSyncOk := false;
     FilePath.statSize := None;
     FilePath.extension := ".pdf" |}.

Definition document (name : string) : Doc.t :=
  {| Doc.id := name;
     Doc.filePath := urlPdf name;
     Doc.mimeType := "application/pdf";
     Doc.size := None;
     Doc.batchSize := 4; Doc.maxWorkers := 2; Doc.maxRetries := 80;
     Doc.maxRetryWaitTime := 30; Doc.retryLoggingStyle := "log_msg";
     Doc.processingAttempts := 0;
     Doc.lastProcessingAttempt := None;
     Doc.processingStatus := Doc.pending |}.

(** The same document after one failed run that started at time 0. *)
Definition failedDocument (name : string) : Doc.t :=
  Doc.markAsFailed (Doc.markAsProcessing 0 (document name)).

(** A world in which attempt [n] on any document settles as [respond n];
    documents are dispatched at [clock] and settle in queue order. *)
Definition world (respond : Z -> BPS.Response) (clock : Z) : BPS.World :=
  {| BPS.extractionFunction := fun _ n => respond n;
     BPS.random := fun _ _ => (1 # 2)%Q;
     BPS.dispatchedAt := fun _ => clock;
     BPS.settledAt := fun _ => clock |}.

Definition alwaysSucceeds : Z -> BPS.Response :=
  fun _ => BPS.Resolved "{}".

Definition alwaysFails (message : string) : Z -> BPS.Response :=
  fun _ => BPS.Rejected (BPS.ErrorObject message).

(** Two retryable failures, then success. *)
Definition succeedsOnThird : Z -> BPS.Response :=
  fun n => if n <? 3 then BPS.Rejected (BPS.ErrorObject messageNetwork)
           else BPS.Resolved "{}".

(* ===================================================================== *)
(** * Properties                                                         *)
(* ===================================================================== *)

(** ** The builtins on examples *)

Example parseInt_examples :
  parseInt (Some "12") = Some 12 /\
  parseInt (Some "  -3px") = Some (-3) /\
  parseInt (Some "0x1F") = Some 31 /\
  parseInt (Some "abc") = None /\
  parseInt (Some "") = None /\
  parseInt None = None /\
  parseIntOr (Some "0") 4 = 4 /\
  parseIntOr (Some "-0") 4 = 4.
Proof. repeat split; reflexivity. Qed.

Example includes_examples :
  includes "401" "Request failed with status code 401" = true /\
  includes "401" "Network error. Please check your internet connection." = false /\
  includes "" "" = true.
Proof. repeat split; reflexivity. Qed.

Example slice_examples :
  slice [1; 2; 3; 4; 5] 2 4 = [3; 4] /\
  slice [1; 2; 3; 4; 5] 4 6 = [5] /\
  slice [1; 2; 3; 4; 5] 0 (-2) = [1; 2; 3] /\
  splice0 [1; 2; 3; 4; 5] 4 = ([1; 2; 3; 4], [5]) /\
  splice0 [1; 2; 3] (-1) = ([], [1; 2; 3]).
Proof. repeat split; reflexivity. Qed.

Lemma parseIntOr_nonzero v dflt : dflt <> 0 -> parseIntOr v dflt <> 0.
Proof.
  intros Hd. unfold parseIntOr.
  destruct (parseInt v) as [n|]; [|exact Hd].
  destruct (n =? 0) eqn:E; [exact Hd|].
  now apply Z.eqb_neq.
Qed.

Lemma parseIntOr_cases v dflt :
  (exists n, parseInt v = Some n /\ n <> 0 /\ parseIntOr v dflt = n)
  \/ ((parseInt v = None \/ parseInt v = Some 0) /\ parseIntOr v dflt = dflt).
Proof.
  unfold parseIntOr. destruct (parseInt v) as [n|].
  - destruct (n =? 0) eqn:E.
    + apply Z.eqb_eq in E. subst. right. split; [now right | reflexivity].
    + apply Z.eqb_neq in E. left. exists n. repeat split; auto.
  - right. split; [now left | reflexivity].
Qed.

(** ** Construction *)

Example constructor_defaults :
  BPS.constructor env_unset =
  Return {| BPS.batchSize := 4; BPS.maxWorkers := 2; BPS.maxRetries := 80;
            BPS.maxRetryWaitTime := 30; BPS.retryLoggingStyle := "log_msg";
            BPS.activeWorkers := 0; BPS.processingQueue := [];
            BPS.completedDocuments := []; BPS.failedDocuments := [] |}.
Proof. reflexivity. Qed.

(** C2, as stated, fails: with BATCH_SIZE=-3 and MAX_WORKERS=-1 in the
    environment the constructor returns a service whose [batchSize] and
    [maxWorkers] are negative; nothing is thrown. *)
Lemma constructor_accepts_negative_sizes :
  exists s, BPS.constructor env_negative = Return s
            /\ BPS.batchSize s = -3 /\ BPS.maxWorkers s = -1
            /\ (BPS.batchSize s <= 0 \/ BPS.maxWorkers s <= 0).
Proof.
  eexists. split; [reflexivity|].
  split; [reflexivity|]. split; [reflexivity|].
  left. vm_compute. discriminate.
Qed.

(** C2, amended: the constructor never throws.  [batchSize] is the integer
    parsed from BATCH_SIZE when that is a non-zero number, negative ones
    included, and 4 when the variable is unset, not a number or zero;
    likewise [maxWorkers] from MAX_WORKERS with default 2 (and [maxRetries],
    [maxRetryWaitTime] with defaults 80 and 30).  So no limit is ever 0, and
    the service starts with an empty queue and empty result lists. *)
Theorem constructor_total_with_fallbacks (env : BPS.ProcessEnv) :
  exists s,
    BPS.constructor env = Return s
    /\ ((exists n, parseInt (BPS.BATCH_SIZE env) = Some n /\ n <> 0
                   /\ BPS.batchSize s = n)
        \/ ((parseInt (BPS.BATCH_SIZE env) = None
             \/ parseInt (BPS.BATCH_SIZE env) = Some 0)
            /\ BPS.batchSize s = 4))
    /\ ((exists n, parseInt (BPS.MAX_WORKERS env) = Some n /\ n <> 0
                   /\ BPS.maxWorkers s = n)
        \/ ((parseInt (BPS.MAX_WORKERS env) = None
             \/ parseInt (BPS.MAX_WORKERS env) = Some 0)
            /\ BPS.maxWorkers s = 2))
    /\ BPS.maxRetries s = parseIntOr (BPS.MAX_RETRIES env) 80
    /\ BPS.maxRetryWaitTime s = parseIntOr (BPS.MAX_RETRY_WAIT_TIME env) 30
    /\ BPS.batchSize s <> 0 /\ BPS.maxWorkers s <> 0
    /\ BPS.maxRetries s <> 0 /\ BPS.maxRetryWaitTime s <> 0
    /\ BPS.processingQueue s = [] /\ BPS.completedDocuments s = []
    /\ BPS.failedDocuments s = [].
Proof.
  eexists. split; [reflexivity|]. cbn.
  split; [apply parseIntOr_cases|]. split; [apply parseIntOr_cases|].
  repeat split; try reflexivity; apply parseIntOr_nonzero; discriminate.
Qed.

(** ** Retry policy *)

Example classification_examples :
  unauthorized message401 = true /\
  nonRetryable message401 = true /\
  nonRetryable messageNetwork = false /\
  nonRetryable "Network error: Could not connect to API server." = false /\
  nonRetryable "Request timeout. Please try again." = false /\
  nonRetryable "Internal server error. Please try again later." = false /\
  nonRetryable "Access denied. Please check your API permissions." = false.
Proof. repeat split; reflexivity. Qed.

Lemma invocations_cons_extract n trace :
  BPS.invocations (BPS.Extract n :: trace) = S (BPS.invocations trace).
Proof. reflexivity. Qed.

Lemma invocations_app t1 t2 :
  BPS.invocations (t1 ++ t2) = (BPS.invocations t1 + BPS.invocations t2)%nat.
Proof.
  unfold BPS.invocations. now rewrite filter_app, length_app.
Qed.

Section RetryPolicy.

Variables (s : BPS.t) (w : BPS.World) (d : Doc.t).

Lemma attemptLoop_cons attempt later lastError :
  BPS.attemptLoop s w d (attempt :: later) lastError
  = match BPS.extractionFunction w d attempt with
    | BPS.Resolved result => (Return (successOutcome result), [BPS.Extract attempt])
    | BPS.Rejected (BPS.NotAnError typeError) =>
        (Throw typeError, [BPS.Extract attempt])
    | BPS.Rejected (BPS.ErrorObject message) =>
        if negb (BPS.shouldRetry s message attempt) then
          (Return (BPS.afterLoop s (Some message)), [BPS.Extract attempt])
        else
          let slept :=
            if attempt <? BPS.maxRetries s
            then [BPS.Sleep (BPS.calculateRetryWaitTime s attempt
                               (BPS.random w d attempt))]
            else [] in
          (fst (BPS.attemptLoop s w d later (Some message)),
           (BPS.Extract attempt
              :: slept ++ snd (BPS.attemptLoop s w d later (Some message)))%list)
    end.
Proof.
  cbn [BPS.attemptLoop].
  destruct (BPS.extractionFunction w d attempt) as [r|[m|te]]; try reflexivity.
  destruct (negb (BPS.shouldRetry s m attempt)); [reflexivity|].
  now destruct (BPS.attemptLoop s w d later (Some m)).
Qed.

Lemma shouldRetry_spec message attempt :
  BPS.shouldRetry s message attempt
  = negb (nonRetryable message) && (attempt <? BPS.maxRetries s).
Proof.
  unfold BPS.shouldRetry, nonRetryable, validationFailure, unauthorized.
  repeat match goal with
         | |- context [includes ?a ?b] => destruct (includes a b)
         end; reflexivity.
Qed.

(** The loop over attempts [a], .., [a + k] = [maxRetries]: it ends at some
    attempt [n] of that range, after [n - a + 1] calls, every earlier attempt
    having failed with a retryable error. *)
Lemma attemptLoop_spec : forall k a lastError,
  Z.of_nat (a + k) = BPS.maxRetries s ->
  let run := BPS.attemptLoop s w d (map Z.of_nat (seq a (S k))) lastError in
  exists n,
    (a <= n <= a + k)%nat
    /\ BPS.invocations (snd run) = S (n - a)
    /\ (forall j, (a <= j < n)%nat ->
          retryableFailure (BPS.extractionFunction w d (Z.of_nat j)))
    /\ decisive s (Z.of_nat n) (BPS.extractionFunction w d (Z.of_nat n))
                 (fst run).
Proof.
  induction k as [|k IH]; intros a lastError Hk run; subst run.
  - (* [a] is the last attempt of the range *)
    change (map Z.of_nat (seq a 1)) with [Z.of_nat a].
    rewrite attemptLoop_cons.
    destruct (BPS.extractionFunction w d (Z.of_nat a)) as [r|[m|te]] eqn:E.
    2: (rewrite shouldRetry_spec;
        replace (Z.of_nat a <? BPS.maxRetries s) with false
          by (symmetry; apply Z.ltb_ge; lia);
        rewrite andb_false_r; cbn [negb]).
    all: exists a; cbn [fst snd]; unfold decisive; rewrite E;
      repeat split; try lia; try reflexivity;
      now rewrite invocations_cons_extract, Nat.sub_diag.
  - change (map Z.of_nat (seq a (S (S k))))
      with (Z.of_nat a :: map Z.of_nat (seq (S a) (S k))).
    rewrite attemptLoop_cons.
    destruct (BPS.extractionFunction w d (Z.of_nat a)) as [r|[m|te]] eqn:E.
    1, 3: exists a; cbn [fst snd]; unfold decisive; rewrite E;
      repeat split; try lia; try reflexivity;
      now rewrite invocations_cons_extract, Nat.sub_diag.
    (* an Error with attempts left *)
    rewrite shouldRetry_spec.
    replace (Z.of_nat a <? BPS.maxRetries s) with true
      by (symmetry; apply Z.ltb_lt; lia).
    rewrite andb_true_r.
    destruct (nonRetryable m) eqn:NR; cbn [negb].
    + exists a. cbn [fst snd]. unfold decisive. rewrite E.
      repeat split; try lia; [|now left].
      now rewrite invocations_cons_extract, Nat.sub_diag.
    + destruct (IH (S a) (Some m)) as (n & Hn & Hinv & Hbefore & Hdec);
        [rewrite <- Hk; f_equal; lia|].
      destruct (BPS.attemptLoop s w d (map Z.of_nat (seq (S a) (S k)))
                  (Some m)) as [outcome trace] eqn:Eloop.
      cbn [fst snd] in *.
      exists n. repeat split; try lia.
      * rewrite invocations_cons_extract, invocations_app, Hinv.
        replace (BPS.invocations [BPS.Sleep _]) with 0%nat by reflexivity.
        lia.
      * intros j Hj. destruct (Nat.eq_dec j a) as [->|Hne].
        -- exists m. now split.
        -- apply Hbefore. lia.
      * exact Hdec.
Qed.

Lemma attemptRange_positive :
  1 <= BPS.maxRetries s ->
  BPS.attemptRange (BPS.maxRetries s)
  = map Z.of_nat (seq 1 (S (Z.to_nat (BPS.maxRetries s) - 1)))
  /\ Z.of_nat (1 + (Z.to_nat (BPS.maxRetries s) - 1)) = BPS.maxRetries s.
Proof.
  intros H. unfold BPS.attemptRange. split; [|lia].
  do 2 f_equal. lia.
Qed.

(** [processDocument] with [maxRetries >= 1]: it makes [n] calls for some
    [n] between 1 and [maxRetries]; the first [n - 1] fail with a retryable
    error and the [n]-th decides the completion. *)
Lemma processDocument_spec :
  1 <= BPS.maxRetries s ->
  let run := BPS.processDocument s w d in
  let n := Z.of_nat (BPS.invocations (snd run)) in
  1 <= n <= BPS.maxRetries s
  /\ (forall j, 1 <= j < n -> retryableFailure (BPS.extractionFunction w d j))
  /\ decisive s n (BPS.extractionFunction w d n) (fst run).
Proof.
  intros H run n. subst run n. unfold BPS.processDocument.
  destruct (attemptRange_positive H) as [-> Hk].
  destruct (attemptLoop_spec (Z.to_nat (BPS.maxRetries s) - 1) 1 None Hk)
    as (n & Hn & Hinv & Hbefore & Hdec).
  cbv zeta in Hinv, Hdec. rewrite Hinv.
  replace (Z.of_nat (S (n - 1))) with (Z.of_nat n) by lia.
  split; [lia|]. split; [|exact Hdec].
  intros j Hj. replace j with (Z.of_nat (Z.to_nat j)) by lia.
  apply Hbefore. lia.
Qed.

(** [processDocument] with [maxRetries <= 0]: the loop body never runs. *)
Lemma processDocument_no_attempt :
  BPS.maxRetries s <= 0 ->
  BPS.processDocument s w d = (Return (BPS.afterLoop s None), []).
Proof.
  intros H. unfold BPS.processDocument, BPS.attemptRange.
  replace (Z.to_nat (BPS.maxRetries s)) with 0%nat by lia. reflexivity.
Qed.

End RetryPolicy.

(** ** Wave scheduler *)

Section Chunks.

Context {A : Type}.
Variables (array : list A) (chunkSize : Z).

Lemma slice_chunk i :
  0 < chunkSize -> 0 <= i < Z.of_nat (List.length array) ->
  slice array i (i + chunkSize)
  = firstn (Z.to_nat chunkSize) (skipn (Z.to_nat i) array).
Proof.
  intros Hc Hi. unfold slice, relativeIndex.
  replace (i <? 0) with false by (symmetry; apply Z.ltb_ge; lia).
  replace (i + chunkSize <? 0) with false by (symmetry; apply Z.ltb_ge; lia).
  rewrite (Z.min_l i) by lia.
  destruct (Z.le_gt_cases (i + chunkSize) (Z.of_nat (List.length array))).
  - rewrite Z.min_l by lia. f_equal. lia.
  - rewrite Z.min_r by lia.
    rewrite !firstn_all2; try reflexivity; rewrite length_skipn; lia.
Qed.

Lemma chunkLoop_terminates : forall fuel i,
  0 < chunkSize -> 0 <= i ->
  Z.max 0 (Z.of_nat (List.length array) - i) < Z.of_nat fuel ->
  exists chunks,
    BPS.chunkLoop fuel array chunkSize i = Some chunks
    /\ List.concat chunks = skipn (Z.to_nat i) array
    /\ Forall (fun chunk => 1 <= Z.of_nat (List.length chunk) <= chunkSize)
              chunks.
Proof.
  induction fuel as [|fuel IH]; intros i Hc Hi Hfuel; [lia|].
  cbn [BPS.chunkLoop].
  destruct (i <? Z.of_nat (List.length array)) eqn:Hlt.
  - apply Z.ltb_lt in Hlt.
    destruct (IH (i + chunkSize)) as (chunks & -> & Hcat & Hall); try lia.
    eexists. split; [reflexivity|]. split.
    + cbn [List.concat]. rewrite Hcat, slice_chunk by lia.
      replace (Z.to_nat (i + chunkSize))
        with (Z.to_nat chunkSize + Z.to_nat i)%nat by lia.
      rewrite <- skipn_skipn. apply firstn_skipn.
    + constructor; [|exact Hall].
      rewrite slice_chunk, length_firstn, length_skipn by lia. lia.
  - apply Z.ltb_ge in Hlt. exists []. repeat split.
    + cbn. symmetry. apply skipn_all2. lia.
    + constructor.
Qed.

(** With a positive chunk size, [chunkArray] returns consecutive chunks of
    1 to [chunkSize] elements that make up the array. *)
Lemma chunkArray_positive :
  0 < chunkSize ->
  exists chunks,
    BPS.chunkArray array chunkSize = Some chunks
    /\ List.concat chunks = array
    /\ Forall (fun chunk => 1 <= Z.of_nat (List.length chunk) <= chunkSize)
              chunks.
Proof.
  intros Hc. unfold BPS.chunkArray.
  destruct (chunkLoop_terminates (S (List.length array)) 0) as (c & H1 & H2 & H3);
    try lia.
  exists c. repeat split; assumption.
Qed.

(** With a chunk size of 0 or less the index never passes the end of a
    non-empty array: the loop does not end, whatever the number of
    iterations allowed. *)
Lemma chunkLoop_diverges : forall fuel i,
  chunkSize <= 0 -> i < Z.of_nat (List.length array) ->
  BPS.chunkLoop fuel array chunkSize i = None.
Proof.
  induction fuel as [|fuel IH]; intros i Hc Hi; [reflexivity|].
  cbn [BPS.chunkLoop].
  replace (i <? Z.of_nat (List.length array)) with true
    by (symmetry; apply Z.ltb_lt; lia).
  rewrite IH by lia. reflexivity.
Qed.

Lemma chunkArray_returns chunks :
  BPS.chunkArray array chunkSize = Some chunks ->
  List.concat chunks = array /\ (array = [] \/ 0 < chunkSize).
Proof.
  intros H. destruct (Z.lt_ge_cases 0 chunkSize) as [Hc|Hc].
  - destruct (chunkArray_positive Hc) as (c & Hc1 & Hc2 & _).
    rewrite H in Hc1. injection Hc1 as <-. auto.
  - destruct (Nat.eq_dec (List.length array) 0) as [Hz|Hnz].
    + apply length_zero_iff_nil in Hz. rewrite Hz in *.
      cbn in H. injection H as <-. auto.
    + unfold BPS.chunkArray in H.
      rewrite chunkLoop_diverges in H by lia. discriminate.
Qed.

End Chunks.

Section Scheduler.

Variable w : BPS.World.

Lemma attemptLoop_fst_config s s' d :
  BPS.maxRetries s' = BPS.maxRetries s ->
  forall upcoming lastError,
    fst (BPS.attemptLoop s' w d upcoming lastError)
    = fst (BPS.attemptLoop s w d upcoming lastError).
Proof.
  intros H. induction upcoming as [|attempt later IH]; intros lastError.
  - cbn. unfold BPS.afterLoop. now rewrite H.
  - rewrite !attemptLoop_cons.
    destruct (BPS.extractionFunction w d attempt) as [r|[m|te]];
      try reflexivity.
    unfold BPS.shouldRetry, BPS.afterLoop. rewrite H.
    match goal with |- context [negb ?b] => destruct (negb b) end;
      [reflexivity|].
    cbn [fst]. apply IH.
Qed.

Lemma succeeds_config s s' d :
  sameConfig s s' -> succeeds s' w d = succeeds s w d.
Proof.
  intros (_ & _ & H & _). unfold succeeds, BPS.processDocument.
  rewrite H. now rewrite (attemptLoop_fst_config s s' d H).
Qed.

Lemma settle_eq r s d :
  BPS.settle w (r, s) d
  = if succeeds s w d
    then (BPS.Summary.countCompleted r,
          BPS.pushCompleted (Doc.markAsCompleted d) s)
    else (BPS.Summary.countFailed
            {| BPS.ErrorEntry.documentId := Doc.id d;
               BPS.ErrorEntry.error := recordedError s w d |} r,
          BPS.pushFailed (Doc.markAsFailed d) s).
Proof.
  unfold BPS.settle, succeeds, recordedError.
  destruct (fst (BPS.processDocument s w d)) as [o|m]; [|reflexivity].
  now destruct (BPS.Outcome.success o).
Qed.

Lemma sameConfig_refl s : sameConfig s s.
Proof. now repeat split. Qed.

Lemma sameConfig_trans s1 s2 s3 :
  sameConfig s1 s2 -> sameConfig s2 s3 -> sameConfig s1 s3.
Proof. unfold sameConfig. intuition congruence. Qed.

Lemma progress_refl acc : progress 0 acc acc.
Proof.
  destruct acc as [r s]. unfold progress.
  repeat split; try reflexivity; try lia; auto using incl_refl.
Qed.

Lemma progress_trans n m a b c :
  progress n a b -> progress m b c -> progress (n + m) a c.
Proof.
  destruct a as [r1 s1], b as [r2 s2], c as [r3 s3]. unfold progress.
  intros (C1 & Q1 & P1 & M1 & Lc1 & Lf1 & T1 & E1 & Nc1 & Nf1 & Ic1 & If1)
         (C2 & Q2 & P2 & M2 & Lc2 & Lf2 & T2 & E2 & Nc2 & Nf2 & Ic2 & If2).
  repeat split; try congruence; try lia; eauto using incl_tran.
  - destruct C1 as (? & ? & ? & ? & ?), C2 as (? & ? & ? & ? & ?); congruence.
  - destruct C1 as (? & ? & ? & ? & ?), C2 as (? & ? & ? & ? & ?); congruence.
  - destruct C1 as (? & ? & ? & ? & ?), C2 as (? & ? & ? & ? & ?); congruence.
  - destruct C1 as (? & ? & ? & ? & ?), C2 as (? & ? & ? & ? & ?); congruence.
  - destruct C1 as (? & ? & ? & ? & ?), C2 as (? & ? & ? & ? & ?); congruence.
Qed.

Lemma progress_settle acc d : progress 1 acc (BPS.settle w acc d).
Proof.
  destruct acc as [r s]. rewrite settle_eq.
  destruct (succeeds s w d); unfold progress; cbn.
  - repeat split; try lia; auto using incl_refl.
    + rewrite length_app. cbn. lia.
    + apply incl_appl, incl_refl.
  - repeat split; try lia; auto using incl_refl.
    + intros (es & Hes & Hlen). unfold errorsMatch. cbn. rewrite Hes. cbn.
      eexists. split; [reflexivity|]. rewrite length_app. cbn. lia.
    + rewrite length_app. cbn. lia.
    + apply incl_appl, incl_refl.
Qed.

Lemma progress_fold_settle ds : forall acc,
  progress (Z.of_nat (List.length ds)) acc (fold_left (BPS.settle w) ds acc).
Proof.
  induction ds as [|d ds IH]; intros acc.
  - apply progress_refl.
  - cbn [fold_left List.length].
    replace (Z.of_nat (S (List.length ds)))
      with (1 + Z.of_nat (List.length ds)) by lia.
    eapply progress_trans; [apply progress_settle | apply IH].
Qed.

Lemma insertBySettling_perm d ds :
  Permutation (BPS.insertBySettling w d ds) (d :: ds).
Proof.
  induction ds as [|d' ds IH]; cbn; [reflexivity|].
  destruct (BPS.settledAt w d' <? BPS.settledAt w d); [|reflexivity].
  rewrite IH. apply perm_swap.
Qed.

Lemma settlingOrder_perm ds : Permutation (BPS.settlingOrder w ds) ds.
Proof.
  induction ds as [|d ds IH]; cbn; [reflexivity|].
  rewrite insertBySettling_perm. now constructor.
Qed.

Lemma filed_config s s1 d s' :
  sameConfig s s1 -> filed s1 w d s' -> filed s w d s'.
Proof. intros H. unfold filed. now rewrite (succeeds_config s s1 d H). Qed.

Lemma filed_progress n r1 s1 r2 s2 s d :
  progress n (r1, s1) (r2, s2) -> filed s w d s1 -> filed s w d s2.
Proof.
  unfold progress, filed.
  intros (_ & _ & _ & _ & _ & _ & _ & _ & _ & _ & Ic & If).
  destruct (succeeds s w d); auto.
Qed.

Lemma progress_sameConfig n r1 s1 r2 s2 :
  progress n (r1, s1) (r2, s2) -> sameConfig s1 s2.
Proof. now intros (H & _). Qed.

Lemma filed_settle r s d : filed s w d (snd (BPS.settle w (r, s) d)).
Proof.
  rewrite settle_eq. unfold filed.
  destruct (succeeds s w d); cbn; apply in_or_app; right; now left.
Qed.

Lemma filed_fold_settle ds : forall acc d,
  In d ds -> filed (snd acc) w d (snd (fold_left (BPS.settle w) ds acc)).
Proof.
  induction ds as [|d0 ds IH]; intros [r s] d Hin; [destruct Hin|].
  cbn [fold_left snd].
  pose proof (progress_fold_settle ds (BPS.settle w (r, s) d0)) as Hrest.
  pose proof (progress_settle (r, s) d0) as Hstep.
  destruct (BPS.settle w (r, s) d0) as [r1 s1] eqn:E1.
  destruct (fold_left (BPS.settle w) ds (r1, s1)) as [r2 s2] eqn:E2.
  destruct Hin as [->|Hin].
  - eapply filed_progress; [exact Hrest|].
    pose proof (filed_settle r s d) as H. now rewrite E1 in H.
  - eapply filed_config; [exact (progress_sameConfig _ _ _ _ _ Hstep)|].
    specialize (IH (r1, s1) d Hin). now rewrite E2 in IH.
Qed.

Lemma progress_processChunk acc chunk :
  progress (Z.of_nat (List.length chunk)) acc (BPS.processChunk w acc chunk).
Proof.
  unfold BPS.processChunk.
  replace (List.length chunk)
    with (List.length
            (BPS.settlingOrder w
               (map (fun d => Doc.markAsProcessing (BPS.dispatchedAt w d) d)
                    chunk))).
  - apply progress_fold_settle.
  - rewrite (Permutation_length (settlingOrder_perm _)). apply length_map.
Qed.

Lemma filed_processChunk acc chunk d :
  In d chunk ->
  filed (snd acc) w (dispatch w d) (snd (BPS.processChunk w acc chunk)).
Proof.
  intros Hin. unfold BPS.processChunk. apply filed_fold_settle.
  eapply Permutation_in; [symmetry; apply settlingOrder_perm|].
  now apply (in_map
               (fun d0 => Doc.markAsProcessing (BPS.dispatchedAt w d0) d0)).
Qed.

Lemma progress_chunks chunks : forall acc,
  progress (Z.of_nat (List.length (List.concat chunks))) acc
           (fold_left (BPS.processChunk w) chunks acc).
Proof.
  induction chunks as [|chunk chunks IH]; intros acc.
  - apply progress_refl.
  - cbn [fold_left List.concat]. rewrite length_app, Nat2Z.inj_add.
    eapply progress_trans; [apply progress_processChunk | apply IH].
Qed.

Lemma filed_chunks chunks : forall acc d,
  In d (List.concat chunks) ->
  filed (snd acc) w (dispatch w d)
        (snd (fold_left (BPS.processChunk w) chunks acc)).
Proof.
  induction chunks as [|chunk chunks IH]; intros [r s] d Hin; [destruct Hin|].
  cbn [fold_left List.concat] in *.
  pose proof (progress_chunks chunks (BPS.processChunk w (r, s) chunk)) as Hrest.
  pose proof (progress_processChunk (r, s) chunk) as Hstep.
  destruct (BPS.processChunk w (r, s) chunk) as [r1 s1] eqn:E1.
  destruct (fold_left (BPS.processChunk w) chunks (r1, s1)) as [r2 s2] eqn:E2.
  apply in_app_or in Hin. destruct Hin as [Hin|Hin].
  - eapply filed_progress; [exact Hrest|].
    pose proof (filed_processChunk (r, s) chunk d Hin) as H.
    now rewrite E1 in H.
  - eapply filed_config; [exact (progress_sameConfig _ _ _ _ _ Hstep)|].
    specialize (IH (r1, s1) d Hin). now rewrite E2 in IH.
Qed.

Lemma queue_nonempty_length (s : BPS.t) :
  BPS.processingQueue s <> [] ->
  (List.length (BPS.processingQueue s) =? 0)%nat = false.
Proof.
  intros H. apply Nat.eqb_neq. intros Hz.
  now apply length_zero_iff_nil in Hz.
Qed.

(** [processBatch] on a non-empty queue, when it returns: the batch has been
    withdrawn and every document of it settled. *)
Lemma processBatch_nonempty s r s' :
  BPS.processingQueue s <> [] ->
  BPS.processBatch s w = Some (r, s') ->
  progress (Z.of_nat (List.length (withdrawn s))) (afterWithdrawal s) (r, s')
  /\ (forall d, In d (withdrawn s) -> filed s w (dispatch w d) s')
  /\ (withdrawn s = [] \/ 0 < BPS.maxWorkers s).
Proof.
  intros Hq H. unfold BPS.processBatch in H.
  rewrite (queue_nonempty_length s Hq) in H.
  unfold afterWithdrawal, withdrawn.
  destruct (splice0 (BPS.processingQueue s) (BPS.batchSize s))
    as [batch remaining] eqn:Es.
  cbn [fst snd].
  destruct (BPS.chunkArray batch (BPS.maxWorkers s)) as [chunks|] eqn:Ec;
    [|discriminate].
  injection H as H.
  destruct (chunkArray_returns batch (BPS.maxWorkers s) chunks Ec) as [Hcat Hpos].
  split; [|split; [|exact Hpos]].
  - pose proof (progress_chunks chunks
                  ({| BPS.Summary.processed := Z.of_nat (List.length batch);
                      BPS.Summary.completed := 0; BPS.Summary.failed := 0;
                      BPS.Summary.message := None;
                      BPS.Summary.errors := Some [] |},
                   BPS.setQueue remaining s)) as Hp.
    rewrite H, Hcat in Hp. exact Hp.
  - intros d Hin. rewrite <- Hcat in Hin.
    pose proof (filed_chunks chunks
                  ({| BPS.Summary.processed := Z.of_nat (List.length batch);
                      BPS.Summary.completed := 0; BPS.Summary.failed := 0;
                      BPS.Summary.message := None;
                      BPS.Summary.errors := Some [] |},
                   BPS.setQueue remaining s) d Hin) as Hf.
    rewrite H in Hf. cbn [snd] in Hf.
    eapply filed_config; [|exact Hf]. now repeat split.
Qed.

(** With a positive [maxWorkers], [processBatch] returns. *)
Lemma processBatch_returns s :
  0 < BPS.maxWorkers s -> exists r s', BPS.processBatch s w = Some (r, s').
Proof.
  intros Hw. unfold BPS.processBatch.
  destruct (List.length (BPS.processingQueue s) =? 0)%nat; [eauto|].
  destruct (splice0 (BPS.processingQueue s) (BPS.batchSize s))
    as [batch remaining].
  destruct (chunkArray_positive batch (BPS.maxWorkers s) Hw) as (chunks & -> & _).
  destruct (fold_left _ _ _) as [r s']. eauto.
Qed.

Lemma withdrawn_nonempty s d :
  In d (withdrawn s) -> BPS.processingQueue s <> [].
Proof.
  intros Hin Hq. unfold withdrawn, splice0 in Hin. rewrite Hq in Hin.
  cbn in Hin. now rewrite firstn_nil in Hin.
Qed.

(** With workers to run them, [processBatch] returns and has recorded every
    document it withdrew. *)
Lemma processBatch_files s d :
  0 < BPS.maxWorkers s -> In d (withdrawn s) ->
  exists r s',
    BPS.processBatch s w = Some (r, s') /\ filed s w (dispatch w d) s'.
Proof.
  intros Hworkers Hin.
  destruct (processBatch_returns s Hworkers) as (r & s' & Hrun).
  exists r, s'. split; [exact Hrun|].
  now apply (processBatch_nonempty s r s' (withdrawn_nonempty s d Hin) Hrun).
Qed.

End Scheduler.

(** ** Admission gate *)

Section Admission.

Variables (s : BPS.t) (now : Z) (d : Doc.t).

Lemma canAdd_eq :
  BPS.Decision.canAdd (BPS.canAddToBatch s now d)
  = admissible now d && negb (queueFull s) && negb (BPS.idInQueue s d).
Proof.
  unfold BPS.canAddToBatch, admissible, queueFull.
  destruct (Doc.isValid (Doc.validate d)); [|reflexivity].
  destruct (Doc.canProcess (Doc.canBeProcessed now d)); [|reflexivity].
  cbn [negb andb].
  destruct (BPS.batchSize s <=? _); [reflexivity|].
  now destruct (BPS.idInQueue s d).
Qed.

Lemma addToBatch_rejects :
  BPS.Decision.canAdd (BPS.canAddToBatch s now d) = false ->
  BPS.addToBatch s now d
  = (Throw ("Cannot add document to batch: "
            ++ BPS.Decision.reason (BPS.canAddToBatch s now d)), s).
Proof. intros H. unfold BPS.addToBatch. now rewrite H. Qed.

Lemma addToBatch_accepts :
  BPS.Decision.canAdd (BPS.canAddToBatch s now d) = true ->
  BPS.addToBatch s now d
  = (Return
       {| BPS.AddResult.success := true;
          BPS.AddResult.documentId := Doc.id d;
          BPS.AddResult.queuePosition :=
            Z.of_nat (List.length (BPS.processingQueue s)) + 1;
          BPS.AddResult.estimatedWaitTime :=
            ceilDiv ((Z.of_nat (List.length (BPS.processingQueue s)) + 1) * 5)
                    (BPS.maxWorkers s) |},
     BPS.setQueue (BPS.processingQueue s ++ [d]) s).
Proof.
  intros H. unfold BPS.addToBatch. rewrite H. cbn [negb].
  unfold BPS.calculateEstimatedWaitTime. cbn.
  rewrite length_app. cbn [List.length].
  replace (Z.of_nat (List.length (BPS.processingQueue s) + 1))
    with (Z.of_nat (List.length (BPS.processingQueue s)) + 1) by lia.
  reflexivity.
Qed.

Lemma code_inadmissible :
  admissible now d = false ->
  BPS.Decision.code (BPS.canAddToBatch s now d) = "VALIDATION_FAILED"
  \/ (Doc.canProcess (Doc.canBeProcessed now d) = false
      /\ BPS.Decision.code (BPS.canAddToBatch s now d)
         = Doc.code (Doc.canBeProcessed now d)
      /\ BPS.Decision.reason (BPS.canAddToBatch s now d)
         = Doc.reason (Doc.canBeProcessed now d)).
Proof.
  unfold admissible, BPS.canAddToBatch.
  destruct (Doc.isValid (Doc.validate d)); [|now left].
  destruct (Doc.canProcess (Doc.canBeProcessed now d)); [discriminate|].
  right. now repeat split.
Qed.

Lemma code_full :
  admissible now d = true -> queueFull s = true ->
  BPS.Decision.code (BPS.canAddToBatch s now d) = "BATCH_FULL"
  /\ BPS.Decision.reason (BPS.canAddToBatch s now d)
     = "Batch is full (" ++ showZ (BPS.batchSize s) ++ " documents)".
Proof.
  unfold admissible, queueFull, BPS.canAddToBatch.
  destruct (Doc.isValid (Doc.validate d)); [|discriminate].
  destruct (Doc.canProcess (Doc.canBeProcessed now d)); [|discriminate].
  intros _ ->. now split.
Qed.

Lemma code_duplicate :
  admissible now d = true -> queueFull s = false ->
  BPS.idInQueue s d = true ->
  BPS.Decision.code (BPS.canAddToBatch s now d) = "ALREADY_IN_QUEUE"
  /\ BPS.Decision.reason (BPS.canAddToBatch s now d)
     = "Document is already in processing queue".
Proof.
  unfold admissible, queueFull, BPS.canAddToBatch.
  destruct (Doc.isValid (Doc.validate d)); [|discriminate].
  destruct (Doc.canProcess (Doc.canBeProcessed now d)); [|discriminate].
  intros _ -> ->. now split.
Qed.

Lemma idInQueue_spec :
  BPS.idInQueue s d = true
  <-> In (Doc.id d) (map Doc.id (BPS.processingQueue s)).
Proof.
  unfold BPS.idInQueue. rewrite existsb_exists, in_map_iff.
  split; intros (x & H1 & H2).
  - apply String.eqb_eq in H2. eauto.
  - exists x. split; [exact H2|]. now apply String.eqb_eq.
Qed.

End Admission.

Lemma canBeProcessed_status now d :
  Doc.canProcess (Doc.canBeProcessed now d) = true -> awaitsProcessing d.
Proof.
  unfold awaitsProcessing, Doc.canBeProcessed.
  destruct (Doc.processingStatus d); auto; cbn [Doc.Status_eqb];
    repeat match goal with
           | |- context [if ?b then _ else _] => destruct b
           end; cbn; discriminate.
Qed.

Lemma admissible_status now d : admissible now d = true -> awaitsProcessing d.
Proof.
  unfold admissible. intros H. apply andb_prop in H.
  apply (canBeProcessed_status now), H.
Qed.

(** [batchSize] admissible documents with distinct ids fit into the room
    that is left, one after the other. *)
Lemma addAll_accepts : forall items s,
  Z.of_nat (List.length (BPS.processingQueue s) + List.length items)
  <= BPS.batchSize s ->
  NoDup (map Doc.id (BPS.processingQueue s ++ map snd items)) ->
  Forall (fun item => admissible (fst item) (snd item) = true) items ->
  forallb returned (fst (addAll s items)) = true
  /\ List.length (fst (addAll s items)) = List.length items
  /\ snd (addAll s items)
     = BPS.setQueue (BPS.processingQueue s ++ map snd items) s.
Proof.
  induction items as [|[t d] items IH]; intros s Hroom Hnd Hadm.
  - cbn. rewrite app_nil_r. repeat split. now destruct s.
  - cbn [addAll].
    assert (Hcan : BPS.Decision.canAdd (BPS.canAddToBatch s t d) = true).
    { rewrite canAdd_eq. inversion Hadm as [|? ? Ha _]; subst. cbn in Ha.
      rewrite Ha. unfold queueFull.
      replace (BPS.batchSize s <=? _) with false
        by (symmetry; apply Z.leb_gt; cbn [List.length] in Hroom; lia).
      destruct (BPS.idInQueue s d) eqn:Hdup; [|reflexivity].
      apply idInQueue_spec in Hdup. exfalso.
      cbn [map snd] in Hnd. rewrite map_app in Hnd. cbn [map] in Hnd.
      apply NoDup_remove_2 in Hnd. apply Hnd, in_or_app. now left. }
    rewrite (addToBatch_accepts s t d Hcan).
    set (s1 := BPS.setQueue (BPS.processingQueue s ++ [d]) s).
    destruct (IH s1) as (H1 & H2 & H3).
    + subst s1. cbn. rewrite length_app. cbn [List.length] in *. lia.
    + subst s1. cbn. rewrite <- app_assoc. exact Hnd.
    + now inversion Hadm.
    + destruct (addAll s1 items) as [cs s2]. cbn [fst snd] in *.
      repeat split.
      * cbn. exact H1.
      * cbn. now rewrite H2.
      * rewrite H3. subst s1. cbn. unfold BPS.setQueue. cbn.
        now rewrite <- app_assoc.
Qed.

(** ** Reachable states *)

Lemma constructor_configInvariant env s :
  BPS.constructor env = Return s -> configInvariant s /\ queueInvariant s.
Proof.
  intros H. injection H as <-. split.
  - repeat split; cbn; apply parseIntOr_nonzero; discriminate.
  - split; cbn; [lia | constructor].
Qed.

Lemma skipn_queueInvariant n s :
  queueInvariant s ->
  queueInvariant (BPS.setQueue (skipn n (BPS.processingQueue s)) s).
Proof.
  intros (Hlen & Hnd). unfold queueInvariant. cbn.
  rewrite <- (firstn_skipn n (BPS.processingQueue s)) in Hnd.
  rewrite map_app in Hnd. apply NoDup_app_remove_l in Hnd.
  split; [|exact Hnd].
  rewrite length_skipn. lia.
Qed.

Lemma called_id d d' : BPS.called d d' -> Doc.id d' = Doc.id d.
Proof. now destruct 1. Qed.

Lemma touched_invariant s s' :
  BPS.touched s s' ->
  sameConfig s s'
  /\ List.length (BPS.processingQueue s')
     = List.length (BPS.processingQueue s)
  /\ map Doc.id (BPS.processingQueue s') = map Doc.id (BPS.processingQueue s).
Proof.
  destruct 1 as [s before d after d' Hq Hcall
                | s before d after d' Hq Hcall
                | s before d after d' Hq Hcall];
    (split; [now repeat split|]); cbn; [|now split|now split].
  rewrite Hq, !length_app, !map_app. cbn.
  now rewrite (called_id d d' Hcall).
Qed.

Lemma sameConfig_configInvariant s s' :
  sameConfig s s' -> configInvariant s -> configInvariant s'.
Proof.
  unfold sameConfig, configInvariant.
  intros (-> & -> & -> & -> & _). exact (fun H => H).
Qed.

(** Whatever the callers do through the public methods, and whatever is
    done to the documents meanwhile, no limit is 0, the queue holds at most
    [batchSize] documents and no two of them have the same id. *)
Lemma reachable_invariant s :
  BPS.reachable s -> configInvariant s /\ queueInvariant s.
Proof.
  induction 1 as [env s Hnew
                 | s now d r s' _ [Hc Hq] Hadd
                 | s w r s' _ [Hc Hq] Hrun
                 | s _ [Hc Hq]
                 | s _ [Hc Hq]
                 | s s' _ [Hc Hq] Htouch].
  - now apply (constructor_configInvariant env).
  - destruct (BPS.Decision.canAdd (BPS.canAddToBatch s now d)) eqn:Hcan.
    + rewrite (addToBatch_accepts s now d Hcan) in Hadd.
      injection Hadd as _ <-. split; [exact Hc|].
      rewrite canAdd_eq in Hcan.
      apply andb_prop in Hcan. destruct Hcan as [Hcan Hdup].
      apply andb_prop in Hcan. destruct Hcan as [Hadm Hfull].
      destruct Hq as (Hlen & Hnd).
      unfold queueInvariant. cbn. split.
      * rewrite length_app. cbn [List.length]. unfold queueFull in Hfull.
        apply negb_true_iff, Z.leb_gt in Hfull. lia.
      * rewrite map_app. cbn [map].
        eapply Permutation_NoDup; [apply Permutation_cons_append|].
        constructor; [|exact Hnd].
        intros Hin. apply (idInQueue_spec s d) in Hin.
        rewrite Hin in Hdup. discriminate.
    + rewrite (addToBatch_rejects s now d Hcan) in Hadd.
      injection Hadd as _ <-. now split.
  - destruct (BPS.processingQueue s) as [|d0 q] eqn:Eq.
    + unfold BPS.processBatch in Hrun. rewrite Eq in Hrun. cbn in Hrun.
      injection Hrun as _ <-. now split.
    + assert (Hne : BPS.processingQueue s <> []) by (rewrite Eq; discriminate).
      destruct (processBatch_nonempty w s r s' Hne Hrun) as (Hp & _ & _).
      unfold afterWithdrawal, progress in Hp.
      destruct Hp as (Hcfg & Hqueue & _).
      split.
      * eapply sameConfig_configInvariant; [exact Hcfg|].
        exact Hc.
      * pose proof (skipn_queueInvariant
                      (Z.to_nat (Z.min (Z.max (BPS.batchSize s) 0)
                                   (Z.of_nat (List.length (BPS.processingQueue s)))))
                      s Hq) as Hinv.
        unfold queueInvariant in *. rewrite Hqueue.
        destruct Hcfg as (-> & _). exact Hinv.
  - split; [exact Hc | exact Hq].
  - split; [exact Hc|]. split; cbn; [lia | constructor].
  - destruct (touched_invariant s s' Htouch) as (Hcfg & Hlen & Hids).
    split; [exact (sameConfig_configInvariant s s' Hcfg Hc)|].
    destruct Hq as (Hbound & Hnd). destruct Hcfg as (Hb & _).
    unfold queueInvariant. rewrite Hlen, Hids, Hb. now split.
Qed.

(** Two documents added one after the other. *)
Lemma two_queued_reachable :
  BPS.reachable (serviceHolding [document "a"; document "b"]).
Proof.
  apply (BPS.reachable_addToBatch (serviceHolding [document "a"]) 0
           (document "b")
           (Return {| BPS.AddResult.success := true;
                      BPS.AddResult.documentId := "b";
                      BPS.AddResult.queuePosition := 2;
                      BPS.AddResult.estimatedWaitTime := 5 |})).
  - apply (BPS.reachable_addToBatch (service 4 2 3 30) 0 (document "a")
             (Return {| BPS.AddResult.success := true;
                        BPS.AddResult.documentId := "a";
                        BPS.AddResult.queuePosition := 1;
                        BPS.AddResult.estimatedWaitTime := 3 |})).
    + apply (BPS.reachable_new env_three_retries). reflexivity.
    + reflexivity.
  - reflexivity.
Qed.

(** A document added to the service and then, while it waits in the queue,
    dispatched at time 1000 and completed by another holder of the object. *)
Lemma completed_elsewhere_reachable :
  BPS.reachable
    (serviceHolding [Doc.markAsCompleted (Doc.markAsProcessing 1000 (document "a"))]).
Proof.
  apply (BPS.reachable_touched
           (serviceHolding [Doc.markAsProcessing 1000 (document "a")])).
  - apply (BPS.reachable_touched (serviceHolding [document "a"])).
    + apply (BPS.reachable_addToBatch (service 4 2 3 30) 0 (document "a")
               (Return {| BPS.AddResult.success := true;
                          BPS.AddResult.documentId := "a";
                          BPS.AddResult.queuePosition := 1;
                          BPS.AddResult.estimatedWaitTime := 3 |})).
      * apply (BPS.reachable_new env_three_retries). reflexivity.
      * reflexivity.
    + apply (BPS.touched_queue (serviceHolding [document "a"])
               [] (document "a") []); [reflexivity|].
      apply BPS.called_markAsProcessing.
  - apply (BPS.touched_queue
             (serviceHolding [Doc.markAsProcessing 1000 (document "a")])
             [] (Doc.markAsProcessing 1000 (document "a")) []);
      [reflexivity|].
    apply BPS.called_markAsCompleted.
Qed.

(** ** The outcome of the retry policy *)

(** C1, as stated, fails.  With [maxRetries = 3], a task that fails twice
    with a retryable error and then succeeds is called three times, and the
    object returned is [{success: true, result}], with no attempt count;
    a task that fails with a 401 is called once, and the object returned
    carries [attempts: 3]. *)
Lemma processDocument_attempt_count_not_reported :
  let s := service 4 2 3 30 in
  let d := document "a" in
  let third := BPS.processDocument s (world succeedsOnThird 0) d in
  let denied := BPS.processDocument s (world (alwaysFails message401) 0) d in
  (fst third = Return (successOutcome "{}")
   /\ BPS.invocations (snd third) = 3%nat
   /\ BPS.Outcome.attempts (successOutcome "{}") = None)
  /\ (fst denied = Return {| BPS.Outcome.success := false;
                            BPS.Outcome.result := None;
                            BPS.Outcome.error := Some message401;
                            BPS.Outcome.attempts := Some 3 |}
      /\ BPS.invocations (snd denied) = 1%nat).
Proof. vm_compute. repeat split. Qed.

(** C1, amended: with [maxRetries >= 1], [processDocument] calls the
    extraction function [n] times, [1 <= n <= maxRetries].  If the [n]-th
    call succeeds it returns [{success: true, result}], with no attempt
    count.  If the [n]-th call fails with an Error it returns
    [{success: false, error, attempts}] where [error] is the message of that
    last error ('Max retries exceeded' when the message is empty); when that
    error is a retryable one the attempts are exhausted: [n = maxRetries],
    and [attempts] is that number. *)
Theorem processDocument_outcome (s : BPS.t) (w : BPS.World) (d : Doc.t) :
  1 <= BPS.maxRetries s ->
  let run := BPS.processDocument s w d in
  let n := Z.of_nat (BPS.invocations (snd run)) in
  1 <= n <= BPS.maxRetries s
  /\ match fst run with
     | Return outcome =>
         if BPS.Outcome.success outcome then
           exists result,
             BPS.extractionFunction w d n = BPS.Resolved result
             /\ outcome = {| BPS.Outcome.success := true;
                             BPS.Outcome.result := Some result;
                             BPS.Outcome.error := None;
                             BPS.Outcome.attempts := None |}
         else
           exists message,
             BPS.extractionFunction w d n
             = BPS.Rejected (BPS.ErrorObject message)
             /\ BPS.Outcome.result outcome = None
             /\ BPS.Outcome.error outcome
                = Some (if String.eqb message "" then "Max retries exceeded"
                        else message)
             /\ (nonRetryable message = false ->
                 n = BPS.maxRetries s
                 /\ BPS.Outcome.attempts outcome = Some n)
     | Throw typeError =>
         BPS.extractionFunction w d n = BPS.Rejected (BPS.NotAnError typeError)
     end.
Proof.
  intros H run n.
  destruct (processDocument_spec s w d H) as (Hn & _ & Hdec).
  fold run in Hn, Hdec. fold n in Hn, Hdec.
  split; [exact Hn|].
  unfold decisive in Hdec.
  destruct (BPS.extractionFunction w d n) as [r|[m|te]].
  - rewrite Hdec. cbn. now exists r.
  - destruct Hdec as [-> Hlast]. cbn. exists m.
    repeat split.
    + now destruct m.
    + destruct Hlast as [Hnr|Hmax]; [congruence | exact Hmax].
    + destruct Hlast as [Hnr|Hmax]; [congruence | now rewrite Hmax].
  - now rewrite Hdec.
Qed.

Lemma processDocument_outcome_witness :
  let s := service 4 2 3 30 in
  let d := document "a" in
  let run := BPS.processDocument s (world (alwaysFails messageNetwork) 0) d in
  1 <= BPS.maxRetries s
  /\ 1 <= Z.of_nat (BPS.invocations (snd run)) <= 3.
Proof.
  split; [vm_compute; discriminate|].
  apply (processDocument_outcome (service 4 2 3 30)
           (world (alwaysFails messageNetwork) 0) (document "a")).
  vm_compute; discriminate.
Defined.




Example unauthorized_batch :
  let s := serviceHolding [document "a"; document "b"] in
  let w := world (alwaysFails message401) 1000 in
  exists r s',
    BPS.processBatch s w = Some (r, s')
    /\ BPS.Summary.processed r = 2 /\ BPS.Summary.completed r = 0
    /\ BPS.Summary.failed r = 2
    /\ BPS.Summary.errors r
       = Some [ {| BPS.ErrorEntry.documentId := "a";
                   BPS.ErrorEntry.error := Some message401 |};
                {| BPS.ErrorEntry.documentId := "b";
                   BPS.ErrorEntry.error := Some message401 |} ]
    /\ map Doc.processingStatus (BPS.failedDocuments s')
       = [Doc.failed; Doc.failed]
    /\ map Doc.processingAttempts (BPS.failedDocuments s') = [1; 1]
    /\ BPS.processingQueue s' = [].
Proof. do 2 eexists. split; [vm_compute; reflexivity|]. repeat split. Qed.



Example negative_maxRetries_no_attempt :
  BPS.processDocument (service 4 2 (-1) 30) (world alwaysSucceeds 0)
                      (document "a")
  = (Return {| BPS.Outcome.success := false;
               BPS.Outcome.result := None;
               BPS.Outcome.error := Some "Max retries exceeded";
               BPS.Outcome.attempts := Some (-1) |}, []).
Proof. reflexivity. Qed.

(** ** Admission: the claim *)

(** C3: [addToBatch] accepts a document exactly when it passes the local
    validity check ([validate()] and [canBeProcessed()]), the queue holds
    fewer than [batchSize] documents and none of them has its id.  When it
    rejects, it throws an Error whose message carries the reason of the first
    check that failed (the validation errors or the reason of
    [canBeProcessed], then 'Batch is full', then 'already in processing
    queue') and the service is left as it was.  When it accepts, the document
    goes to the end of the queue and the call returns the new queue length as
    position and [ceil(5 * position / maxWorkers)] as estimated wait.
    Starting from an empty queue, [batchSize] admissible documents with
    distinct ids are all accepted, in order, and one more admissible document
    is rejected because the batch is full. *)
Theorem addToBatch_admission (s : BPS.t) (now : Z) (d : Doc.t) :
  let decision := BPS.canAddToBatch s now d in
  let position := Z.of_nat (List.length (BPS.processingQueue s)) + 1 in
  BPS.Decision.canAdd decision
  = admissible now d && negb (queueFull s) && negb (BPS.idInQueue s d)
  /\ (BPS.Decision.canAdd decision = false ->
      BPS.addToBatch s now d
      = (Throw ("Cannot add document to batch: "
                ++ BPS.Decision.reason decision), s)
      /\ (admissible now d = false ->
          BPS.Decision.code decision = "VALIDATION_FAILED"
          \/ (Doc.canProcess (Doc.canBeProcessed now d) = false
              /\ BPS.Decision.code decision
                 = Doc.code (Doc.canBeProcessed now d)
              /\ BPS.Decision.reason decision
                 = Doc.reason (Doc.canBeProcessed now d)))
      /\ (admissible now d = true -> queueFull s = true ->
          BPS.Decision.code decision = "BATCH_FULL"
          /\ BPS.Decision.reason decision
             = "Batch is full (" ++ showZ (BPS.batchSize s) ++ " documents)")
      /\ (admissible now d = true -> queueFull s = false ->
          BPS.Decision.code decision = "ALREADY_IN_QUEUE"
          /\ BPS.Decision.reason decision
             = "Document is already in processing queue"))
  /\ (BPS.Decision.canAdd decision = true ->
      BPS.addToBatch s now d
      = (Return {| BPS.AddResult.success := true;
                   BPS.AddResult.documentId := Doc.id d;
                   BPS.AddResult.queuePosition := position;
                   BPS.AddResult.estimatedWaitTime :=
                     ceilDiv (position * 5) (BPS.maxWorkers s) |},
         BPS.setQueue (BPS.processingQueue s ++ [d]) s))
  /\ (forall items,
        BPS.processingQueue s = [] ->
        Z.of_nat (List.length items) = BPS.batchSize s ->
        NoDup (map Doc.id (map snd items)) ->
        Forall (fun item => admissible (fst item) (snd item) = true) items ->
        let filled := snd (addAll s items) in
        forallb returned (fst (addAll s items)) = true
        /\ List.length (fst (addAll s items)) = List.length items
        /\ filled = BPS.setQueue (map snd items) s
        /\ (admissible now d = true ->
            BPS.addToBatch filled now d
            = (Throw ("Cannot add document to batch: Batch is full ("
                      ++ showZ (BPS.batchSize s) ++ " documents)"), filled)
            /\ BPS.Decision.code (BPS.canAddToBatch filled now d)
               = "BATCH_FULL")).
Proof.
  intros decision position. subst decision position.
  split; [apply canAdd_eq|]. split; [|split].
  - intros Hrej. split; [now apply addToBatch_rejects|].
    split; [apply code_inadmissible|]. split; [apply code_full|].
    intros Hadm Hroom. apply code_duplicate; try assumption.
    rewrite canAdd_eq, Hadm, Hroom in Hrej. cbn in Hrej.
    now apply negb_false_iff in Hrej.
  - apply addToBatch_accepts.
  - intros items Hempty Hlen Hnd Hadm filled.
    destruct (addAll_accepts items s) as (H1 & H2 & H3).
    + rewrite Hempty. cbn. lia.
    + now rewrite Hempty.
    + exact Hadm.
    + rewrite Hempty in H3. cbn [app] in H3. subst filled.
      split; [exact H1|]. split; [exact H2|]. split; [exact H3|].
      intros Ha. rewrite H3.
      assert (Hfull : queueFull (BPS.setQueue (map snd items) s) = true).
      { unfold queueFull. cbn. rewrite length_map. apply Z.leb_le. lia. }
      destruct (code_full (BPS.setQueue (map snd items) s) now d Ha Hfull)
        as [Hcode Hreason].
      split; [|exact Hcode].
      rewrite addToBatch_rejects.
      * rewrite Hreason. reflexivity.
      * rewrite canAdd_eq, Ha, Hfull. reflexivity.
Qed.

Lemma addToBatch_admission_witness :
  let s := service 2 2 3 30 in
  let items := [(0, document "a"); (5, document "b")] in
  let filled := snd (addAll s items) in
  BPS.processingQueue filled = [document "a"; document "b"]
  /\ BPS.addToBatch filled 9 (document "c")
     = (Throw "Cannot add document to batch: Batch is full (2 documents)",
        filled).
Proof.
  pose proof (addToBatch_admission (service 2 2 3 30) 9 (document "c"))
    as (_ & _ & _ & Hfill).
  specialize (Hfill [(0, document "a"); (5, document "b")]).
  destruct Hfill as (_ & _ & Hqueue & Hmore).
  - reflexivity.
  - reflexivity.
  - cbn. repeat constructor; cbn; intuition discriminate.
  - repeat constructor.
  - split.
    + rewrite Hqueue. reflexivity.
    + apply Hmore. reflexivity.
Defined.

Example addToBatch_examples :
  let s := serviceHolding [document "a"] in
  BPS.addToBatch s 0 (document "b")
  = (Return {| BPS.AddResult.success := true;
               BPS.AddResult.documentId := "b";
               BPS.AddResult.queuePosition := 2;
               BPS.AddResult.estimatedWaitTime := 5 |},
     serviceHolding [document "a"; document "b"])
  /\ BPS.addToBatch s 0 (document "a")
     = (Throw "Cannot add document to batch: Document is already in processing queue", s)
  /\ BPS.addToBatch s 0 (document "")
     = (Throw "Cannot add document to batch: Document validation failed: Document ID is required", s)
  /\ BPS.addToBatch s 0 (Doc.markAsCompleted (document "z"))
     = (Throw "Cannot add document to batch: Document has already been processed successfully", s)
  /\ BPS.addToBatch s 1000 (failedDocument "z")
     = (Throw "Cannot add document to batch: Rate limit: must wait 29 more seconds before retry", s).
Proof. repeat split; reflexivity. Qed.

(** ** Backoff *)

Open Scope Q_scope.

(** C7: for an attempt [n >= 1] and a jitter of [j] milliseconds,
    [0 <= j < 1000] (the draw of [Math.random()] being [j / 1000]), the wait
    is [min(2^(n-1) * 1000 + j, cap * 1000)] milliseconds with
    [cap = min(maxRetryWaitTime, 30)] seconds, and so never exceeds [cap]
    seconds. *)
Theorem calculateRetryWaitTime_capped (s : BPS.t) (n : Z) (j : Q) :
  (1 <= n)%Z -> 0 <= j -> j < 1000 ->
  let cap := Z.min (BPS.maxRetryWaitTime s) 30 in
  let wait := BPS.calculateRetryWaitTime s n (j / 1000) in
  wait == Qmin (inject_Z (2 ^ (n - 1) * 1000) + j) (inject_Z (cap * 1000))
  /\ wait <= inject_Z (cap * 1000)
  /\ wait / 1000 <= inject_Z cap.
Proof.
  intros Hn Hj0 Hj1 cap wait. subst wait. unfold BPS.calculateRetryWaitTime.
  fold cap.
  assert (Hexp : 2 ^ (n - 1) * 1000 + j / 1000 * 1000
                 == inject_Z (2 ^ (n - 1) * 1000) + j).
  { rewrite inject_Z_mult, Zpower_Qpower by lia.
    change (inject_Z 2) with 2. change (inject_Z 1000) with 1000. field. }
  assert (Hcap : inject_Z cap * 1000 == inject_Z (cap * 1000)).
  { rewrite inject_Z_mult. reflexivity. }
  assert (Hmin : Qmin (2 ^ (n - 1) * 1000 + j / 1000 * 1000)
                      (inject_Z cap * 1000)
                 == Qmin (inject_Z (2 ^ (n - 1) * 1000) + j)
                         (inject_Z (cap * 1000))).
  { now rewrite Hexp, Hcap. }
  split; [exact Hmin|]. split.
  - rewrite <- Hcap. apply Q.le_min_r.
  - apply Qle_shift_div_r; [reflexivity|]. apply Q.le_min_r.
Qed.

Lemma calculateRetryWaitTime_capped_witness :
  BPS.calculateRetryWaitTime (service 4 2 3 30) 3 (500 / 1000)
  == Qmin (inject_Z (2 ^ (3 - 1) * 1000) + 500) (inject_Z (30 * 1000)).
Proof.
  apply (calculateRetryWaitTime_capped (service 4 2 3 30) 3 500).
  - vm_compute; discriminate.
  - vm_compute; discriminate.
  - vm_compute; reflexivity.
Defined.

Example calculateRetryWaitTime_examples :
  BPS.calculateRetryWaitTime (service 4 2 3 30) 1 (1 # 2) == 1500
  /\ BPS.calculateRetryWaitTime (service 4 2 3 30) 3 (1 # 2) == 4500
  /\ BPS.calculateRetryWaitTime (service 4 2 3 30) 6 (1 # 2) == 30000
  /\ BPS.calculateRetryWaitTime (service 4 2 3 10) 6 (1 # 2) == 10000.
Proof. repeat split; reflexivity. Qed.

(** ** Success rate *)

(** C4, as stated, fails: with one result and one error recorded the
    reported rate is 50, not 1/2, in both versions of the statistics. *)
Lemma successRate_is_a_percentage :
  let one := [("a", "{}")]%string in
  exists q q',
    Stats.successRate
      (DocumentAIService.getProcessingStats
         {| DocumentAIService.results := one;
            DocumentAIService.errors := one |}) = Num q
    /\ Stats.successRate
         (DocumentAIServiceGuarded.getProcessingStats
            {| DocumentAIServiceGuarded.results := one;
               DocumentAIServiceGuarded.errors := one |}) = Num q'
    /\ q == 50 /\ q' == 50 /\ ~ q == 1 / 2 /\ ~ q' == 1 / 2.
Proof.
  cbv zeta. do 2 eexists. split; [vm_compute; reflexivity|].
  split; [vm_compute; reflexivity|].
  repeat split; try reflexivity; intros H; vm_compute in H; discriminate.
Qed.

Example successRate_unguarded_on_empty :
  Stats.successRate
    (DocumentAIService.getProcessingStats
       {| DocumentAIService.results := []; DocumentAIService.errors := [] |})
  = NaN.
Proof. reflexivity. Qed.

(** C4, amended: with C results and F errors recorded, C + F > 0, both
    versions report the percentage [100 * C / (C + F)], a number between 0
    and 100; with nothing recorded, the version that tests the total reports
    0. *)
Theorem successRate_percentage
    (s : DocumentAIService.t) (g : DocumentAIServiceGuarded.t) :
  let C := Z.of_nat (List.length (DocumentAIService.results s)) in
  let F := Z.of_nat (List.length (DocumentAIService.errors s)) in
  let C' := Z.of_nat (List.length (DocumentAIServiceGuarded.results g)) in
  let F' := Z.of_nat (List.length (DocumentAIServiceGuarded.errors g)) in
  ((0 < C + F)%Z ->
   exists q,
     Stats.successRate (DocumentAIService.getProcessingStats s) = Num q
     /\ q == 100 * inject_Z C / inject_Z (C + F)
     /\ 0 <= q <= 100)
  /\ ((0 < C' + F')%Z ->
      exists q,
        Stats.successRate (DocumentAIServiceGuarded.getProcessingStats g)
        = Num q
        /\ q == 100 * inject_Z C' / inject_Z (C' + F')
        /\ 0 <= q <= 100)
  /\ ((C' + F' = 0)%Z ->
      Stats.successRate (DocumentAIServiceGuarded.getProcessingStats g)
      = Num 0).
Proof.
  intros C F C' F'.
  assert (Hrate : forall c f : Z, (0 <= c)%Z -> (0 <= f)%Z -> (0 < c + f)%Z ->
            exists q,
              mulConst (div (inject_Z c) (inject_Z (c + f))) 100 = Num q
              /\ q == 100 * inject_Z c / inject_Z (c + f)
              /\ 0 <= q <= 100).
  { intros c f Hc Hf Hcf. unfold div.
    assert (Hpos : 0 < inject_Z (c + f)).
    { change 0 with (inject_Z 0). rewrite <- Zlt_Qlt. exact Hcf. }
    destruct (Qeq_bool (inject_Z (c + f)) 0) eqn:E.
    - apply Qeq_bool_eq in E. rewrite E in Hpos. now apply Qlt_irrefl in Hpos.
    - cbn [mulConst]. eexists. split; [reflexivity|].
      split; [field; intros H; rewrite H in Hpos; now apply Qlt_irrefl in Hpos|].
      split.
      + apply Qmult_le_0_compat; [|discriminate].
        apply Qle_shift_div_l; [exact Hpos|].
        rewrite Qmult_0_l. change 0 with (inject_Z 0). rewrite <- Zle_Qle.
        exact Hc.
      + setoid_replace 100 with (1 * 100) at 2 by reflexivity.
        apply Qmult_le_compat_r; [|discriminate].
        apply Qle_shift_div_r; [exact Hpos|].
        rewrite Qmult_1_l. rewrite <- Zle_Qle. lia. }
  split; [|split].
  - intros H. unfold DocumentAIService.getProcessingStats. cbn.
    apply Hrate; subst C F; lia.
  - intros H. unfold DocumentAIServiceGuarded.getProcessingStats. cbn.
    fold C' F'. replace (0 <? C' + F')%Z with true
      by (symmetry; apply Z.ltb_lt; exact H).
    apply Hrate; subst C' F'; lia.
  - intros H. unfold DocumentAIServiceGuarded.getProcessingStats. cbn.
    fold C' F'. rewrite H. reflexivity.
Qed.

Lemma successRate_percentage_witness :
  exists q,
    Stats.successRate
      (DocumentAIService.getProcessingStats
         {| DocumentAIService.results := [("a", "{}"); ("b", "{}")]%string;
            DocumentAIService.errors := [("c", "timeout")]%string |}) = Num q
    /\ q == 100 * inject_Z 2 / inject_Z (2 + 1)
    /\ 0 <= q <= 100.
Proof.
  apply (successRate_percentage
           {| DocumentAIService.results := [("a", "{}"); ("b", "{}")]%string;
              DocumentAIService.errors := [("c", "timeout")]%string |}
           {| DocumentAIServiceGuarded.results := [];
              DocumentAIServiceGuarded.errors := [] |}).
  vm_compute; reflexivity.
Defined.

Close Scope Q_scope.

(** ** The summary of a batch *)

Lemma withdrawn_length s :
  0 < BPS.batchSize s ->
  Z.of_nat (List.length (withdrawn s))
  = Z.min (Z.of_nat (List.length (BPS.processingQueue s))) (BPS.batchSize s).
Proof.
  intros H. unfold withdrawn, splice0. cbn [fst].
  rewrite length_firstn. lia.
Qed.

Lemma reachable_nonempty_batchSize s :
  BPS.reachable s -> BPS.processingQueue s <> [] -> 0 < BPS.batchSize s.
Proof.
  intros Hreach Hq.
  destruct (reachable_invariant s Hreach) as (_ & Hlen & _).
  destruct (BPS.processingQueue s); [contradiction|].
  cbn [List.length] in Hlen. lia.
Qed.

(** C9: on a non-empty queue, with a positive [batchSize] (as it is whenever
    documents were queued through [addToBatch]), every summary [processBatch]
    returns has [processed = completed + failed], an [errors] list of
    [failed] entries, and [processed = min(queue length, batchSize)], the
    number of documents taken from the head of the queue, what was behind
    them staying queued; and with a positive [maxWorkers] it does return
    one. *)
Theorem processBatch_summary (s : BPS.t) (w : BPS.World) :
  BPS.processingQueue s <> [] ->
  0 < BPS.batchSize s \/ BPS.reachable s ->
  (0 < BPS.maxWorkers s -> exists r s', BPS.processBatch s w = Some (r, s'))
  /\ forall r s',
       BPS.processBatch s w = Some (r, s') ->
       BPS.Summary.processed r
       = BPS.Summary.completed r + BPS.Summary.failed r
       /\ (exists es, BPS.Summary.errors r = Some es
                      /\ Z.of_nat (List.length es) = BPS.Summary.failed r)
       /\ BPS.Summary.processed r
          = Z.min (Z.of_nat (List.length (BPS.processingQueue s)))
                  (BPS.batchSize s)
       /\ BPS.processingQueue s
          = (firstn (Z.to_nat (BPS.Summary.processed r))
                    (BPS.processingQueue s)
             ++ BPS.processingQueue s')%list.
Proof.
  intros Hq Hsize.
  assert (Hb : 0 < BPS.batchSize s).
  { destruct Hsize as [Hb|Hreach]; [exact Hb|].
    now apply reachable_nonempty_batchSize. }
  split; [apply processBatch_returns|].
  intros r s' Hrun.
  destruct (processBatch_nonempty w s r s' Hq Hrun) as (Hp & _ & _).
  unfold afterWithdrawal, progress in Hp. cbn in Hp.
  destruct Hp as (_ & Hqueue & Hproc & _ & _ & _ & Htotal & Herr & _).
  split; [lia|]. split.
  - apply Herr. exists []. now split.
  - rewrite Hproc, Hqueue. split; [now apply withdrawn_length|].
    unfold withdrawn, splice0. cbn [fst].
    rewrite length_firstn, Nat2Z.id.
    replace (Init.Nat.min _ (List.length (BPS.processingQueue s)))
      with (Z.to_nat (Z.min (Z.max (BPS.batchSize s) 0)
                        (Z.of_nat (List.length (BPS.processingQueue s)))))
      by lia.
    symmetry. apply firstn_skipn.
Qed.

Lemma processBatch_summary_witness :
  let s := serviceHolding [document "a"; document "b"; document "c";
                           document "d"; document "e"] in
  exists r s',
    BPS.processBatch s (world succeedsOnThird 0) = Some (r, s')
    /\ BPS.Summary.processed r
       = BPS.Summary.completed r + BPS.Summary.failed r
    /\ BPS.Summary.processed r = 4.
Proof.
  destruct (processBatch_summary
              (serviceHolding [document "a"; document "b"; document "c";
                               document "d"; document "e"])
              (world succeedsOnThird 0)) as (Hreturns & Hsummary).
  - discriminate.
  - left. reflexivity.
  - destruct Hreturns as (r & s' & Hrun); [reflexivity|].
    destruct (Hsummary r s' Hrun) as (Hsum & _ & Hmin & _).
    exists r, s'. split; [exact Hrun|]. split; [exact Hsum | exact Hmin].
Defined.

Example processBatch_five_documents :
  let s := serviceHolding [document "a"; document "b"; document "c";
                           document "d"; document "e"] in
  exists r s' r2 s2,
    BPS.processBatch s (world alwaysSucceeds 0) = Some (r, s')
    /\ BPS.Summary.processed r = 4 /\ BPS.Summary.completed r = 4
    /\ BPS.Summary.failed r = 0 /\ BPS.Summary.errors r = Some []
    /\ map Doc.id (BPS.processingQueue s') = ["e"]
    /\ map Doc.id (BPS.completedDocuments s') = ["a"; "b"; "c"; "d"]
    /\ BPS.chunkArray (withdrawn s) (BPS.maxWorkers s)
       = Some [[document "a"; document "b"]; [document "c"; document "d"]]
    /\ BPS.processBatch s' (world alwaysSucceeds 9) = Some (r2, s2)
    /\ BPS.Summary.processed r2 = 1
    /\ BPS.processingQueue s2 = [].
Proof.
  do 4 eexists. split; [vm_compute; reflexivity|].
  do 7 (split; [reflexivity|]).
  split; [vm_compute; reflexivity|]. split; reflexivity.
Qed.

(** With a negative [maxWorkers] the loop of [chunkArray] does not end on a
    non-empty batch. *)
Example processBatch_negative_workers :
  BPS.processBatch
    (BPS.setQueue [document "a"] (service 4 (-1) 3 30)) (world alwaysSucceeds 0)
  = None
  /\ forall fuel, BPS.chunkLoop fuel [document "a"] (-1) 0 = None.
Proof.
  split; [reflexivity|]. intros fuel. apply chunkLoop_diverges; cbn; lia.
Qed.

(** C10: on an empty queue [processBatch] returns
    [{processed: 0, completed: 0, failed: 0, message}], without an [errors]
    list, and the service (queue, completed and failed documents) is as it
    was. *)
Theorem processBatch_empty_queue (s : BPS.t) (w : BPS.World) :
  BPS.processingQueue s = [] ->
  BPS.processBatch s w
  = Some ({| BPS.Summary.processed := 0;
             BPS.Summary.completed := 0;
             BPS.Summary.failed := 0;
             BPS.Summary.message := Some "No documents in queue to process";
             BPS.Summary.errors := None |}, s).
Proof.
  intros H. unfold BPS.processBatch. rewrite H. reflexivity.
Qed.

Lemma processBatch_empty_queue_witness :
  let s := BPS.pushCompleted (Doc.markAsCompleted (document "a"))
             (service 4 2 3 30) in
  exists r,
    BPS.processBatch s (world alwaysSucceeds 0) = Some (r, s)
    /\ BPS.Summary.errors r = None.
Proof.
  eexists. split.
  - apply (processBatch_empty_queue
             (BPS.pushCompleted (Doc.markAsCompleted (document "a"))
                (service 4 2 3 30))
             (world alwaysSucceeds 0)).
    reflexivity.
  - reflexivity.
Defined.

(** ** Status transitions *)

Lemma completed_not_processable now d :
  Doc.processingStatus d = Doc.completed ->
  Doc.canProcess (Doc.canBeProcessed now d) = false.
Proof.
  intros H. destruct (Doc.canProcess (Doc.canBeProcessed now d)) eqn:E;
    [|reflexivity].
  destruct (canBeProcessed_status now d E); congruence.
Qed.

Lemma failed_checked_as_pending now d :
  Doc.processingStatus d = Doc.failed ->
  Doc.canBeProcessed now d = Doc.canBeProcessed now (Doc.setStatus Doc.pending d)
  /\ Doc.validate d = Doc.validate (Doc.setStatus Doc.pending d).
Proof.
  intros H. split; [|reflexivity].
  unfold Doc.canBeProcessed, Doc.sizeAbove. cbn. now rewrite H.
Qed.

(** C8, as stated, fails: a document that failed 30 seconds ago is accepted
    by [addToBatch] as it is, and the next [processBatch] takes it from
    'failed' through 'processing' to 'completed', its attempts counted on
    from 1 to 2. *)
Lemma failed_document_is_processed_again :
  let d := failedDocument "a" in
  let s := service 4 2 3 30 in
  Doc.processingStatus d = Doc.failed
  /\ Doc.processingAttempts d = 1
  /\ exists r s1 r2 s2,
       BPS.addToBatch s 30000 d = (Return r, s1)
       /\ BPS.processingQueue s1 = [d]
       /\ BPS.processBatch s1 (world alwaysSucceeds 30000) = Some (r2, s2)
       /\ BPS.completedDocuments s2
          = [Doc.markAsCompleted (Doc.markAsProcessing 30000 d)]
       /\ map Doc.processingStatus (BPS.completedDocuments s2)
          = [Doc.completed]
       /\ map Doc.processingAttempts (BPS.completedDocuments s2) = [2].
Proof.
  cbv zeta. split; [reflexivity|]. split; [reflexivity|].
  do 4 eexists. split; [vm_compute; reflexivity|].
  split; [reflexivity|]. split; [vm_compute; reflexivity|].
  repeat split.
Qed.

(** C8, amended: the status of a document is looked at when it is added,
    and only then.  [addToBatch] rejects a document that is completed at
    that time and leaves the service as it was.  'failed' is not terminal:
    [addToBatch] decides on a failed document as on the same document with
    status 'pending' (attempts and time of the last attempt kept), and
    dispatch moves it to 'processing' with one more attempt.  [processBatch]
    does not look at the status of what it withdraws: with [maxWorkers > 0]
    it returns, and every document it withdrew, whatever its status by then,
    has been marked as processing, with one more attempt, and is recorded as
    completed or as failed according to how its extraction went. *)
Theorem completed_is_refused_failed_is_retried
    (s : BPS.t) (w : BPS.World) (now : Z) (d : Doc.t) :
  (Doc.processingStatus d = Doc.completed ->
   BPS.Decision.canAdd (BPS.canAddToBatch s now d) = false
   /\ BPS.addToBatch s now d
      = (Throw ("Cannot add document to batch: "
                ++ BPS.Decision.reason (BPS.canAddToBatch s now d)), s)
   /\ (admissible now (Doc.setStatus Doc.pending d) = true ->
       BPS.Decision.code (BPS.canAddToBatch s now d) = "ALREADY_COMPLETED"))
  /\ (Doc.processingStatus d = Doc.failed ->
      BPS.canAddToBatch s now d
      = BPS.canAddToBatch s now (Doc.setStatus Doc.pending d)
      /\ forall t,
           Doc.processingStatus (Doc.markAsProcessing t d) = Doc.processing
           /\ Doc.processingAttempts (Doc.markAsProcessing t d)
              = Doc.processingAttempts d + 1)
  /\ (0 < BPS.maxWorkers s -> In d (withdrawn s) ->
      exists r s',
        BPS.processBatch s w = Some (r, s')
        /\ Doc.processingStatus (dispatch w d) = Doc.processing
        /\ Doc.processingAttempts (dispatch w d) = Doc.processingAttempts d + 1
        /\ if succeeds s w (dispatch w d)
           then In (Doc.markAsCompleted (dispatch w d))
                   (BPS.completedDocuments s')
           else In (Doc.markAsFailed (dispatch w d)) (BPS.failedDocuments s')).
Proof.
  split; [|split].
  - intros Hdone.
    assert (Hno : BPS.Decision.canAdd (BPS.canAddToBatch s now d) = false).
    { rewrite canAdd_eq. unfold admissible.
      rewrite (completed_not_processable now d Hdone).
      now rewrite andb_false_r. }
    split; [exact Hno|]. split; [now apply addToBatch_rejects|].
    unfold admissible, BPS.canAddToBatch.
    replace (Doc.validate (Doc.setStatus Doc.pending d)) with (Doc.validate d)
      by reflexivity.
    destruct (Doc.isValid (Doc.validate d)); [|discriminate].
    cbn [andb negb].
    rewrite (completed_not_processable now d Hdone). cbn [negb].
    unfold Doc.canBeProcessed, Doc.sizeAbove. cbn. rewrite Hdone. cbn.
    repeat match goal with
           | |- context [if ?b then _ else _] => destruct b
           end; cbn; try discriminate; reflexivity.
  - intros Hfailed. split; [|now split].
    destruct (failed_checked_as_pending now d Hfailed) as [Hc Hv].
    unfold BPS.canAddToBatch. rewrite <- Hc, <- Hv. reflexivity.
  - intros Hworkers Hin.
    destruct (processBatch_files w s d Hworkers Hin) as (r & s' & Hrun & Hfiled).
    exists r, s'. split; [exact Hrun|]. split; [reflexivity|].
    split; [reflexivity | exact Hfiled].
Qed.

Lemma completed_is_refused_failed_is_retried_witness :
  let w := world alwaysSucceeds 2000 in
  let d := Doc.markAsCompleted (Doc.markAsProcessing 1000 (document "a")) in
  BPS.addToBatch (service 4 2 3 30) 40000 d
  = (Throw "Cannot add document to batch: Document has already been processed successfully",
     service 4 2 3 30)
  /\ exists r s',
       BPS.processBatch (serviceHolding [d]) w = Some (r, s')
       /\ Doc.processingStatus (dispatch w d) = Doc.processing
       /\ Doc.processingAttempts (dispatch w d) = 1 + 1
       /\ In (Doc.markAsCompleted (dispatch w d)) (BPS.completedDocuments s').
Proof.
  split.
  - refine (proj1 (proj2 (proj1 (completed_is_refused_failed_is_retried
                                   (service 4 2 3 30) (world alwaysSucceeds 2000)
                                   40000 _) _))).
    reflexivity.
  - refine (proj2 (proj2 (completed_is_refused_failed_is_retried
                            (serviceHolding _) (world alwaysSucceeds 2000) 0 _))
                  _ _).
    + vm_compute; reflexivity.
    + left. reflexivity.
Defined.

(** The queue holds the caller's objects.  A document is added to a service
    and, while it waits there, is dispatched and completed through another
    service it was added to as well; the first service then dispatches it
    again: from 'completed' to 'processing' and to 'completed', with a second
    attempt. *)
Example shared_document_is_dispatched_again :
  let d := document "a" in
  let elsewhere := Doc.markAsCompleted (Doc.markAsProcessing 1000 d) in
  let s := serviceHolding [elsewhere] in
  BPS.reachable s
  /\ map Doc.processingStatus (BPS.processingQueue s) = [Doc.completed]
  /\ exists r s',
       BPS.processBatch s (world alwaysSucceeds 2000) = Some (r, s')
       /\ BPS.Summary.processed r = 1
       /\ BPS.Summary.completed r = 1
       /\ map Doc.processingStatus (BPS.completedDocuments s') = [Doc.completed]
       /\ map Doc.processingAttempts (BPS.completedDocuments s') = [2].
Proof.
  cbv zeta. split; [|split; [reflexivity|]].
  - exact completed_elsewhere_reachable.
  - do 2 eexists. split; [vm_compute; reflexivity|]. repeat split.
Qed.

(* ===================================================================== *)
(** * Further properties of the modelled code                            *)
(* ===================================================================== *)

(** ** Ceiling division *)

Lemma ceilDiv_spec a b :
  0 < b -> b * (ceilDiv a b - 1) < a <= b * ceilDiv a b.
Proof.
  intros Hb. unfold ceilDiv.
  pose proof (Z.mul_div_le (- a) b Hb).
  pose proof (Z.mul_succ_div_gt (- a) b Hb).
  lia.
Qed.

Lemma ceilDiv_unique a b q :
  0 < b -> b * (q - 1) < a <= b * q -> ceilDiv a b = q.
Proof.
  intros Hb Hq. pose proof (ceilDiv_spec a b Hb). nia.
Qed.

(** ** Chunks *)

Section ChunkShape.

Context {A : Type}.
Variables (array : list A) (chunkSize : Z).
Hypothesis chunkSize_positive : 0 < chunkSize.

Lemma chunkLoop_shape : forall fuel i,
  0 <= i -> i < Z.of_nat (List.length array) + chunkSize ->
  Z.max 0 (Z.of_nat (List.length array) - i) < Z.of_nat fuel ->
  exists chunks,
    BPS.chunkLoop fuel array chunkSize i = Some chunks
    /\ Z.of_nat (List.length chunks)
       = ceilDiv (Z.of_nat (List.length array) - i) chunkSize
    /\ forall k, (S k < List.length chunks)%nat ->
                 Z.of_nat (List.length (nth k chunks [])) = chunkSize.
Proof.
  induction fuel as [|fuel IH]; intros i Hi Hnear Hfuel; [lia|].
  cbn [BPS.chunkLoop].
  destruct (i <? Z.of_nat (List.length array)) eqn:Hlt.
  - apply Z.ltb_lt in Hlt.
    destruct (IH (i + chunkSize)) as (chunks & -> & Hcount & Hsizes); try lia.
    eexists. split; [reflexivity|]. split.
    + cbn [List.length]. rewrite Nat2Z.inj_succ, Hcount.
      symmetry. apply ceilDiv_unique; [exact chunkSize_positive|].
      pose proof (ceilDiv_spec (Z.of_nat (List.length array) - (i + chunkSize))
                    chunkSize chunkSize_positive).
      nia.
    + intros k Hk. cbn [List.length] in Hk. destruct k as [|k].
      * cbn [nth]. rewrite slice_chunk by lia.
        rewrite length_firstn, length_skipn.
        assert (0 < ceilDiv (Z.of_nat (List.length array) - (i + chunkSize))
                      chunkSize) by lia.
        pose proof (ceilDiv_spec (Z.of_nat (List.length array) - (i + chunkSize))
                      chunkSize chunkSize_positive).
        nia.
      * cbn [nth]. apply Hsizes. lia.
  - apply Z.ltb_ge in Hlt. exists []. split; [reflexivity|]. split.
    + cbn [List.length]. symmetry.
      apply ceilDiv_unique; [exact chunkSize_positive|]. lia.
    + intros k Hk. cbn in Hk. lia.
Qed.

End ChunkShape.

(** X1: for a positive chunk size [chunkArray] returns the array cut into
    consecutive chunks: their concatenation is the array, there are
    [ceil(length / chunkSize)] of them, none is empty or longer than
    [chunkSize], and all but the last have exactly [chunkSize] elements. *)
Theorem chunkArray_partition {A : Type} (array : list A) (chunkSize : Z) :
  0 < chunkSize ->
  exists chunks,
    BPS.chunkArray array chunkSize = Some chunks
    /\ List.concat chunks = array
    /\ Z.of_nat (List.length chunks)
       = ceilDiv (Z.of_nat (List.length array)) chunkSize
    /\ Forall (fun chunk => 1 <= Z.of_nat (List.length chunk) <= chunkSize)
              chunks
    /\ forall k, (S k < List.length chunks)%nat ->
                 Z.of_nat (List.length (nth k chunks [])) = chunkSize.
Proof.
  intros Hc.
  destruct (chunkArray_positive array chunkSize Hc) as (chunks & Hrun & Hcat & Hall).
  destruct (chunkLoop_shape array chunkSize Hc (S (List.length array)) 0)
    as (chunks' & Hrun' & Hcount & Hsizes); try lia.
  unfold BPS.chunkArray in Hrun. rewrite Hrun in Hrun'. injection Hrun' as <-.
  exists chunks. unfold BPS.chunkArray.
  rewrite Z.sub_0_r in Hcount. repeat split; assumption.
Qed.

Lemma chunkArray_partition_witness :
  exists chunks,
    BPS.chunkArray [1; 2; 3; 4; 5] 2 = Some chunks
    /\ List.concat chunks = [1; 2; 3; 4; 5]
    /\ Z.of_nat (List.length chunks) = ceilDiv 5 2.
Proof.
  destruct (chunkArray_partition [1; 2; 3; 4; 5] 2) as (c & H1 & H2 & H3 & _).
  - reflexivity.
  - exists c. repeat split; assumption.
Defined.

(** X2: with [maxWorkers <= 0], a positive [batchSize] and a non-empty queue,
    [processBatch] never returns: the index of the loop in [chunkArray]
    never passes the end of the withdrawn batch, however many iterations it
    is given. *)
Theorem processBatch_hangs_without_workers (s : BPS.t) (w : BPS.World) :
  BPS.processingQueue s <> [] ->
  0 < BPS.batchSize s ->
  BPS.maxWorkers s <= 0 ->
  BPS.processBatch s w = None
  /\ forall fuel,
       BPS.chunkLoop fuel (withdrawn s) (BPS.maxWorkers s) 0 = None.
Proof.
  intros Hq Hb Hw.
  assert (Hlen : 0 < Z.of_nat (List.length (withdrawn s))).
  { rewrite (withdrawn_length s Hb).
    destruct (BPS.processingQueue s); [contradiction|]. cbn [List.length]. lia. }
  split.
  - unfold BPS.processBatch. rewrite (queue_nonempty_length s Hq).
    fold (withdrawn s).
    destruct (splice0 (BPS.processingQueue s) (BPS.batchSize s))
      as [batch remaining] eqn:Es.
    assert (Hb' : batch = withdrawn s) by (unfold withdrawn; now rewrite Es).
    unfold BPS.chunkArray. rewrite Hb'.
    now rewrite chunkLoop_diverges.
  - intros fuel. now apply chunkLoop_diverges.
Qed.

Lemma processBatch_hangs_without_workers_witness :
  BPS.processBatch (BPS.setQueue [document "a"] (service 4 (-1) 3 30))
                   (world alwaysSucceeds 0) = None.
Proof.
  apply (processBatch_hangs_without_workers
           (BPS.setQueue [document "a"] (service 4 (-1) 3 30))
           (world alwaysSucceeds 0)).
  - discriminate.
  - reflexivity.
  - vm_compute; discriminate.
Defined.

(** ** Estimates and statistics *)

(** X3: with a positive [maxWorkers] the estimated wait is the least number
    of seconds [e] with [e * maxWorkers >= 5 * queue length]; it is never
    negative and does not decrease when the queue grows. *)
Theorem calculateEstimatedWaitTime_bounds (s : BPS.t) (d : Doc.t) :
  0 < BPS.maxWorkers s ->
  let n := Z.of_nat (List.length (BPS.processingQueue s)) in
  let e := BPS.calculateEstimatedWaitTime s in
  0 <= e
  /\ 5 * n <= e * BPS.maxWorkers s
  /\ (e - 1) * BPS.maxWorkers s < 5 * n
  /\ e <= BPS.calculateEstimatedWaitTime
            (BPS.setQueue (BPS.processingQueue s ++ [d])%list s).
Proof.
  intros Hw n e. subst e. unfold BPS.calculateEstimatedWaitTime.
  fold n. unfold BPS.setQueue.
  cbn [BPS.processingQueue BPS.maxWorkers].
  rewrite length_app. cbn [List.length].
  replace (Z.of_nat (List.length (BPS.processingQueue s) + 1)) with (n + 1)
    by (subst n; lia).
  pose proof (ceilDiv_spec (n * 5) (BPS.maxWorkers s) Hw).
  pose proof (ceilDiv_spec ((n + 1) * 5) (BPS.maxWorkers s) Hw).
  assert (0 <= n) by (subst n; lia).
  repeat split; nia.
Qed.

Lemma calculateEstimatedWaitTime_bounds_witness :
  5 * 3 <= BPS.calculateEstimatedWaitTime
             (serviceHolding [document "a"; document "b"; document "c"]) * 2.
Proof.
  apply (calculateEstimatedWaitTime_bounds
           (serviceHolding [document "a"; document "b"; document "c"])
           (document "d")).
  reflexivity.
Defined.

(** X4: [getBatchStats] and the admission gate agree on room: the reported
    [availableSlots] is positive exactly when the gate does not find the
    batch full, in which case [size + availableSlots = maxSize]; when the
    batch is full it is 0. *)
Theorem getBatchStats_availableSlots (s : BPS.t) :
  let q := BPS.BatchStats.queue (BPS.getBatchStats s) in
  (0 < BPS.BatchStats.availableSlots q <-> queueFull s = false)
  /\ (queueFull s = false ->
      BPS.BatchStats.size q + BPS.BatchStats.availableSlots q
      = BPS.BatchStats.maxSize q)
  /\ (queueFull s = true -> BPS.BatchStats.availableSlots q = 0).
Proof.
  cbn. unfold queueFull. split; [|split].
  - rewrite Z.leb_gt. lia.
  - rewrite Z.leb_gt. lia.
  - rewrite Z.leb_le. lia.
Qed.

(** ** Validation of a document *)

Lemma length_when (c : bool) (x : string) :
  List.length (if c then [x] else []) = if c then 1%nat else 0%nat.
Proof. now destruct c. Qed.

Lemma filePath_valid_eq (p : FilePath.t) :
  FilePath.isValid (FilePath.validateForProcessing p)
  = (if FilePath.isUrl p
     then match FilePath.validateUrlError p with
          | Some _ => false
          | None => true
          end
     else FilePath.exists_ p && FilePath.isReadable p
          && FilePath.isWithinSizeLimit p)
    && FilePath.isSupportedType p.
Proof.
  unfold FilePath.validateForProcessing. cbn [FilePath.isValid].
  rewrite !length_app, !length_when.
  destruct (FilePath.isUrl p).
  - destruct (FilePath.validateUrlError p);
      destruct (FilePath.isSupportedType p); reflexivity.
  - rewrite !length_app, !length_when.
    destruct (FilePath.exists_ p), (FilePath.isReadable p),
      (FilePath.isWithinSizeLimit p), (FilePath.isSupportedType p);
      reflexivity.
Qed.

Lemma filePath_errors_when_invalid (p : FilePath.t) :
  FilePath.isValid (FilePath.validateForProcessing p) = false ->
  FilePath.errors (FilePath.validateForProcessing p) <> [].
Proof.
  unfold FilePath.validateForProcessing. cbn [FilePath.isValid FilePath.errors].
  intros H Hnil. rewrite Hnil in H. discriminate.
Qed.

Lemma validate_valid_eq (d : Doc.t) :
  Doc.isValid (Doc.validate d)
  = negb (String.eqb (Doc.id d) "")
    && negb (String.eqb (Doc.mimeType d) "")
    && match Doc.size d with Some n => 0 <=? n | None => true end
    && (0 <? Doc.batchSize d) && (0 <? Doc.maxWorkers d)
    && (0 <=? Doc.maxRetries d) && (0 <=? Doc.maxRetryWaitTime d)
    && FilePath.isValid (FilePath.validateForProcessing (Doc.filePath d)).
Proof.
  unfold Doc.validate. cbn [Doc.isValid].
  rewrite !length_app, !length_when.
  assert (Hfile :
    List.length
      (if negb (FilePath.isValid (FilePath.validateForProcessing (Doc.filePath d)))
       then FilePath.errors (FilePath.validateForProcessing (Doc.filePath d))
       else [])
    = 0%nat
    <-> FilePath.isValid (FilePath.validateForProcessing (Doc.filePath d)) = true).
  { destruct (FilePath.isValid (FilePath.validateForProcessing (Doc.filePath d)))
      eqn:E; cbn [negb].
    - now split.
    - split; [|discriminate]. intros H. apply length_zero_iff_nil in H.
      now apply filePath_errors_when_invalid in H. }
  assert (Hsize :
    List.length
      match Doc.size d with
      | Some n => if negb (n =? 0) && (n <? 0)
                  then ["File size cannot be negative"] else []
      | None => []
      end
    = if match Doc.size d with Some n => 0 <=? n | None => true end
      then 0%nat else 1%nat).
  { destruct (Doc.size d) as [n|]; [|reflexivity].
    destruct (Z.leb_spec 0 n), (Z.ltb_spec n 0), (Z.eqb_spec n 0);
      cbn; try reflexivity; lia. }
  rewrite Hsize.
  replace (Doc.batchSize d <=? 0) with (negb (0 <? Doc.batchSize d))
    by (now rewrite Z.leb_antisym).
  replace (Doc.maxWorkers d <=? 0) with (negb (0 <? Doc.maxWorkers d))
    by (now rewrite Z.leb_antisym).
  replace (Doc.maxRetries d <? 0) with (negb (0 <=? Doc.maxRetries d))
    by (now rewrite Z.ltb_antisym).
  replace (Doc.maxRetryWaitTime d <? 0)
    with (negb (0 <=? Doc.maxRetryWaitTime d))
    by (now rewrite Z.ltb_antisym).
  destruct (FilePath.isValid (FilePath.validateForProcessing (Doc.filePath d)))
    eqn:Efile.
  - cbn [negb]. rewrite Nat.add_0_r.
    destruct (String.eqb (Doc.id d) ""), (String.eqb (Doc.mimeType d) ""),
      (match Doc.size d with Some n => 0 <=? n | None => true end),
      (0 <? Doc.batchSize d), (0 <? Doc.maxWorkers d),
      (0 <=? Doc.maxRetries d), (0 <=? Doc.maxRetryWaitTime d); reflexivity.
  - rewrite !andb_false_r. apply Nat.eqb_neq. intros Hsum.
    assert (Hz : List.length
                   (if negb false
                    then FilePath.errors
                           (FilePath.validateForProcessing (Doc.filePath d))
                    else []) = 0%nat) by lia.
    cbn [negb] in Hz. apply length_zero_iff_nil in Hz.
    now apply (filePath_errors_when_invalid (Doc.filePath d)) in Hz.
Qed.

(** X5: [validate()] passes exactly when the document has an id and a MIME
    type, no negative size, positive [batchSize] and [maxWorkers],
    non-negative [maxRetries] and [maxRetryWaitTime], and a file path that is
    fit for processing: a URL that [validateUrl] accepts, or a local file
    that exists, is readable and is at most 50MB, in both cases with a
    supported extension. *)
Theorem validate_passes_iff (d : Doc.t) :
  let p := Doc.filePath d in
  Doc.isValid (Doc.validate d) = true
  <-> Doc.id d <> "" /\ Doc.mimeType d <> ""
      /\ (forall n, Doc.size d = Some n -> 0 <= n)
      /\ 0 < Doc.batchSize d /\ 0 < Doc.maxWorkers d
      /\ 0 <= Doc.maxRetries d /\ 0 <= Doc.maxRetryWaitTime d
      /\ (FilePath.isUrl p = true -> FilePath.validateUrlError p = None)
      /\ (FilePath.isUrl p = false ->
          FilePath.existsSync p = true /\ FilePath.accessSyncOk p = true
          /\ exists bytes, FilePath.statSize p = Some bytes
                           /\ bytes <= 50 * 1024 * 1024)
      /\ In (FilePath.extension p) FilePath.supportedExtensions.
Proof.
  intros p. rewrite validate_valid_eq, filePath_valid_eq. fold p.
  rewrite !andb_true_iff, !negb_true_iff, !String.eqb_neq.
  rewrite !Z.ltb_lt, !Z.leb_le.
  assert (Hsize : match Doc.size d with Some n => 0 <=? n | None => true end
                  = true
                  <-> forall n, Doc.size d = Some n -> 0 <= n).
  { destruct (Doc.size d) as [n|].
    - rewrite Z.leb_le. split; [now intros H m [= <-] | intros H; now apply H].
    - split; [discriminate | reflexivity]. }
  assert (Hext : FilePath.isSupportedType p = true
                 <-> In (FilePath.extension p) FilePath.supportedExtensions).
  { unfold FilePath.isSupportedType, arrayIncludes, FilePath.getExtension.
    rewrite existsb_exists. split.
    - intros (x & Hin & Heq). apply String.eqb_eq in Heq. now subst.
    - intros Hin. eexists. split; [exact Hin | apply String.eqb_refl]. }
  assert (Hpath :
    (if FilePath.isUrl p
     then match FilePath.validateUrlError p with
          | Some _ => false | None => true end
     else FilePath.exists_ p && FilePath.isReadable p
          && FilePath.isWithinSizeLimit p) = true
    <-> (FilePath.isUrl p = true -> FilePath.validateUrlError p = None)
        /\ (FilePath.isUrl p = false ->
            FilePath.existsSync p = true /\ FilePath.accessSyncOk p = true
            /\ exists bytes, FilePath.statSize p = Some bytes
                             /\ bytes <= 50 * 1024 * 1024)).
  { unfold FilePath.exists_, FilePath.isReadable, FilePath.isWithinSizeLimit,
      FilePath.getSize.
    destruct (FilePath.isUrl p).
    - destruct (FilePath.validateUrlError p); split;
        try (intros _; split; [reflexivity || discriminate | discriminate]);
        try discriminate; try reflexivity.
      + intros [H _]. discriminate (H eq_refl).
    - rewrite !andb_true_iff. split.
      + intros [[He Hr] Hs]. split; [discriminate|]. intros _.
        split; [exact He|]. split; [exact Hr|].
        destruct (FilePath.statSize p) as [bytes|]; [|discriminate].
        exists bytes. split; [reflexivity | now apply Z.leb_le].
      + intros [_ H]. destruct (H eq_refl) as (He & Hr & bytes & Hb & Hle).
        rewrite He, Hr, Hb. repeat split. now apply Z.leb_le. }
  rewrite Hsize, Hext, Hpath. tauto.
Qed.

(** ** The processing check of a document *)

Lemma canProcess_eq now d :
  let p := Doc.filePath d in
  Doc.canProcess (Doc.canBeProcessed now d)
  = negb (FilePath.isLocalPath p && negb (FilePath.exists_ p))
    && negb (FilePath.isLocalPath p && Doc.sizeAbove d Doc.maxFileSize)
    && arrayIncludes (Doc.mimeType d) Doc.supportedTypes
    && negb (Doc.Status_eqb (Doc.processingStatus d) Doc.processing)
    && negb (Doc.Status_eqb (Doc.processingStatus d) Doc.completed)
    && (Doc.processingAttempts d <? Doc.maxRetries d)
    && match Doc.lastProcessingAttempt d with
       | Some last => Doc.maxRetryWaitTime d * 1000 <=? now - last
       | None => true
       end
    && (0 <? Doc.batchSize d) && (0 <? Doc.maxWorkers d).
Proof.
  intros p. unfold Doc.canBeProcessed. fold p.
  destruct (FilePath.isLocalPath p && negb (FilePath.exists_ p));
    [reflexivity|].
  destruct (FilePath.isLocalPath p && Doc.sizeAbove d Doc.maxFileSize);
    [reflexivity|].
  destruct (arrayIncludes (Doc.mimeType d) Doc.supportedTypes);
    [|reflexivity].
  destruct (Doc.Status_eqb (Doc.processingStatus d) Doc.processing);
    [reflexivity|].
  destruct (Doc.Status_eqb (Doc.processingStatus d) Doc.completed);
    [reflexivity|].
  cbn [negb andb].
  rewrite (Z.leb_antisym (Doc.processingAttempts d) (Doc.maxRetries d)).
  destruct (Doc.processingAttempts d <? Doc.maxRetries d); [|reflexivity].
  cbn [negb andb].
  assert (Hrate :
    match
      match Doc.lastProcessingAttempt d with
      | Some last =>
          if now - last <? Doc.maxRetryWaitTime d * 1000
          then Some (ceilDiv (Doc.maxRetryWaitTime d * 1000 - (now - last)) 1000)
          else None
      | None => None
      end
    with Some _ => false | None => true end
    = match Doc.lastProcessingAttempt d with
      | Some last => Doc.maxRetryWaitTime d * 1000 <=? now - last
      | None => true
      end).
  { destruct (Doc.lastProcessingAttempt d) as [last|]; [|reflexivity].
    rewrite Z.leb_antisym.
    now destruct (now - last <? Doc.maxRetryWaitTime d * 1000). }
  rewrite <- Hrate.
  destruct (Doc.lastProcessingAttempt d) as [last|].
  - destruct (now - last <? Doc.maxRetryWaitTime d * 1000); [reflexivity|].
    rewrite (Z.leb_antisym 0 (Doc.batchSize d)),
            (Z.leb_antisym 0 (Doc.maxWorkers d)).
    now destruct (0 <? Doc.batchSize d), (0 <? Doc.maxWorkers d).
  - rewrite (Z.leb_antisym 0 (Doc.batchSize d)),
            (Z.leb_antisym 0 (Doc.maxWorkers d)).
    now destruct (0 <? Doc.batchSize d), (0 <? Doc.maxWorkers d).
Qed.

Lemma canBeProcessed_code now d :
  In (Doc.code (Doc.canBeProcessed now d)) processingCodes
  /\ (Doc.canProcess (Doc.canBeProcessed now d) = true
      <-> Doc.code (Doc.canBeProcessed now d) = "READY_TO_PROCESS").
Proof.
  unfold Doc.canBeProcessed, processingCodes.
  repeat match goal with
         | |- context [if ?b then _ else _] => destruct b
         | |- context [match ?o with Some _ => _ | None => _ end] =>
             destruct o
         end; cbn; (split; [tauto | split; (discriminate || reflexivity)]).
Qed.

(** X6: [canBeProcessed()] lets a document through, with code
    READY_TO_PROCESS and no other, exactly when: a local file exists and its
    declared size is at most 50MB; the MIME type is a supported one; the
    status is 'pending' or 'failed'; fewer than [maxRetries] attempts were
    made; [maxRetryWaitTime] seconds have passed since the last attempt, if
    there was one; and [batchSize] and [maxWorkers] are positive. *)
Theorem canBeProcessed_passes_iff (now : Z) (d : Doc.t) :
  let p := Doc.filePath d in
  (Doc.canProcess (Doc.canBeProcessed now d) = true
   <-> Doc.code (Doc.canBeProcessed now d) = "READY_TO_PROCESS")
  /\ (Doc.canProcess (Doc.canBeProcessed now d) = true
      <-> (FilePath.isUrl p = false ->
           FilePath.existsSync p = true
           /\ forall n, Doc.size d = Some n -> n <= 50 * 1024 * 1024)
          /\ In (Doc.mimeType d) Doc.supportedTypes
          /\ (Doc.processingStatus d = Doc.pending
              \/ Doc.processingStatus d = Doc.failed)
          /\ Doc.processingAttempts d < Doc.maxRetries d
          /\ (forall last, Doc.lastProcessingAttempt d = Some last ->
                           last + Doc.maxRetryWaitTime d * 1000 <= now)
          /\ 0 < Doc.batchSize d /\ 0 < Doc.maxWorkers d).
Proof.
  intros p. split; [apply canBeProcessed_code|].
  rewrite canProcess_eq. fold p.
  rewrite !andb_true_iff, !negb_true_iff, !Z.ltb_lt.
  assert (Hmime : arrayIncludes (Doc.mimeType d) Doc.supportedTypes = true
                  <-> In (Doc.mimeType d) Doc.supportedTypes).
  { unfold arrayIncludes. rewrite existsb_exists. split.
    - intros (x & Hin & Heq). apply String.eqb_eq in Heq. now subst.
    - intros Hin. eexists. split; [exact Hin | apply String.eqb_refl]. }
  assert (Hstatus :
    Doc.Status_eqb (Doc.processingStatus d) Doc.processing = false
    /\ Doc.Status_eqb (Doc.processingStatus d) Doc.completed = false
    <-> Doc.processingStatus d = Doc.pending
        \/ Doc.processingStatus d = Doc.failed).
  { destruct (Doc.processingStatus d); cbn; intuition discriminate. }
  assert (Hrate :
    match Doc.lastProcessingAttempt d with
    | Some last => Doc.maxRetryWaitTime d * 1000 <=? now - last
    | None => true
    end = true
    <-> forall last, Doc.lastProcessingAttempt d = Some last ->
                     last + Doc.maxRetryWaitTime d * 1000 <= now).
  { destruct (Doc.lastProcessingAttempt d) as [last|].
    - rewrite Z.leb_le. split.
      + intros H l [= <-]. lia.
      + intros H. specialize (H last eq_refl). lia.
    - split; [discriminate | reflexivity]. }
  assert (Hfile :
    FilePath.isLocalPath p && negb (FilePath.exists_ p) = false
    /\ FilePath.isLocalPath p && Doc.sizeAbove d Doc.maxFileSize = false
    <-> (FilePath.isUrl p = false ->
         FilePath.existsSync p = true
         /\ forall n, Doc.size d = Some n -> n <= 50 * 1024 * 1024)).
  { unfold FilePath.isLocalPath, FilePath.exists_, Doc.sizeAbove.
    destruct (FilePath.isUrl p); cbn [negb andb].
    - split; [discriminate | now split].
    - change Doc.maxFileSize with (50 * 1024 * 1024).
      split.
      + intros [He Hs] _. apply negb_false_iff in He. split; [exact He|].
        intros n Hn. rewrite Hn in Hs.
        destruct (Z.eqb_spec n 0), (Z.ltb_spec (50 * 1024 * 1024) n);
          cbn in Hs; try discriminate; lia.
      + intros H. destruct (H eq_refl) as [He Hs]. rewrite He. split;
          [reflexivity|].
        destruct (Doc.size d) as [n|]; [|reflexivity].
        specialize (Hs n eq_refl).
        destruct (Z.ltb_spec (50 * 1024 * 1024) n); [lia|].
        apply andb_false_r. }
  rewrite Hmime, Hrate. tauto.
Qed.

(** X7: a document that was dispatched at time [t] and failed is refused by
    [canBeProcessed()] until [maxRetryWaitTime] seconds after [t], and for
    good once its attempts have reached [maxRetries]: whenever it is let
    through at time [now], [t + maxRetryWaitTime * 1000 <= now] and the
    attempts made, now one more, are below [maxRetries]. *)
Theorem failed_document_waits (t now : Z) (d : Doc.t) :
  Doc.canProcess
    (Doc.canBeProcessed now (Doc.markAsFailed (Doc.markAsProcessing t d)))
  = true ->
  t + Doc.maxRetryWaitTime d * 1000 <= now
  /\ Doc.processingAttempts d + 1 < Doc.maxRetries d.
Proof.
  rewrite canProcess_eq. cbn.
  rewrite !andb_true_iff, Z.ltb_lt, Z.leb_le. intros H. split; lia.
Qed.

Lemma failed_document_waits_witness :
  0 + Doc.maxRetryWaitTime (document "a") * 1000 <= 30000
  /\ Doc.processingAttempts (document "a") + 1 < Doc.maxRetries (document "a").
Proof.
  apply (failed_document_waits 0 30000 (document "a")). reflexivity.
Defined.

(** X8: [resetProcessingState()] makes a document processable again: if
    [canBeProcessed()] refuses it for a reason of its processing state
    (being processed, completed, out of retries or rate limited) and its
    [maxRetries], [batchSize] and [maxWorkers] are positive, then after the
    reset it is let through at any time, as a pending document with no
    attempt made. *)
Theorem resetProcessingState_restores (now later : Z) (d : Doc.t) :
  In (Doc.code (Doc.canBeProcessed now d)) stateCodes ->
  0 < Doc.maxRetries d -> 0 < Doc.batchSize d -> 0 < Doc.maxWorkers d ->
  Doc.canProcess (Doc.canBeProcessed later (Doc.resetProcessingState d)) = true
  /\ Doc.processingStatus (Doc.resetProcessingState d) = Doc.pending
  /\ Doc.processingAttempts (Doc.resetProcessingState d) = 0.
Proof.
  intros Hcode Hr Hb Hw. split; [|now split].
  unfold Doc.canBeProcessed, stateCodes in Hcode.
  destruct (FilePath.isLocalPath (Doc.filePath d)
            && negb (FilePath.exists_ (Doc.filePath d))) eqn:F1;
    [cbn in Hcode; intuition discriminate|].
  destruct (FilePath.isLocalPath (Doc.filePath d)
            && Doc.sizeAbove d Doc.maxFileSize) eqn:F2;
    [cbn in Hcode; intuition discriminate|].
  destruct (arrayIncludes (Doc.mimeType d) Doc.supportedTypes) eqn:F3;
    [|cbn in Hcode; intuition discriminate].
  clear Hcode. rewrite canProcess_eq.
  unfold Doc.sizeAbove in *.
  cbn [Doc.resetProcessingState Doc.filePath Doc.size Doc.mimeType
       Doc.processingStatus Doc.processingAttempts Doc.lastProcessingAttempt
       Doc.maxRetries Doc.batchSize Doc.maxWorkers Doc.maxRetryWaitTime
       Doc.Status_eqb].
  rewrite F1, F2, F3. cbn [negb andb].
  rewrite !andb_true_iff, !Z.ltb_lt. repeat split; assumption.
Qed.

Lemma resetProcessingState_restores_witness :
  Doc.canProcess
    (Doc.canBeProcessed 5
       (Doc.resetProcessingState (Doc.markAsCompleted (document "a")))) = true.
Proof.
  apply (resetProcessingState_restores 0 5 (Doc.markAsCompleted (document "a")));
    vm_compute; intuition discriminate.
Defined.

Lemma canBeProcessed_code_cause now d :
  (Doc.code (Doc.canBeProcessed now d) = "FILE_NOT_FOUND" ->
   FilePath.isLocalPath (Doc.filePath d)
   && negb (FilePath.exists_ (Doc.filePath d)) = true)
  /\ (Doc.code (Doc.canBeProcessed now d) = "INVALID_BATCH_SIZE" ->
      Doc.batchSize d <= 0)
  /\ (Doc.code (Doc.canBeProcessed now d) = "INVALID_MAX_WORKERS" ->
      Doc.maxWorkers d <= 0).
Proof.
  unfold Doc.canBeProcessed.
  repeat match goal with
         | |- context [if ?b then _ else _] => destruct b eqn:?
         | |- context [match ?o with Some _ => _ | None => _ end] =>
             destruct o
         end; cbn;
    repeat split; intros Hcode; try discriminate Hcode;
    try reflexivity; now apply Z.leb_le.
Qed.

(** X9: the code [canAddToBatch] gives is one of ten, READY_TO_ADD exactly
    when the document can be added; the codes FILE_NOT_FOUND,
    INVALID_BATCH_SIZE and INVALID_MAX_WORKERS of [canBeProcessed()] never
    come through, since [validate()], which runs first, fails on a missing
    local file and on non-positive limits. *)
Theorem canAddToBatch_codes (s : BPS.t) (now : Z) (d : Doc.t) :
  let decision := BPS.canAddToBatch s now d in
  In (BPS.Decision.code decision) admissionCodes
  /\ (BPS.Decision.canAdd decision = true
      <-> BPS.Decision.code decision = "READY_TO_ADD")
  /\ BPS.Decision.code decision <> "FILE_NOT_FOUND"
  /\ BPS.Decision.code decision <> "INVALID_BATCH_SIZE"
  /\ BPS.Decision.code decision <> "INVALID_MAX_WORKERS".
Proof.
  intros decision.
  assert (Hin : In (BPS.Decision.code decision) admissionCodes
                /\ (BPS.Decision.canAdd decision = true
                    <-> BPS.Decision.code decision = "READY_TO_ADD")).
  { subst decision. unfold BPS.canAddToBatch, admissionCodes.
    destruct (Doc.isValid (Doc.validate d)) eqn:Hvalid; cbn [negb].
    2: { cbn. split; [tauto | split; discriminate]. }
    rewrite validate_valid_eq, filePath_valid_eq in Hvalid.
    rewrite !andb_true_iff in Hvalid.
    destruct Hvalid as [[[[[_ Hb] Hw] _] _] [Hpath _]].
    assert (Hfile : FilePath.isLocalPath (Doc.filePath d)
                    && negb (FilePath.exists_ (Doc.filePath d)) = false).
    { unfold FilePath.isLocalPath.
      destruct (FilePath.isUrl (Doc.filePath d)); [reflexivity|].
      apply andb_true_iff in Hpath. destruct Hpath as [Hpath _].
      apply andb_true_iff in Hpath. destruct Hpath as [-> _]. reflexivity. }
    apply Z.ltb_lt in Hb, Hw.
    destruct (canBeProcessed_code now d) as [Hcodes Hready].
    destruct (canBeProcessed_code_cause now d) as (Hc1 & Hc2 & Hc3).
    destruct (Doc.canProcess (Doc.canBeProcessed now d)) eqn:Hcan; cbn [negb].
    - destruct (BPS.batchSize s <=? _);
        [cbn; split; [tauto | split; discriminate]|].
      destruct (BPS.idInQueue s d); cbn;
        (split; [tauto | split; (discriminate || reflexivity)]).
    - cbn [BPS.Decision.code BPS.Decision.canAdd].
      assert (Hnot : Doc.code (Doc.canBeProcessed now d) <> "READY_TO_PROCESS").
      { intros Heq. apply Hready in Heq. discriminate. }
      unfold processingCodes in Hcodes. cbn in Hcodes.
      split.
      + repeat (destruct Hcodes as [H|Hcodes];
                [symmetry in H;
                 first [ now (apply Hc1 in H; rewrite Hfile in H; discriminate)
                       | now (apply Hc2 in H; lia)
                       | now (apply Hc3 in H; lia)
                       | contradiction
                       | (rewrite H; cbn; tauto) ]|]).
        contradiction.
      + split; [discriminate|]. intros Heq. rewrite Heq in Hcodes.
        intuition discriminate. }
  destruct Hin as [Hin Hready]. split; [exact Hin|]. split; [exact Hready|].
  unfold admissionCodes in Hin. cbn in Hin.
  repeat split; intros Heq; rewrite Heq in Hin; intuition discriminate.
Qed.

(** ** What a batch leaves behind *)

Section Filing.

Variable w : BPS.World.

Lemma appended_refl s : appended s s.
Proof.
  exists [], []. rewrite !app_nil_r. repeat split; constructor.
Qed.

Lemma appended_trans s1 s2 s3 : appended s1 s2 -> appended s2 s3 -> appended s1 s3.
Proof.
  intros (c1 & f1 & Hc1 & Hf1 & Fc1 & Ff1) (c2 & f2 & Hc2 & Hf2 & Fc2 & Ff2).
  exists (c1 ++ c2)%list, (f1 ++ f2)%list.
  rewrite Hc2, Hc1, Hf2, Hf1, <- !app_assoc.
  repeat split; apply Forall_app; now split.
Qed.

Lemma appended_settle r s d : appended s (snd (BPS.settle w (r, s) d)).
Proof.
  rewrite settle_eq. destruct (succeeds s w d); cbn [snd].
  - exists [Doc.markAsCompleted d], []. cbn. rewrite app_nil_r.
    repeat split; repeat constructor.
  - exists [], [Doc.markAsFailed d]. cbn. rewrite app_nil_r.
    repeat split; repeat constructor.
Qed.

Lemma appended_fold_settle ds : forall acc,
  appended (snd acc) (snd (fold_left (BPS.settle w) ds acc)).
Proof.
  induction ds as [|d ds IH]; intros [r s]; [apply appended_refl|].
  cbn [fold_left]. eapply appended_trans; [|apply IH].
  pose proof (appended_settle r s d) as H.
  now destruct (BPS.settle w (r, s) d).
Qed.

Lemma appended_chunks chunks : forall acc,
  appended (snd acc) (snd (fold_left (BPS.processChunk w) chunks acc)).
Proof.
  induction chunks as [|chunk chunks IH]; intros acc; [apply appended_refl|].
  cbn [fold_left]. eapply appended_trans; [|apply IH].
  unfold BPS.processChunk. apply appended_fold_settle.
Qed.

(** What [processBatch] returns, in one statement for the two paths. *)
Lemma processBatch_effect s r s' :
  BPS.processBatch s w = Some (r, s') ->
  sameConfig s s'
  /\ appended s s'
  /\ BPS.processingQueue s
     = (firstn (Z.to_nat (BPS.Summary.processed r)) (BPS.processingQueue s)
        ++ BPS.processingQueue s')%list
  /\ BPS.Summary.processed r
     = Z.of_nat (Nat.min (Z.to_nat (Z.max (BPS.batchSize s) 0))
                         (List.length (BPS.processingQueue s)))
  /\ BPS.Summary.processed r
     = BPS.Summary.completed r + BPS.Summary.failed r
  /\ Z.of_nat (List.length (BPS.completedDocuments s'))
     = Z.of_nat (List.length (BPS.completedDocuments s))
       + BPS.Summary.completed r
  /\ Z.of_nat (List.length (BPS.failedDocuments s'))
     = Z.of_nat (List.length (BPS.failedDocuments s)) + BPS.Summary.failed r.
Proof.
  intros Hrun.
  destruct (BPS.processingQueue s) as [|d0 q] eqn:Eq.
  - unfold BPS.processBatch in Hrun. rewrite Eq in Hrun. cbn in Hrun.
    injection Hrun as <- <-. cbn. rewrite Eq.
    repeat split; try lia; try reflexivity. apply appended_refl.
  - assert (Hne : BPS.processingQueue s <> []) by (rewrite Eq; discriminate).
    destruct (processBatch_nonempty w s r s' Hne Hrun) as (Hp & _ & _).
    assert (Happ : appended s s').
    { unfold BPS.processBatch in Hrun.
      rewrite (queue_nonempty_length s Hne) in Hrun.
      destruct (splice0 (BPS.processingQueue s) (BPS.batchSize s))
        as [batch remaining].
      destruct (BPS.chunkArray batch (BPS.maxWorkers s)) as [chunks|];
        [|discriminate].
      injection Hrun as Hrun.
      pose proof (appended_chunks chunks
                    ({| BPS.Summary.processed := Z.of_nat (List.length batch);
                        BPS.Summary.completed := 0; BPS.Summary.failed := 0;
                        BPS.Summary.message := None;
                        BPS.Summary.errors := Some [] |},
                     BPS.setQueue remaining s)) as H.
      rewrite Hrun in H. exact H. }
    unfold afterWithdrawal, progress in Hp. cbn in Hp.
    destruct Hp as (Hcfg & Hqueue & Hproc & _ & _ & _ & Htotal & _ & Hnc & Hnf & _).
    rewrite <- Eq.
    assert (Hlen : BPS.Summary.processed r
                   = Z.of_nat (Nat.min (Z.to_nat (Z.max (BPS.batchSize s) 0))
                                       (List.length (BPS.processingQueue s)))).
    { rewrite Hproc, length_firstn. f_equal. lia. }
    split; [exact Hcfg|]. split; [exact Happ|]. split.
    { rewrite Hqueue, Hlen, Nat2Z.id.
      replace (Z.to_nat (Z.min (Z.max (BPS.batchSize s) 0)
                           (Z.of_nat (List.length (BPS.processingQueue s)))))
        with (Nat.min (Z.to_nat (Z.max (BPS.batchSize s) 0))
                      (List.length (BPS.processingQueue s))) by lia.
      symmetry. apply firstn_skipn. }
    split; [exact Hlen|]. repeat split; lia.
Qed.

End Filing.

(** X10: when [processBatch] returns, the two result lists have only been
    appended to: [completedDocuments] by [completed] documents, all with
    status 'completed', [failedDocuments] by [failed] documents, all with
    status 'failed'; the limits are untouched, and no document is lost:
    those that left the queue are as many as those that were filed. *)
Theorem processBatch_appends_results
    (s : BPS.t) (w : BPS.World) (r : BPS.Summary.t) (s' : BPS.t) :
  BPS.processBatch s w = Some (r, s') ->
  sameConfig s s'
  /\ (exists done lost,
        BPS.completedDocuments s' = (BPS.completedDocuments s ++ done)%list
        /\ BPS.failedDocuments s' = (BPS.failedDocuments s ++ lost)%list
        /\ Z.of_nat (List.length done) = BPS.Summary.completed r
        /\ Z.of_nat (List.length lost) = BPS.Summary.failed r
        /\ Forall (fun d => Doc.processingStatus d = Doc.completed) done
        /\ Forall (fun d => Doc.processingStatus d = Doc.failed) lost)
  /\ (List.length (BPS.processingQueue s')
      + List.length (BPS.completedDocuments s')
      + List.length (BPS.failedDocuments s')
      = List.length (BPS.processingQueue s)
        + List.length (BPS.completedDocuments s)
        + List.length (BPS.failedDocuments s))%nat.
Proof.
  intros Hrun.
  destruct (processBatch_effect w s r s' Hrun)
    as (Hcfg & (done & lost & Hc & Hf & Fc & Ff) & Hq & Hproc & Hsum & Hnc & Hnf).
  split; [exact Hcfg|].
  rewrite Hc, length_app in Hnc. rewrite Hf, length_app in Hnf.
  split.
  - exists done, lost. repeat split; try assumption; lia.
  - apply (f_equal (@List.length Doc.t)) in Hq.
    rewrite length_app, length_firstn in Hq.
    rewrite Hc, Hf, !length_app. lia.
Qed.

Lemma processBatch_appends_results_witness :
  match BPS.processBatch (serviceHolding [document "a"; document "b"])
                         (world succeedsOnThird 0) with
  | Some (r, s') => sameConfig (serviceHolding [document "a"; document "b"]) s'
  | None => False
  end.
Proof.
  destruct (BPS.processBatch (serviceHolding [document "a"; document "b"])
                             (world succeedsOnThird 0))
    as [[r s']|] eqn:H.
  - apply (processBatch_appends_results
             (serviceHolding [document "a"; document "b"])
             (world succeedsOnThird 0) r s' H).
  - vm_compute in H. discriminate.
Defined.

(** X11: in a service driven through its public methods one [processBatch]
    call that returns takes the whole queue: the queue is empty afterwards
    and [processed] is the number of documents that were queued.  (The gate
    never lets the queue grow beyond [batchSize], so nothing is ever left
    behind for a second call.) *)
Theorem reachable_processBatch_empties_queue
    (s : BPS.t) (w : BPS.World) (r : BPS.Summary.t) (s' : BPS.t) :
  BPS.reachable s ->
  BPS.processBatch s w = Some (r, s') ->
  BPS.processingQueue s' = []
  /\ BPS.Summary.processed r
     = Z.of_nat (List.length (BPS.processingQueue s)).
Proof.
  intros Hreach Hrun.
  destruct (reachable_invariant s Hreach) as (_ & Hlen & _).
  destruct (processBatch_effect w s r s' Hrun)
    as (_ & _ & Hq & Hproc & _).
  assert (Hall : BPS.Summary.processed r
                 = Z.of_nat (List.length (BPS.processingQueue s))) by lia.
  split; [|exact Hall].
  rewrite Hall, Nat2Z.id, firstn_all in Hq.
  apply (f_equal (@List.length Doc.t)) in Hq. rewrite length_app in Hq.
  apply length_zero_iff_nil. lia.
Qed.

Lemma reachable_processBatch_empties_queue_witness :
  match BPS.processBatch (serviceHolding [document "a"])
                         (world alwaysSucceeds 0) with
  | Some (r, s') => BPS.processingQueue s' = []
  | None => False
  end.
Proof.
  destruct (BPS.processBatch (serviceHolding [document "a"])
                             (world alwaysSucceeds 0))
    as [[r s']|] eqn:H.
  - apply (reachable_processBatch_empties_queue
             (serviceHolding [document "a"]) (world alwaysSucceeds 0) r s');
      [|exact H].
    apply (BPS.reachable_addToBatch (service 4 2 3 30) 0 (document "a")
             (Return {| BPS.AddResult.success := true;
                        BPS.AddResult.documentId := "a";
                        BPS.AddResult.queuePosition := 1;
                        BPS.AddResult.estimatedWaitTime := 3 |})).
    + apply (BPS.reachable_new env_three_retries). reflexivity.
    + reflexivity.
  - vm_compute in H. discriminate.
Defined.

(** ** Invariants of the queue *)

(** X12: in a service driven through its public methods the queue never
    holds more than [batchSize] documents, no two queued documents have the
    same id, and none of the four limits is 0. *)
Theorem reachable_queue_bounded_distinct (s : BPS.t) :
  BPS.reachable s ->
  Z.of_nat (List.length (BPS.processingQueue s)) <= Z.max 0 (BPS.batchSize s)
  /\ NoDup (map Doc.id (BPS.processingQueue s))
  /\ BPS.batchSize s <> 0 /\ BPS.maxWorkers s <> 0
  /\ BPS.maxRetries s <> 0 /\ BPS.maxRetryWaitTime s <> 0.
Proof.
  intros Hreach.
  destruct (reachable_invariant s Hreach)
    as ((H1 & H2 & H3 & H4) & Hlen & Hnd).
  repeat split; assumption.
Qed.

Lemma reachable_queue_bounded_distinct_witness :
  let s := serviceHolding [document "a"; document "b"] in
  map Doc.id (BPS.processingQueue s) = ["a"; "b"]
  /\ Z.of_nat (List.length (BPS.processingQueue s)) <= Z.max 0 (BPS.batchSize s)
  /\ NoDup (map Doc.id (BPS.processingQueue s)).
Proof.
  split; [reflexivity|].
  destruct (reachable_queue_bounded_distinct
              (serviceHolding [document "a"; document "b"])
              two_queued_reachable) as (Hlen & Hnd & _).
  split; [exact Hlen | exact Hnd].
Defined.

Lemma sameButState_trans d1 d2 d3 :
  sameButState d1 d2 -> sameButState d2 d3 -> sameButState d1 d3.
Proof. unfold sameButState. congruence. Qed.

Lemma called_sameButState d d' : BPS.called d d' -> sameButState d d'.
Proof. now destruct 1. Qed.

Lemma reachable_queue_admitted s :
  BPS.reachable s ->
  Forall (fun d => exists now d0,
                     sameButState d0 d /\ admissible now d0 = true)
         (BPS.processingQueue s).
Proof.
  induction 1 as [env s Hnew
                 | s now d r s' _ IH Hadd
                 | s w r s' _ IH Hrun
                 | s _ IH
                 | s _ IH
                 | s s' _ IH Htouch].
  - injection Hnew as <-. constructor.
  - destruct (BPS.Decision.canAdd (BPS.canAddToBatch s now d)) eqn:Hcan.
    + rewrite (addToBatch_accepts s now d Hcan) in Hadd.
      injection Hadd as _ <-. cbn. apply Forall_app. split; [exact IH|].
      constructor; [|constructor]. exists now, d. split; [reflexivity|].
      rewrite canAdd_eq in Hcan.
      apply andb_prop in Hcan. destruct Hcan as [Hcan _].
      apply andb_prop in Hcan. apply Hcan.
    + rewrite (addToBatch_rejects s now d Hcan) in Hadd.
      now injection Hadd as _ <-.
  - destruct (processBatch_effect w s r s' Hrun) as (_ & _ & Hq & _).
    rewrite Hq in IH. apply Forall_app in IH. apply IH.
  - exact IH.
  - constructor.
  - destruct Htouch as [s before d after d' Hq Hcall
                       | s before d after d' Hq Hcall
                       | s before d after d' Hq Hcall];
      [|exact IH|exact IH].
    cbn. rewrite Hq in IH. apply Forall_app in IH. destruct IH as [Hb Hrest].
    inversion Hrest as [|x xs (now & d0 & Hsame & Hadm) Ha]; subst.
    apply Forall_app. split; [exact Hb|].
    constructor; [|exact Ha]. exists now, d0. split; [|exact Hadm].
    exact (sameButState_trans d0 d d' Hsame (called_sameButState d d' Hcall)).
Qed.

Lemma arrayIncludes_In x xs : arrayIncludes x xs = true <-> In x xs.
Proof.
  unfold arrayIncludes. rewrite existsb_exists. split.
  - intros (y & Hin & Heq). apply String.eqb_eq in Heq. now subst.
  - intros Hin. eexists. split; [exact Hin | apply String.eqb_refl].
Qed.

(** X13: every document in the queue of a service driven through its public
    methods is a document that passed [validate()] and [canBeProcessed()]
    when it was added and of which, since then, at most the processing state
    (status, attempts, time of the last attempt) has changed, the queue
    holding the caller's object.  So it has an id, a supported MIME type and
    extension, positive [batchSize] and [maxWorkers] of its own, and no
    negative [maxRetries] or [maxRetryWaitTime]. *)
Theorem reachable_queue_admitted_documents (s : BPS.t) (d : Doc.t) :
  BPS.reachable s ->
  In d (BPS.processingQueue s) ->
  (exists now d0, sameButState d0 d
                  /\ Doc.isValid (Doc.validate d0) = true
                  /\ Doc.canProcess (Doc.canBeProcessed now d0) = true)
  /\ Doc.id d <> ""
  /\ In (Doc.mimeType d) Doc.supportedTypes
  /\ FilePath.isSupportedType (Doc.filePath d) = true
  /\ 0 < Doc.batchSize d /\ 0 < Doc.maxWorkers d
  /\ 0 <= Doc.maxRetries d /\ 0 <= Doc.maxRetryWaitTime d.
Proof.
  intros Hreach Hin.
  pose proof (reachable_queue_admitted s Hreach) as Hall.
  rewrite Forall_forall in Hall.
  destruct (Hall d Hin) as (now & d0 & Hsame & Hadm).
  unfold admissible in Hadm. apply andb_prop in Hadm.
  destruct Hadm as [Hvalid Hcan].
  split; [exists now, d0; now repeat split|].
  rewrite validate_valid_eq in Hvalid. rewrite canProcess_eq in Hcan.
  rewrite filePath_valid_eq in Hvalid.
  rewrite !andb_true_iff in Hvalid, Hcan.
  destruct Hvalid as [[[[[[[Hid _] _] Hb] Hw] Hr] Ht] [_ Hext]].
  destruct Hcan as [[[[[[[[_ _] Hmime] _] _] _] _] _] _].
  apply negb_true_iff, String.eqb_neq in Hid.
  apply arrayIncludes_In in Hmime.
  apply Z.ltb_lt in Hb, Hw. apply Z.leb_le in Hr, Ht.
  unfold sameButState in Hsame.
  pose proof (f_equal Doc.id Hsame) as E1.
  pose proof (f_equal Doc.mimeType Hsame) as E2.
  pose proof (f_equal Doc.filePath Hsame) as E3.
  pose proof (f_equal Doc.batchSize Hsame) as E4.
  pose proof (f_equal Doc.maxWorkers Hsame) as E5.
  pose proof (f_equal Doc.maxRetries Hsame) as E6.
  pose proof (f_equal Doc.maxRetryWaitTime Hsame) as E7.
  cbn in E1, E2, E3, E4, E5, E6, E7.
  rewrite E1, E2, E3, E4, E5, E6, E7.
  repeat split; assumption.
Qed.

Lemma reachable_queue_admitted_documents_witness :
  let d := Doc.markAsCompleted (Doc.markAsProcessing 1000 (document "a")) in
  Doc.processingStatus d = Doc.completed
  /\ exists now d0, sameButState d0 d
                    /\ Doc.isValid (Doc.validate d0) = true
                    /\ Doc.canProcess (Doc.canBeProcessed now d0) = true.
Proof.
  split; [reflexivity|].
  apply (reachable_queue_admitted_documents
           (serviceHolding
              [Doc.markAsCompleted (Doc.markAsProcessing 1000 (document "a"))])).
  - exact completed_elsewhere_reachable.
  - left. reflexivity.
Defined.

(** ** The backoff schedule *)

Open Scope Q_scope.

Lemma exponentialWait_eq (n : Z) :
  (1 <= n)%Z -> 2 ^ (n - 1) * 1000 == inject_Z (2 ^ (n - 1) * 1000).
Proof.
  intros Hn. rewrite inject_Z_mult, Zpower_Qpower by lia. reflexivity.
Qed.

(** X14: with the same jitter the wait does not decrease from one attempt
    to a later one. *)
Theorem calculateRetryWaitTime_monotone (s : BPS.t) (n m : Z) (rnd : Q) :
  (1 <= n)%Z -> (n <= m)%Z ->
  BPS.calculateRetryWaitTime s n rnd <= BPS.calculateRetryWaitTime s m rnd.
Proof.
  intros Hn Hm. unfold BPS.calculateRetryWaitTime.
  apply Q.min_le_compat_r. apply Qplus_le_l.
  rewrite !exponentialWait_eq by lia. rewrite <- Zle_Qle.
  apply Z.mul_le_mono_nonneg_r; [lia|].
  apply Z.pow_le_mono_r; lia.
Qed.

Lemma calculateRetryWaitTime_monotone_witness :
  BPS.calculateRetryWaitTime (service 4 2 3 30) 2 (1 # 2)
  <= BPS.calculateRetryWaitTime (service 4 2 3 30) 5 (1 # 2).
Proof.
  apply (calculateRetryWaitTime_monotone (service 4 2 3 30) 2 5 (1 # 2));
    vm_compute; discriminate.
Defined.

(** X15: the schedule of the backoff, for a draw [rnd] of [Math.random()] in
    [0, 1) and [cap = min(maxRetryWaitTime, 30)]: while [2^(n-1) + 1 <= cap]
    the wait is [(2^(n-1) + rnd) * 1000] milliseconds, uncapped; once
    [cap <= 2^(n-1)] it is [cap * 1000]; and from the sixth attempt on it is
    [cap * 1000] whatever the configuration. *)
Theorem calculateRetryWaitTime_schedule (s : BPS.t) (n : Z) (rnd : Q) :
  (1 <= n)%Z -> 0 <= rnd -> rnd < 1 ->
  let cap := Z.min (BPS.maxRetryWaitTime s) 30 in
  let wait := BPS.calculateRetryWaitTime s n rnd in
  ((2 ^ (n - 1) + 1 <= cap)%Z -> wait == (inject_Z (2 ^ (n - 1)) + rnd) * 1000)
  /\ ((cap <= 2 ^ (n - 1))%Z -> wait == inject_Z (cap * 1000))
  /\ ((6 <= n)%Z -> wait == inject_Z (cap * 1000)).
Proof.
  intros Hn H0 H1 cap wait. subst wait. unfold BPS.calculateRetryWaitTime.
  fold cap.
  assert (Hexp : 2 ^ (n - 1) * 1000 + rnd * 1000
                 == (inject_Z (2 ^ (n - 1)) + rnd) * 1000).
  { rewrite Zpower_Qpower by lia. change (inject_Z 2) with 2. ring. }
  assert (Hcap : inject_Z cap * 1000 == inject_Z (cap * 1000)).
  { rewrite inject_Z_mult. reflexivity. }
  assert (Hcapped : (cap <= 2 ^ (n - 1))%Z ->
            Qmin (2 ^ (n - 1) * 1000 + rnd * 1000) (inject_Z cap * 1000)
            == inject_Z (cap * 1000)).
  { intros Hle. rewrite <- Hcap. apply Q.min_r.
    rewrite Hexp. apply Qmult_le_compat_r; [|discriminate].
    apply Qle_trans with (inject_Z (2 ^ (n - 1))).
    - now rewrite <- Zle_Qle.
    - rewrite <- (Qplus_0_r (inject_Z (2 ^ (n - 1)))) at 1.
      now apply Qplus_le_r. }
  split; [|split].
  - intros Hroom. rewrite <- Hexp. apply Q.min_l. rewrite Hexp.
    apply Qmult_le_compat_r; [|discriminate].
    apply Qle_trans with (inject_Z (2 ^ (n - 1)) + 1).
    + apply Qplus_le_r. now apply Qlt_le_weak.
    + change 1 with (inject_Z 1). rewrite <- inject_Z_plus, <- Zle_Qle. exact Hroom.
  - exact Hcapped.
  - intros Hsix. apply Hcapped.
    apply Z.le_trans with 32%Z; [subst cap; lia|].
    change 32%Z with (2 ^ 5)%Z. apply Z.pow_le_mono_r; lia.
Qed.

Lemma calculateRetryWaitTime_schedule_witness :
  BPS.calculateRetryWaitTime (service 4 2 3 30) 7 (1 # 4)
  == inject_Z (Z.min 30 30 * 1000).
Proof.
  apply (calculateRetryWaitTime_schedule (service 4 2 3 30) 7 (1 # 4)).
  - vm_compute; discriminate.
  - vm_compute; discriminate.
  - vm_compute; reflexivity.
  - vm_compute; discriminate.
Defined.

Close Scope Q_scope.

(** ** Sleeps of the retry policy *)

Lemma sleeps_cons_extract n trace :
  sleeps (BPS.Extract n :: trace) = sleeps trace.
Proof. reflexivity. Qed.

Lemma sleeps_cons_sleep ms trace :
  sleeps (BPS.Sleep ms :: trace) = S (sleeps trace).
Proof. reflexivity. Qed.

Lemma attemptLoop_sleeps (s : BPS.t) (w : BPS.World) (d : Doc.t) :
  forall k a lastError,
    Z.of_nat (a + k) = BPS.maxRetries s ->
    let trace :=
      snd (BPS.attemptLoop s w d (map Z.of_nat (seq a (S k))) lastError) in
    S (sleeps trace) = BPS.invocations trace
    /\ Forall (sleepWithin
                 (inject_Z (Z.min (BPS.maxRetryWaitTime s) 30) * 1000)%Q)
              trace.
Proof.
  induction k as [|k IH]; intros a lastError Hk trace; subst trace.
  - change (map Z.of_nat (seq a 1)) with [Z.of_nat a].
    rewrite attemptLoop_cons.
    destruct (BPS.extractionFunction w d (Z.of_nat a)) as [r|[m|te]].
    2: (rewrite shouldRetry_spec;
        replace (Z.of_nat a <? BPS.maxRetries s) with false
          by (symmetry; apply Z.ltb_ge; lia);
        rewrite andb_false_r; cbn [negb]).
    all: cbn [snd]; split; [reflexivity | repeat constructor].
  - change (map Z.of_nat (seq a (S (S k))))
      with (Z.of_nat a :: map Z.of_nat (seq (S a) (S k))).
    rewrite attemptLoop_cons.
    destruct (BPS.extractionFunction w d (Z.of_nat a)) as [r|[m|te]].
    1, 3: cbn [snd]; split; [reflexivity | repeat constructor].
    rewrite shouldRetry_spec.
    replace (Z.of_nat a <? BPS.maxRetries s) with true
      by (symmetry; apply Z.ltb_lt; lia).
    rewrite andb_true_r.
    destruct (nonRetryable m); cbn [negb snd];
      [split; [reflexivity | repeat constructor]|].
    destruct (IH (S a) (Some m)) as [Hcount Hcap];
      [rewrite <- Hk; f_equal; lia|].
    cbn [app]. split.
    + rewrite sleeps_cons_extract, sleeps_cons_sleep,
        invocations_cons_extract.
      change (BPS.invocations (BPS.Sleep ?x :: ?t)) with (BPS.invocations t).
      now rewrite Hcount.
    + constructor; [exact I|]. constructor; [|exact Hcap].
      cbn [sleepWithin]. unfold BPS.calculateRetryWaitTime. apply Q.le_min_r.
Qed.

Lemma alternating_from_one {E : Type} (call pause : Z -> E) (m : nat) :
  alternating call pause (Z.of_nat (S m))
  = (flat_map (fun k => [call k; pause k]) (map Z.of_nat (seq 1 m))
     ++ [call (Z.of_nat (1 + m))])%list.
Proof.
  unfold alternating, BPS.attemptRange.
  replace (Z.to_nat (Z.of_nat (S m) - 1)) with m by lia. reflexivity.
Qed.

Lemma invocations_retries (s : BPS.t) (w : BPS.World) (d : Doc.t) ks n :
  BPS.invocations
    (flat_map (fun k => [BPS.Extract k; backoff s w d k]) ks
     ++ [BPS.Extract n])
  = S (List.length ks).
Proof.
  induction ks as [|k ks IH]; [reflexivity|].
  cbn [flat_map app List.length]. rewrite invocations_cons_extract.
  unfold backoff at 1.
  change (BPS.invocations (BPS.Sleep ?x :: ?t)) with (BPS.invocations t).
  now rewrite IH.
Qed.

Lemma attemptLoop_trace (s : BPS.t) (w : BPS.World) (d : Doc.t) :
  forall k a lastError,
    Z.of_nat (a + k) = BPS.maxRetries s ->
    exists m,
      snd (BPS.attemptLoop s w d (map Z.of_nat (seq a (S k))) lastError)
      = (flat_map (fun j => [BPS.Extract j; backoff s w d j])
                  (map Z.of_nat (seq a m))
         ++ [BPS.Extract (Z.of_nat (a + m))])%list.
Proof.
  induction k as [|k IH]; intros a lastError Hk.
  - change (map Z.of_nat (seq a 1)) with [Z.of_nat a].
    rewrite attemptLoop_cons. exists 0%nat. rewrite Nat.add_0_r.
    destruct (BPS.extractionFunction w d (Z.of_nat a)) as [r|[m|te]];
      [reflexivity| |reflexivity].
    rewrite shouldRetry_spec.
    replace (Z.of_nat a <? BPS.maxRetries s) with false
      by (symmetry; apply Z.ltb_ge; lia).
    now rewrite andb_false_r.
  - change (map Z.of_nat (seq a (S (S k))))
      with (Z.of_nat a :: map Z.of_nat (seq (S a) (S k))).
    rewrite attemptLoop_cons.
    destruct (BPS.extractionFunction w d (Z.of_nat a)) as [r|[m|te]].
    1, 3: exists 0%nat; rewrite Nat.add_0_r; reflexivity.
    rewrite shouldRetry_spec.
    replace (Z.of_nat a <? BPS.maxRetries s) with true
      by (symmetry; apply Z.ltb_lt; lia).
    rewrite andb_true_r.
    destruct (nonRetryable m); cbn [negb snd];
      [exists 0%nat; rewrite Nat.add_0_r; reflexivity|].
    destruct (IH (S a) (Some m)) as (m' & Htrace);
      [rewrite <- Hk; f_equal; lia|].
    exists (S m'). rewrite Htrace. cbn [seq map flat_map app].
    unfold backoff at 2. now rewrite Nat.add_succ_r.
Qed.

(** X16: with [maxRetries >= 1], what [processDocument] does is [n] calls of
    the extraction function, [1 <= n <= maxRetries], with one sleep after
    each call but the last, of the length [calculateRetryWaitTime] gives for
    that attempt: call 1, sleep, call 2, ..., sleep, call [n].  So it sleeps
    [n - 1] times, never after the last call, and no sleep is longer than
    [min(maxRetryWaitTime, 30)] seconds. *)
Theorem processDocument_sleeps_between_attempts
    (s : BPS.t) (w : BPS.World) (d : Doc.t) :
  1 <= BPS.maxRetries s ->
  let trace := snd (BPS.processDocument s w d) in
  let n := Z.of_nat (BPS.invocations trace) in
  1 <= n <= BPS.maxRetries s
  /\ trace = alternating BPS.Extract (backoff s w d) n
  /\ S (sleeps trace) = BPS.invocations trace
  /\ Forall (sleepWithin
               (inject_Z (Z.min (BPS.maxRetryWaitTime s) 30) * 1000)%Q)
            trace.
Proof.
  intros H trace n.
  split; [exact (proj1 (processDocument_spec s w d H))|].
  subst n trace. unfold BPS.processDocument.
  destruct (attemptRange_positive s H) as [-> Hk].
  split;
    [|exact (attemptLoop_sleeps s w d (Z.to_nat (BPS.maxRetries s) - 1)
               1 None Hk)].
  destruct (attemptLoop_trace s w d (Z.to_nat (BPS.maxRetries s) - 1) 1 None Hk)
    as (m & Htrace).
  rewrite Htrace at 2. rewrite Htrace at 1.
  rewrite invocations_retries, length_map, length_seq.
  symmetry. apply alternating_from_one.
Qed.

Lemma processDocument_sleeps_between_attempts_witness :
  let s := service 4 2 3 30 in
  let w := world succeedsOnThird 0 in
  let d := document "a" in
  snd (BPS.processDocument s w d)
  = [BPS.Extract 1; backoff s w d 1; BPS.Extract 2; backoff s w d 2;
     BPS.Extract 3].
Proof.
  refine (proj1 (proj2 (processDocument_sleeps_between_attempts
                          (service 4 2 3 30) (world succeedsOnThird 0)
                          (document "a") _))).
  vm_compute; discriminate.
Defined.

(** ** Retries of the repository *)

Section RequestRetries.

Variables (c : Repo.Config) (post : Z -> Repo.Posted).

Lemma requestLoop_cons attempt later lastError :
  Repo.requestLoop c post (attempt :: later) lastError
  = match post attempt with
    | Repo.Answered body => (Repo.Responded body, [Repo.Post attempt])
    | Repo.Failed error =>
        if Repo.shouldNotRetry error then (Repo.Threw error, [Repo.Post attempt])
        else
          let slept :=
            if attempt <? Repo.maxRetries c
            then [Repo.Sleep (Repo.retryDelay c * 2 ^ (attempt - 1))]
            else [] in
          (fst (Repo.requestLoop c post later (Some error)),
           (Repo.Post attempt
              :: slept ++ snd (Repo.requestLoop c post later (Some error)))%list)
    end.
Proof.
  cbn [Repo.requestLoop].
  destruct (post attempt) as [body|error]; [reflexivity|].
  destruct (Repo.shouldNotRetry error); [reflexivity|].
  now destruct (Repo.requestLoop c post later (Some error)).
Qed.

Lemma requestLoop_spec : forall k a lastError,
  Z.of_nat (a + k) = Repo.maxRetries c ->
  let run := Repo.requestLoop c post (map Z.of_nat (seq a (S k))) lastError in
  exists n,
    (a <= n <= a + k)%nat
    /\ Repo.requests (snd run) = S (n - a)
    /\ (forall j, (a <= j < n)%nat -> retriedFailure (post (Z.of_nat j)))
    /\ match post (Z.of_nat n) with
       | Repo.Answered body => fst run = Repo.Responded body
       | Repo.Failed error =>
           fst run = Repo.Threw error
           /\ (Repo.shouldNotRetry error = true
               \/ Z.of_nat n = Repo.maxRetries c)
       end
    /\ delays (snd run)
       = map (fun attempt => Repo.retryDelay c * 2 ^ (attempt - 1))
             (map Z.of_nat (seq a (n - a))).
Proof.
  induction k as [|k IH]; intros a lastError Hk run; subst run.
  - change (map Z.of_nat (seq a 1)) with [Z.of_nat a].
    rewrite requestLoop_cons.
    destruct (post (Z.of_nat a)) as [body|error] eqn:E.
    + exists a. rewrite E, Nat.sub_diag. cbn. repeat split; try lia.
    + destruct (Repo.shouldNotRetry error) eqn:Hno.
      * exists a. rewrite E, Nat.sub_diag. cbn.
        repeat split; try lia; try now left.
      * replace (Z.of_nat a <? Repo.maxRetries c) with false
          by (symmetry; apply Z.ltb_ge; lia).
        exists a. rewrite E, Nat.sub_diag. cbn.
        repeat split; try lia.
  - change (map Z.of_nat (seq a (S (S k))))
      with (Z.of_nat a :: map Z.of_nat (seq (S a) (S k))).
    rewrite requestLoop_cons.
    destruct (post (Z.of_nat a)) as [body|error] eqn:E.
    + exists a. rewrite E, Nat.sub_diag. cbn. repeat split; try lia.
    + destruct (Repo.shouldNotRetry error) eqn:Hno.
      * exists a. rewrite E, Nat.sub_diag. cbn.
        repeat split; try lia; try now left.
      * replace (Z.of_nat a <? Repo.maxRetries c) with true
          by (symmetry; apply Z.ltb_lt; lia).
        destruct (IH (S a) (Some error))
          as (n & Hn & Hreq & Hbefore & Hdec & Hdelays);
          [rewrite <- Hk; f_equal; lia|].
        cbv zeta in Hreq, Hdec, Hdelays. cbn [fst snd app].
        exists n. split; [lia|]. split.
        { unfold Repo.requests in *. cbn [filter Repo.isPost List.length].
          rewrite Hreq. lia. }
        split.
        { intros j Hj. destruct (Nat.eq_dec j a) as [->|Hne].
          - exists error. now split.
          - apply Hbefore. lia. }
        split; [exact Hdec|].
        unfold delays in *. cbn [flat_map app]. rewrite Hdelays.
        replace (n - a)%nat with (S (n - S a)) by lia. reflexivity.
Qed.

Lemma requests_retries ks n :
  Repo.requests
    (flat_map (fun k => [Repo.Post k; requestDelay c k]) ks ++ [Repo.Post n])
  = S (List.length ks).
Proof.
  induction ks as [|k ks IH]; [reflexivity|].
  unfold Repo.requests in *. cbn [flat_map app filter Repo.isPost List.length].
  unfold requestDelay at 1. cbn [Repo.isPost]. now rewrite IH.
Qed.

Lemma requestLoop_trace : forall k a lastError,
  Z.of_nat (a + k) = Repo.maxRetries c ->
  exists m,
    snd (Repo.requestLoop c post (map Z.of_nat (seq a (S k))) lastError)
    = (flat_map (fun j => [Repo.Post j; requestDelay c j])
                (map Z.of_nat (seq a m))
       ++ [Repo.Post (Z.of_nat (a + m))])%list.
Proof.
  induction k as [|k IH]; intros a lastError Hk.
  - change (map Z.of_nat (seq a 1)) with [Z.of_nat a].
    rewrite requestLoop_cons. exists 0%nat. rewrite Nat.add_0_r.
    destruct (post (Z.of_nat a)) as [body|error]; [reflexivity|].
    destruct (Repo.shouldNotRetry error); [reflexivity|].
    replace (Z.of_nat a <? Repo.maxRetries c) with false
      by (symmetry; apply Z.ltb_ge; lia).
    reflexivity.
  - change (map Z.of_nat (seq a (S (S k))))
      with (Z.of_nat a :: map Z.of_nat (seq (S a) (S k))).
    rewrite requestLoop_cons.
    destruct (post (Z.of_nat a)) as [body|error];
      [exists 0%nat; rewrite Nat.add_0_r; reflexivity|].
    destruct (Repo.shouldNotRetry error);
      [exists 0%nat; rewrite Nat.add_0_r; reflexivity|].
    replace (Z.of_nat a <? Repo.maxRetries c) with true
      by (symmetry; apply Z.ltb_lt; lia).
    destruct (IH (S a) (Some error)) as (m' & Htrace);
      [rewrite <- Hk; f_equal; lia|].
    exists (S m'). cbn [snd]. rewrite Htrace. cbn [seq map flat_map app].
    unfold requestDelay at 2. now rewrite Nat.add_succ_r.
Qed.

End RequestRetries.

(** X17: [makeRequestWithRetry] with [maxRetries >= 1] sends [n] requests
    for some [n] between 1 and [maxRetries]: the first [n - 1] fail with
    errors the repository retries on, and the [n]-th either is answered, and
    its response returned, or fails and its error is thrown, which happens
    at once for a 4xx response and otherwise only when [n = maxRetries].
    After the [k]-th request, [k < n], and before the next, it sleeps
    [retryDelay * 2^(k-1)] milliseconds; it does not sleep after the last:
    request 1, sleep, request 2, ..., sleep, request [n].  With
    [maxRetries <= 0] it sends nothing and throws [lastError], which is
    still [undefined]. *)
Theorem makeRequestWithRetry_spec (c : Repo.Config) (post : Z -> Repo.Posted) :
  let run := Repo.makeRequestWithRetry c post in
  let n := Z.of_nat (Repo.requests (snd run)) in
  (Repo.maxRetries c <= 0 -> run = (Repo.ThrewUndefined, []))
  /\ (1 <= Repo.maxRetries c ->
      1 <= n <= Repo.maxRetries c
      /\ (forall j, 1 <= j < n -> retriedFailure (post j))
      /\ match post n with
         | Repo.Answered body => fst run = Repo.Responded body
         | Repo.Failed error =>
             fst run = Repo.Threw error
             /\ (Repo.shouldNotRetry error = true \/ n = Repo.maxRetries c)
         end
      /\ snd run = alternating Repo.Post (requestDelay c) n
      /\ delays (snd run)
         = map (fun attempt => Repo.retryDelay c * 2 ^ (attempt - 1))
               (BPS.attemptRange (n - 1))).
Proof.
  intros run n. subst run n. unfold Repo.makeRequestWithRetry. split.
  - intros H. unfold BPS.attemptRange.
    replace (Z.to_nat (Repo.maxRetries c)) with 0%nat by lia. reflexivity.
  - intros H.
    assert (Hrange : BPS.attemptRange (Repo.maxRetries c)
                     = map Z.of_nat (seq 1 (S (Z.to_nat (Repo.maxRetries c) - 1)))).
    { unfold BPS.attemptRange. do 2 f_equal. lia. }
    rewrite Hrange.
    destruct (requestLoop_spec c post (Z.to_nat (Repo.maxRetries c) - 1) 1 None)
      as (n & Hn & Hreq & Hbefore & Hdec & Hdelays); [lia|].
    destruct (requestLoop_trace c post (Z.to_nat (Repo.maxRetries c) - 1) 1 None)
      as (m & Htrace); [lia|].
    cbv zeta in Hreq, Hdec, Hdelays. rewrite Hreq.
    replace (Z.of_nat (S (n - 1))) with (Z.of_nat n) by lia.
    split; [lia|]. split.
    { intros j Hj. replace j with (Z.of_nat (Z.to_nat j)) by lia.
      apply Hbefore. lia. }
    split; [exact Hdec|]. split.
    { rewrite Htrace in Hreq.
      rewrite requests_retries, length_map, length_seq in Hreq.
      rewrite Htrace. replace n with (S m) by lia.
      symmetry. apply alternating_from_one. }
    rewrite Hdelays. unfold BPS.attemptRange. do 3 f_equal. lia.
Qed.

Example makeRequestWithRetry_examples :
  Repo.makeRequestWithRetry (repositoryConfig 3 1000)
                            (fun _ => Repo.Failed (httpError 500))
  = (Repo.Threw (httpError 500),
     [Repo.Post 1; Repo.Sleep 1000; Repo.Post 2; Repo.Sleep 2000; Repo.Post 3])
  /\ Repo.makeRequestWithRetry (repositoryConfig 3 1000)
                               (fun _ => Repo.Failed (httpError 429))
     = (Repo.Threw (httpError 429), [Repo.Post 1])
  /\ Repo.makeRequestWithRetry (repositoryConfig 0 1000)
                               (fun _ => Repo.Answered "{}")
     = (Repo.ThrewUndefined, []).
Proof. repeat split; reflexivity. Qed.

(** X18: how the batch service treats the errors the repository reports.
    The Error [handleError] builds for a 401 response is never retried by
    [shouldRetry]; those it builds for a 413, a 429 or a 500 response, for a
    timeout (ECONNABORTED) and for an unreachable host (ENOTFOUND) are
    retried as long as an attempt is left: the message for 413 is 'File too
    large...', which the marker 'FILE_TOO_LARGE' does not match. *)
Theorem handleError_then_shouldRetry
    (s : BPS.t) (attempt : Z) (error : Repo.RequestError) (d : Doc.t) :
  let retried := attempt <? BPS.maxRetries s in
  let statusIs n :=
    exists r, Repo.response error = Some r /\ Repo.status r = n in
  let codeIs name :=
    Repo.response error = None /\ Repo.code error = Some name in
  (statusIs 401 ->
   exists m, Repo.handleError error d = Return m
             /\ BPS.shouldRetry s m attempt = false)
  /\ (statusIs 413 \/ statusIs 429 \/ statusIs 500
      \/ codeIs "ECONNABORTED" \/ codeIs "ENOTFOUND" ->
      exists m, Repo.handleError error d = Return m
                /\ BPS.shouldRetry s m attempt = retried).
Proof.
  intros retried statusIs codeIs. subst retried statusIs codeIs. cbv beta.
  unfold Repo.handleError. split.
  - intros (r & -> & ->). cbn. eexists. split; reflexivity.
  - intros [H|[H|[H|[H|H]]]].
    1, 2, 3: destruct H as (r & -> & ->); cbn; eexists;
      (split; [reflexivity|]); rewrite shouldRetry_spec; reflexivity.
    all: destruct H as [-> ->]; eexists; (split; [reflexivity|]);
      rewrite shouldRetry_spec; reflexivity.
Qed.

(** ** File types *)

(** X19: the three tables of file types agree: an extension is supported by
    [FilePath.isSupportedType] exactly when the MIME type [getMimeType]
    derives from it is one that [Document.canBeProcessed] accepts; every
    other extension gets 'application/octet-stream', which it refuses. *)
Theorem mimeType_tables_agree (p : FilePath.t) :
  FilePath.isSupportedType p
  = arrayIncludes (FilePath.getMimeType p) Doc.supportedTypes
  /\ (FilePath.isSupportedType p = false ->
      FilePath.getMimeType p = "application/octet-stream").
Proof.
  unfold FilePath.isSupportedType, FilePath.getMimeType, FilePath.getExtension.
  generalize (FilePath.extension p) as ext. intros ext.
  unfold arrayIncludes at 1. unfold FilePath.supportedExtensions, FilePath.mimeTypes.
  cbn [existsb FilePath.property].
  repeat match goal with
         | |- context [String.eqb ext ?k] =>
             let E := fresh "E" in
             destruct (String.eqb ext k) eqn:E;
             [apply String.eqb_eq in E; subst ext; split;
              [reflexivity | discriminate]
             | cbn [orb]]
         end.
  split; reflexivity.
Qed.

(** X20: [validateUrl] accepts a URL exactly when it parses, its protocol is
    http: or https:, its path contains a dot and its extension is one of the
    nine it lists.  Whatever it throws is 'Invalid URL format' or a message
    about the protocol or the extension: the message 'URL must point to a
    file with a valid extension', thrown inside the [try] block, never
    leaves it, the [catch] block turning it into 'Invalid URL format'. *)
Theorem validateUrl_decision (parse : FilePath.UrlParse) :
  (FilePath.validateUrl parse = Return tt
   <-> exists url,
         parse = FilePath.Parsed url
         /\ In (FilePath.protocol url) ["http:"; "https:"]
         /\ includes "." (FilePath.pathname url) = true
         /\ In (FilePath.extname url) FilePath.urlExtensions)
  /\ (forall message,
        FilePath.validateUrl parse = Throw message ->
        message <> "URL must point to a file with a valid extension"
        /\ (message = "Invalid URL format"
            \/ includes "Unsupported protocol" message = true
            \/ includes "Unsupported file extension" message = true))
  /\ (forall url,
        parse = FilePath.Parsed url ->
        In (FilePath.protocol url) ["http:"; "https:"] ->
        includes "." (FilePath.pathname url) = false ->
        FilePath.validateUrl parse = Throw "Invalid URL format").
Proof.
  assert (Hreturns : FilePath.validateUrl parse = Return tt
                     <-> FilePath.validateUrlBody parse = Return tt).
  { unfold FilePath.validateUrl.
    destruct (FilePath.validateUrlBody parse) as [[]|m]; [tauto|].
    destruct (includes "Unsupported protocol" m
              || includes "Unsupported file extension" m);
      split; discriminate. }
  split; [|split].
  - rewrite Hreturns. unfold FilePath.validateUrlBody.
    destruct parse as [url|m].
    + destruct (arrayIncludes (FilePath.protocol url) ["http:"; "https:"])
        eqn:Hp; cbn [negb].
      * destruct (includes "." (FilePath.pathname url)) eqn:Hd; cbn [negb].
        -- destruct (arrayIncludes (FilePath.extname url) FilePath.urlExtensions)
             eqn:He; cbn [negb].
           ++ split; [|reflexivity]. intros _. exists url.
              apply arrayIncludes_In in Hp, He. now repeat split.
           ++ split; [discriminate|].
              intros (u & [= <-] & _ & _ & Hin).
              apply arrayIncludes_In in Hin. congruence.
        -- split; [discriminate|].
           intros (u & [= <-] & _ & Hdot & _). congruence.
      * split; [discriminate|].
        intros (u & [= <-] & Hin & _).
        apply arrayIncludes_In in Hin. congruence.
    + split; [discriminate|]. intros (u & Hu & _). discriminate.
  - intros message. unfold FilePath.validateUrl.
    destruct (FilePath.validateUrlBody parse) as [[]|m]; [discriminate|].
    destruct (includes "Unsupported protocol" m
              || includes "Unsupported file extension" m) eqn:Hm.
    + intros [= <-]. split.
      * intros ->. vm_compute in Hm. discriminate.
      * right. now apply orb_true_iff in Hm.
    + intros [= <-]. split; [discriminate | now left].
  - intros url -> Hp Hd. unfold FilePath.validateUrl, FilePath.validateUrlBody.
    apply arrayIncludes_In in Hp. rewrite Hp, Hd. reflexivity.
Qed.

Example validateUrl_examples :
  FilePath.validateUrl
    (FilePath.Parsed {| FilePath.protocol := "https:";
                        FilePath.pathname := "/docs/invoice.pdf";
                        FilePath.extname := ".pdf" |}) = Return tt
  /\ FilePath.validateUrl
       (FilePath.Parsed {| FilePath.protocol := "ftp:";
                           FilePath.pathname := "/docs/invoice.pdf";
                           FilePath.extname := ".pdf" |})
     = Throw "Unsupported protocol: ftp:. Only HTTP and HTTPS are supported."
  /\ FilePath.validateUrl
       (FilePath.Parsed {| FilePath.protocol := "https:";
                           FilePath.pathname := "/docs/invoice";
                           FilePath.extname := "" |})
     = Throw "Invalid URL format"
  /\ FilePath.validateUrl
       (FilePath.Parsed {| FilePath.protocol := "https:";
                           FilePath.pathname := "/docs/scan.ppm";
                           FilePath.extname := ".ppm" |})
     = Throw "Unsupported file extension in URL: .ppm".
Proof. repeat split; reflexivity. Qed.

(** ** Every withdrawn document is filed once *)

Section FiledOnce.

Variable w : BPS.World.

Lemma filedOnce_refl s : filedOnce [] s s.
Proof. exists [], []. rewrite !app_nil_r. now repeat split. Qed.

Lemma filedOnce_trans ids1 ids2 s1 s2 s3 :
  filedOnce ids1 s1 s2 -> filedOnce ids2 s2 s3 ->
  filedOnce (ids1 ++ ids2) s1 s3.
Proof.
  intros (d1 & l1 & Hc1 & Hf1 & Hp1) (d2 & l2 & Hc2 & Hf2 & Hp2).
  exists (d1 ++ d2)%list, (l1 ++ l2)%list.
  rewrite Hc2, Hc1, Hf2, Hf1, <- !app_assoc. repeat split.
  rewrite <- Hp1, <- Hp2, !map_app, <- !app_assoc.
  apply Permutation_app_head. rewrite !app_assoc.
  apply Permutation_app_tail. apply Permutation_app_comm.
Qed.

Lemma filedOnce_perm ids ids' s s' :
  Permutation ids ids' -> filedOnce ids s s' -> filedOnce ids' s s'.
Proof.
  intros Hperm (done & lost & Hc & Hf & Hp). exists done, lost.
  repeat split; try assumption. now rewrite Hp.
Qed.

Lemma filedOnce_settle r s d :
  filedOnce [Doc.id d] s (snd (BPS.settle w (r, s) d)).
Proof.
  rewrite settle_eq. destruct (succeeds s w d); cbn [snd].
  - exists [Doc.markAsCompleted d], []. cbn. rewrite app_nil_r. now repeat split.
  - exists [], [Doc.markAsFailed d]. cbn. rewrite app_nil_r. now repeat split.
Qed.

Lemma filedOnce_fold_settle ds : forall acc,
  filedOnce (map Doc.id ds) (snd acc) (snd (fold_left (BPS.settle w) ds acc)).
Proof.
  induction ds as [|d ds IH]; intros [r s]; [apply filedOnce_refl|].
  cbn [fold_left map].
  apply (filedOnce_trans [Doc.id d] (map Doc.id ds) s
           (snd (BPS.settle w (r, s) d))).
  - apply filedOnce_settle.
  - apply IH.
Qed.

Lemma filedOnce_processChunk acc chunk :
  filedOnce (map Doc.id chunk) (snd acc) (snd (BPS.processChunk w acc chunk)).
Proof.
  unfold BPS.processChunk.
  eapply filedOnce_perm; [|apply filedOnce_fold_settle].
  rewrite (Permutation_map Doc.id (settlingOrder_perm w _)).
  rewrite map_map. reflexivity.
Qed.

Lemma filedOnce_chunks chunks : forall acc,
  filedOnce (map Doc.id (List.concat chunks)) (snd acc)
            (snd (fold_left (BPS.processChunk w) chunks acc)).
Proof.
  induction chunks as [|chunk chunks IH]; intros acc; [apply filedOnce_refl|].
  cbn [fold_left List.concat]. rewrite map_app.
  eapply filedOnce_trans; [apply filedOnce_processChunk | apply IH].
Qed.

End FiledOnce.

(** X21: when [processBatch] returns, every document it withdrew from the
    queue has been appended to exactly one of [completedDocuments] and
    [failedDocuments], once: the ids of the documents appended to the two
    lists are, up to order, the ids of the withdrawn documents.  No document
    is dropped and none is filed twice, whatever the order in which the
    extractions settle. *)
Theorem processBatch_files_each_document_once
    (s : BPS.t) (w : BPS.World) (r : BPS.Summary.t) (s' : BPS.t) :
  BPS.processBatch s w = Some (r, s') ->
  exists done lost,
    BPS.completedDocuments s' = (BPS.completedDocuments s ++ done)%list
    /\ BPS.failedDocuments s' = (BPS.failedDocuments s ++ lost)%list
    /\ Permutation
         (map Doc.id (done ++ lost))
         (map Doc.id (firstn (Z.to_nat (BPS.Summary.processed r))
                             (BPS.processingQueue s))).
Proof.
  intros Hrun. unfold BPS.processBatch in Hrun.
  destruct (BPS.processingQueue s) as [|d0 q] eqn:Eq.
  - cbn in Hrun. injection Hrun as <- <-. cbn.
    exists [], []. rewrite !app_nil_r. now repeat split.
  - cbn [List.length Nat.eqb] in Hrun. rewrite <- Eq in *.
    unfold splice0 in Hrun.
    set (n := Z.to_nat (Z.min (Z.max (BPS.batchSize s) 0)
                          (Z.of_nat (List.length (BPS.processingQueue s)))))
      in Hrun.
    destruct (BPS.chunkArray (firstn n (BPS.processingQueue s))
                             (BPS.maxWorkers s)) as [chunks|] eqn:Hchunks;
      [|discriminate].
    injection Hrun as Hrun.
    destruct (chunkArray_returns _ _ chunks Hchunks) as [Hcat _].
    pose proof (filedOnce_chunks w chunks
                  ({| BPS.Summary.processed :=
                        Z.of_nat (List.length (firstn n (BPS.processingQueue s)));
                      BPS.Summary.completed := 0; BPS.Summary.failed := 0;
                      BPS.Summary.message := None;
                      BPS.Summary.errors := Some [] |},
                   BPS.setQueue (skipn n (BPS.processingQueue s)) s)) as Hfiled.
    pose proof (progress_chunks w chunks
                  ({| BPS.Summary.processed :=
                        Z.of_nat (List.length (firstn n (BPS.processingQueue s)));
                      BPS.Summary.completed := 0; BPS.Summary.failed := 0;
                      BPS.Summary.message := None;
                      BPS.Summary.errors := Some [] |},
                   BPS.setQueue (skipn n (BPS.processingQueue s)) s)) as Hp.
    rewrite Hrun in Hfiled, Hp. cbn [snd] in Hfiled.
    destruct Hp as (_ & _ & Hproc & _). cbn in Hproc.
    destruct Hfiled as (done & lost & Hc & Hf & Hperm).
    exists done, lost. cbn in Hc, Hf. repeat split; try assumption.
    rewrite Hperm, Hcat, Hproc, Nat2Z.id.
    rewrite length_firstn.
    replace (Nat.min n (List.length (BPS.processingQueue s)))
      with n by (subst n; lia).
    reflexivity.
Qed.

Lemma processBatch_files_each_document_once_witness :
  match BPS.processBatch (serviceHolding [document "a"; document "b"])
                         (world succeedsOnThird 0) with
  | Some (r, s') =>
      exists done lost,
        BPS.completedDocuments s' = done
        /\ BPS.failedDocuments s' = lost
        /\ Permutation (map Doc.id (done ++ lost)) ["a"; "b"]
  | None => False
  end.
Proof.
  destruct (BPS.processBatch (serviceHolding [document "a"; document "b"])
                             (world succeedsOnThird 0))
    as [[r s']|] eqn:H.
  - destruct (processBatch_files_each_document_once
                (serviceHolding [document "a"; document "b"])
                (world succeedsOnThird 0) r s' H)
      as (done & lost & Hc & Hf & Hp).
    exists done, lost. split; [exact Hc|]. split; [exact Hf|].
    vm_compute in H. injection H as <- _. exact Hp.
  - vm_compute in H. discriminate.
Defined.
